(** * Price finder: a shallow embedding of [app.py] and its properties

    The development follows the source file top-down: Python values and
    exceptions, the string helpers ([normalize_space], [wildcard_match]),
    [parse_price], the JSON-LD extractor, [scrape_site] and the run block
    that loops over the configured sites and sorts the combined offers.

    Conventions.
    - A Python [str] is a list of characters. Characters are the code
      points below 256 (Latin-1); on these, [isspace] and [lower_char]
      are exactly Python's [str.isspace] and [str.lower].
    - A Python [float] is a binary64 value of [PrimFloat].
    - Code that can raise returns a [Result]; [try ... except Exception]
      is [try_except].
    - Third-party code (requests, BeautifulSoup, json, price_parser,
      urllib's urljoin, the float parser, pandas' sort) is not part of
      the repository: it enters through the record [Lib] and the record
      [SortValues]. *)

From Stdlib Require Import List Ascii String ZArith NArith Bool Lia Floats.
From Stdlib Require Import Permutation Sorting.Sorted.
Import ListNotations.

Set Implicit Arguments.

(* ================================================================== *)
(** * Python strings *)
(* ================================================================== *)

Definition str := list ascii.

(** A string literal of the source. *)
Definition lit (s : string) : str := list_ascii_of_string s.

Definition chr_eqb (a b : ascii) : bool := Ascii.eqb a b.

Fixpoint str_eqb (a b : str) : bool :=
  match a, b with
  | [], [] => true
  | x :: a', y :: b' => chr_eqb x y && str_eqb a' b'
  | _, _ => false
  end.

Module PyStr.

(** [str.isspace] on one character: TAB..CR, FS..US, SPACE, NEL, NBSP. *)
Definition isspace (c : ascii) : bool :=
  let n := N_of_ascii c in
  (((9 <=? n) && (n <=? 13)) || ((28 <=? n) && (n <=? 32))
   || (n =? 133) || (n =? 160))%N.

(** The class [\d] of the [re] module. *)
Definition isdigit (c : ascii) : bool :=
  let n := N_of_ascii c in ((48 <=? n) && (n <=? 57))%N.

(** [str.lower] on one character: A-Z and the capital letters
    U+00C0..U+00DE (the multiplication sign U+00D7 apart). *)
Definition lower_char (c : ascii) : ascii :=
  let n := N_of_ascii c in
  if (((65 <=? n) && (n <=? 90))
      || ((192 <=? n) && (n <=? 222) && negb (n =? 215)))%N
  then ascii_of_N (n + 32) else c.

Definition lower (s : str) : str := map lower_char s.

Fixpoint lstrip (s : str) : str :=
  match s with
  | [] => []
  | c :: r => if isspace c then lstrip r else s
  end.

Fixpoint rstrip (s : str) : str :=
  match s with
  | [] => []
  | c :: r =>
      match rstrip r with
      | [] => if isspace c then [] else [c]
      | r' => c :: r'
      end
  end.

(** [s.strip()] *)
Definition strip (s : str) : str := rstrip (lstrip s).

(** [p] is a prefix of [s]. *)
Fixpoint startswith (s p : str) : bool :=
  match p, s with
  | [], _ => true
  | x :: p', y :: s' => chr_eqb x y && startswith s' p'
  | _ :: _, [] => false
  end.

(** [p in s] *)
Fixpoint contains (s p : str) : bool :=
  startswith s p ||
  match s with
  | [] => false
  | _ :: r => contains r p
  end.

(** [s.replace(old, new)]: every occurrence, left to right, without
    overlap. [skip] counts the characters of a match still to drop. *)
Fixpoint replace_from (old new : str) (skip : nat) (s : str) : str :=
  match s with
  | [] => []
  | c :: r =>
      match skip with
      | S k => replace_from old new k r
      | O =>
          if startswith s old
          then new ++ replace_from old new (List.length old - 1) r
          else c :: replace_from old new 0 r
      end
  end.

Definition replace (s old new : str) : str :=
  match old with
  | [] => new ++ flat_map (fun c => c :: new) s
  | _ :: _ => replace_from old new 0 s
  end.

(** [re.sub(r"\s+", " ", s)]: each maximal run of whitespace becomes one
    space. [in_run] tells that the previous character was whitespace. *)
Fixpoint sub_ws (in_run : bool) (s : str) : str :=
  match s with
  | [] => []
  | c :: r =>
      if isspace c
      then (if in_run then sub_ws true r else " "%char :: sub_ws true r)
      else c :: sub_ws false r
  end.

Definition re_sub_ws_space (s : str) : str := sub_ws false s.

(** [re.sub] for a pattern that is one character class: every matching
    character is replaced by [repl]. *)
Definition re_sub_class (cls : ascii -> bool) (repl s : str) : str :=
  flat_map (fun c => if cls c then repl else [c]) s.

End PyStr.
Import PyStr.

(** [normalize_space] (app.py, line 48). [s or ""] is [s] on a string. *)
Definition normalize_space (s : str) : str := re_sub_ws_space (strip s).

(** [wildcard_match] (app.py, line 51). *)
Definition wildcard_match (query text : str) : bool :=
  let q := lower (normalize_space query) in
  let t := lower (normalize_space text) in
  contains t q.

(** ** The wording of the specification, for comparison *)

(** "collapse whitespace, trim, lowercase", in that order. *)
Definition spec_normalize (s : str) : str :=
  lower (strip (re_sub_ws_space s)).

(** [p] is a substring of [s]. *)
Definition Substring (p s : str) : Prop := exists a b, s = a ++ p ++ b.

(** Every character of [w] is whitespace. *)
Definition all_space (w : str) : bool := forallb isspace w.

(** ** Shapes of strings used in the proofs *)

Module PyStrShape.

(** The string does not start with whitespace. *)
Definition no_lead (s : str) : bool :=
  match s with [] => true | c :: _ => negb (isspace c) end.

(** The string does not end with whitespace. *)
Fixpoint no_trail (s : str) : bool :=
  match s with
  | [] => true
  | c :: r => match r with [] => negb (isspace c) | _ :: _ => no_trail r end
  end.

(** No two neighbouring whitespace characters; [prev] tells that the
    character before the string is whitespace. *)
Fixpoint no_double (prev : bool) (s : str) : bool :=
  match s with
  | [] => true
  | c :: r =>
      if isspace c then negb prev && no_double true r else no_double false r
  end.

(** The flag [sub_ws] carries after having read [a]. *)
Fixpoint flag_after (b : bool) (a : str) : bool :=
  match a with [] => b | c :: r => flag_after (isspace c) r end.

End PyStrShape.
Import PyStrShape.

(** [s'] is [s] with letter case or whitespace runs altered: some letters
    changed to their other case, a whitespace run replaced by another
    one, whitespace added or removed at the ends, any number of times. *)
Inductive Altered : str -> str -> Prop :=
| alt_refl s : Altered s s
| alt_case s s' : lower s' = lower s -> Altered s s'
| alt_run a w w' b :
    w <> [] -> w' <> [] -> all_space w = true -> all_space w' = true ->
    Altered (a ++ w ++ b) (a ++ w' ++ b)
| alt_pad w w' s :
    all_space w = true -> all_space w' = true -> Altered s (w ++ s ++ w')
| alt_sym s s' : Altered s s' -> Altered s' s
| alt_trans s1 s2 s3 : Altered s1 s2 -> Altered s2 s3 -> Altered s1 s3.


(* ================================================================== *)
(** * Exceptions *)
(* ================================================================== *)

(** A raised exception: its class name and the text [str(e)]. Every
    exception of this file is a subclass of [Exception]. *)
Inductive exn : Type := Exc (cls msg : str).

Definition exn_text (e : exn) : str := match e with Exc _ msg => msg end.

Inductive Result (A : Type) : Type :=
| Ok (a : A)
| Raise (e : exn).
Arguments Ok {A} a.
Arguments Raise {A} e.

Definition bind {A B : Type} (c : Result A) (k : A -> Result B) : Result B :=
  match c with
  | Ok a => k a
  | Raise e => Raise e
  end.

Notation "x <- c ;; k" := (bind c (fun x => k))
  (at level 61, c at next level, right associativity).

(** [try: body except Exception: handler] *)
Definition try_except {A : Type} (body : Result A) (handler : exn -> Result A)
  : Result A :=
  match body with
  | Ok a => Ok a
  | Raise e => handler e
  end.

Definition ValueError (msg : string) : exn := Exc (lit "ValueError") (lit msg).
Definition TypeError (msg : string) : exn := Exc (lit "TypeError") (lit msg).
Definition AttributeError (msg : string) : exn :=
  Exc (lit "AttributeError") (lit msg).
Definition OverflowError (msg : string) : exn :=
  Exc (lit "OverflowError") (lit msg).

(* ================================================================== *)
(** * Python values *)
(* ================================================================== *)

(** A float object. The JSON decoder returns one and the same object for
    every [NaN] literal of a document; the dictionary used to drop
    duplicates tells that object ([JsonNaN]) from any other NaN, which is
    equal to nothing. *)
Inductive pyfloat : Type :=
| Fl (f : float)
| JsonNaN.

Definition fval (p : pyfloat) : float :=
  match p with
  | Fl f => f
  | JsonNaN => nan
  end.

(** What [json.loads] returns. An object keeps its members in document
    order; its keys are distinct. [JFloat] is a number literal with a
    fraction or an exponent (and [Infinity], [-Infinity]); [JNaN] is the
    literal [NaN]. *)
#[warnings="-register-all"]
Inductive json : Type :=
| JNull
| JBool (b : bool)
| JInt (z : Z)
| JFloat (f : float)
| JNaN
| JStr (s : str)
| JArr (items : list json)
| JObj (members : list (str * json)).

(** [bool(v)] *)
Definition truthy (v : json) : bool :=
  match v with
  | JNull => false
  | JBool b => b
  | JInt z => negb (z =? 0)%Z
  | JFloat f => negb (PrimFloat.is_zero f)
  | JNaN => true
  | JStr s => match s with [] => false | _ :: _ => true end
  | JArr l => match l with [] => false | _ :: _ => true end
  | JObj m => match m with [] => false | _ :: _ => true end
  end.

(** [a or b] *)
Definition py_or (a b : json) : json := if truthy a then a else b.

Definition str_or (a b : str) : str :=
  match a with [] => b | _ :: _ => a end.

(** [d.get(k)]: the value, or [None]. *)
Fixpoint dict_get (members : list (str * json)) (k : str) : json :=
  match members with
  | [] => JNull
  | (k', v) :: r => if str_eqb k' k then v else dict_get r k
  end.

(** [v == s] for a string literal [s]. *)
Definition is_str (v : json) (s : str) : bool :=
  match v with
  | JStr x => str_eqb x s
  | _ => false
  end.

(** ** Equality of dictionary keys *)

(** The value of a number: zero, plus or minus [m * 2^e] with [m] odd, or
    an infinity. Python compares [bool], [int] and [float] by value. *)
Inductive numval : Type :=
| NZero
| NFin (neg : bool) (m : positive) (e : Z)
| NInf (neg : bool).

(** [p = m * 2^k] with [m] odd. *)
Fixpoint odd_part (p : positive) : positive * Z :=
  match p with
  | xO q => let '(m, k) := odd_part q in (m, k + 1)%Z
  | _ => (p, 0%Z)
  end.

Definition numval_of_Z (z : Z) : numval :=
  match z with
  | Z0 => NZero
  | Zpos p => let '(m, k) := odd_part p in NFin false m k
  | Zneg p => let '(m, k) := odd_part p in NFin true m k
  end.

Definition numval_of_float (f : float) : option numval :=
  match Prim2SF f with
  | S754_zero _ => Some NZero
  | S754_infinity s => Some (NInf s)
  | S754_nan => None
  | S754_finite s m e => let '(m', k) := odd_part m in Some (NFin s m' (e + k)%Z)
  end.

(** A hashable value as a dictionary sees it. [AUnique] is an object that
    is equal to no other object (a NaN that is not the decoder's). *)
Inductive atom : Type :=
| ANone
| AStr (s : str)
| ANum (n : numval)
| AJsonNaN
| AUnique.

Definition numval_eqb (a b : numval) : bool :=
  match a, b with
  | NZero, NZero => true
  | NFin s m e, NFin s' m' e' => Bool.eqb s s' && (m =? m')%positive && (e =? e')%Z
  | NInf s, NInf s' => Bool.eqb s s'
  | _, _ => false
  end.

Definition atom_eqb (a b : atom) : bool :=
  match a, b with
  | ANone, ANone => true
  | AStr x, AStr y => str_eqb x y
  | ANum x, ANum y => numval_eqb x y
  | AJsonNaN, AJsonNaN => true
  | _, _ => false
  end.

Definition atom_of_float (f : float) : atom :=
  match numval_of_float f with
  | Some n => ANum n
  | None => AUnique
  end.

Definition atom_of_pyfloat (p : pyfloat) : atom :=
  match p with
  | Fl f => atom_of_float f
  | JsonNaN => AJsonNaN
  end.

(** [hash(v)] followed by the view of [v] as a key; lists and dicts are
    unhashable. *)
Definition atom_of (v : json) : Result atom :=
  match v with
  | JNull => Ok ANone
  | JBool b => Ok (ANum (numval_of_Z (if b then 1 else 0)))
  | JInt z => Ok (ANum (numval_of_Z z))
  | JFloat f => Ok (atom_of_float f)
  | JNaN => Ok AJsonNaN
  | JStr s => Ok (AStr s)
  | JArr _ => Raise (TypeError "unhashable type: 'list'")
  | JObj _ => Raise (TypeError "unhashable type: 'dict'")
  end.

(** [float(z)] for an [int]: the nearest binary64 value, ties to even;
    [OverflowError] beyond the range. *)
Definition float_of_int (z : Z) : Result float :=
  let f := SF2Prim (binary_normalize prec emax z 0 false) in
  if PrimFloat.is_infinity f
  then Raise (OverflowError "int too large to convert to float")
  else Ok f.


(* ================================================================== *)
(** * The libraries the program calls *)
(* ================================================================== *)

(** An element of the parsed page, as far as the program looks at it:
    [get_text(sep, strip=True)], [get("href")] and [select_one]. *)
#[warnings="-register-all"]
Inductive Tag : Type :=
  mkTag (get_text : str -> str)
        (get_href : option str)
        (select_one : str -> Result (option Tag)).

Definition get_text (t : Tag) : str -> str :=
  match t with mkTag g _ _ => g end.
Definition get_href (t : Tag) : option str :=
  match t with mkTag _ h _ => h end.
Definition select_one (t : Tag) : str -> Result (option Tag) :=
  match t with mkTag _ _ s => s end.

(** The parsed page. [select] is [soup.select] for a selector of the site
    configuration, which may be ill-formed and raise;
    [select_ld_json] is [soup.select('script[type="application/ld+json"]')],
    a fixed well-formed selector. *)
Record Soup : Type := mkSoup {
  select : str -> Result (list Tag);
  select_ld_json : list Tag
}.

(** [price_parser.Price]: [amount] read through [float(p.amount)]. *)
Record Price : Type := mkPrice {
  amount : option float;
  currency_of : option str
}.

(** The response of [requests.get]. *)
Record Response : Type := mkResponse {
  raise_for_status : Result unit;
  text : str
}.

Record Lib : Type := mkLib {
  (** [float(s)] for a string: [ValueError] when [s] is not a number *)
  float_of_str : str -> Result float;
  (** [Price.fromstring], which returns a [Price] for every string *)
  Price_fromstring : str -> Price;
  (** [json.loads] *)
  json_loads : str -> Result json;
  (** [urllib.parse.urljoin] on two non-empty strings *)
  urljoin_str : str -> str -> Result str;
  (** [requests.get(url, headers=..., timeout=...)] *)
  requests_get : str -> list (str * str) -> Z -> Result Response;
  (** [BeautifulSoup(html, "lxml")] *)
  BeautifulSoup : str -> Soup
}.

(* ================================================================== *)
(** * Helpers of app.py *)
(* ================================================================== *)

Definition DEFAULT_HEADERS : list (str * str) :=
  [ (lit "User-Agent",
     lit "Mozilla/5.0 (Windows NT 10.0; Win64; x64) AppleWebKit/537.36 (KHTML, like Gecko) Chrome/120.0 Safari/537.36");
    (lit "Accept-Language", lit "en-GB,en;q=0.9") ].

(** [PRICE_SANITIZE_RE = re.compile(r"[^\d.,]")]: the characters the
    pattern matches. *)
Definition PRICE_SANITIZE_RE (c : ascii) : bool :=
  negb (isdigit c || chr_eqb c "."%char || chr_eqb c ","%char).

Record SiteConfig : Type := mkSiteConfig {
  name : str;
  search_url_template : str;
  card_selector : str;
  title_selector : str;
  price_selector : str;
  link_selector : str;
  currency_hint : str;
  max_results : Z
}.

(** [url] and [currency] hold what the extractors put there, which for
    JSON-LD offers is any value of the document. *)
Record FoundOffer : Type := mkFoundOffer {
  site : str;
  title : str;
  price : pyfloat;
  currency : json;
  url : json;
  matched : bool
}.

(** [parse_price] (app.py, line 57). *)
Definition parse_price (L : Lib) (text : str) : Result (option float * option str) :=
  match text with
  | [] => Ok (None, None)
  | _ :: _ =>
      let p := Price_fromstring L text in
      match amount p with
      | None =>
          let cleaned :=
            replace (re_sub_class PRICE_SANITIZE_RE [] text) (lit ",") [] in
          try_except
            (f <- float_of_str L cleaned ;; Ok (Some f, None))
            (fun _ => Ok (None, None))
      | Some a => Ok (Some a, currency_of p)
      end
  end.

(** [urllib.parse.urljoin(base, url)] with [base] a string: the first
    lines of the library function, then [urljoin_str]. *)
Definition urljoin (L : Lib) (base : str) (u : json) : Result json :=
  match base with
  | [] => Ok u
  | _ :: _ =>
      if negb (truthy u) then Ok (JStr base)
      else match u with
           | JStr s => r <- urljoin_str L base s ;; Ok (JStr r)
           | _ => Raise (TypeError "Cannot mix str and non-str arguments")
           end
  end.

(** [absolutize_url] (app.py, line 69). *)
Definition absolutize_url (L : Lib) (base : str) (maybe_relative : json)
  : Result json :=
  if negb (truthy maybe_relative) then Ok (JStr [])
  else urljoin L base maybe_relative.

(** [fetch_html] (app.py, line 74). *)
Definition fetch_html (L : Lib) (u : str) (timeout_s : Z) : Result str :=
  r <- requests_get L u DEFAULT_HEADERS timeout_s ;;
  _ <- raise_for_status r ;;
  Ok (text r).

(* ================================================================== *)
(** * JSON-LD extraction *)
(* ================================================================== *)

(** Results of the iterations of a loop that extends a list, in order;
    the first exception ends the loop. *)
Fixpoint for_each {A B : Type} (f : A -> Result (list B)) (l : list A)
  : Result (list B) :=
  match l with
  | [] => Ok []
  | a :: r => x <- f a ;; y <- for_each f r ;; Ok (x ++ y)
  end.

(** [obj.get("@type") in ("Product", "Offer", "AggregateOffer")] *)
Definition has_offer_type (members : list (str * json)) : bool :=
  let t := dict_get members (lit "@type") in
  is_str t (lit "Product") || is_str t (lit "Offer")
  || is_str t (lit "AggregateOffer").

(** The generator [walk] of [_extract_offers_from_jsonld_node], as the
    list of the objects it yields. *)
Fixpoint walk (obj : json) : list json :=
  match obj with
  | JObj members =>
      (if has_offer_type members then [obj] else [])
      ++ flat_map (fun kv => walk (snd kv)) members
  | JArr items => flat_map walk items
  | _ => []
  end.

(** [normalize_space(v)] for any value: [(s or "").strip()] needs a
    string. *)
Definition normalize_space_of (v : json) : Result str :=
  match py_or v (JStr []) with
  | JStr s => Ok (normalize_space s)
  | _ => Raise (AttributeError "object has no attribute 'strip'")
  end.

(** [float(v)] *)
Definition py_float (L : Lib) (v : json) : Result pyfloat :=
  match v with
  | JBool b => Ok (Fl (if b then 1%float else 0%float))
  | JInt z => f <- float_of_int z ;; Ok (Fl f)
  | JFloat f => Ok (Fl f)
  | JNaN => Ok JsonNaN
  | JStr s => f <- float_of_str L s ;; Ok (Fl f)
  | JNull | JArr _ | JObj _ =>
      Raise (TypeError "float() argument must be a string or a real number")
  end.

(** Lines 130-137 of [_offers_from_offer_obj]: the price of an offer
    object, [None] when there is none or it does not convert. *)
Definition offer_price (L : Lib) (offer : list (str * json)) : option pyfloat :=
  let price_val :=
    match dict_get offer (lit "price") with
    | JNull => dict_get offer (lit "lowPrice")
    | v => v
    end in
  match price_val with
  | JNull => None
  | v => match py_float L v with
         | Ok p => Some p
         | Raise _ => None
         end
  end.

(** [_offers_from_offer_obj] (app.py, line 125). *)
Definition _offers_from_offer_obj (L : Lib) (offer : list (str * json))
    (title0 base_url : str) : Result (list FoundOffer) :=
  let cur := py_or (dict_get offer (lit "priceCurrency")) (JStr []) in
  u <- absolutize_url L base_url (py_or (dict_get offer (lit "url")) (JStr [])) ;;
  let u := py_or u (JStr base_url) in
  match offer_price L offer with
  | Some p =>
      Ok [ {| site := [];
              title := str_or title0 (lit "(JSON-LD Product)");
              price := p;
              currency := py_or cur (JStr []);
              url := u;
              matched := true |} ]
  | None => Ok []
  end.

(** The body of the loop [for obj in walk(node)]. *)
Definition offers_of_walked (L : Lib) (base_url : str) (obj : json)
  : Result (list FoundOffer) :=
  match obj with
  | JObj members =>
      let t := dict_get members (lit "@type") in
      if is_str t (lit "Product") then
        title0 <- normalize_space_of (py_or (dict_get members (lit "name")) (JStr [])) ;;
        match dict_get members (lit "offers") with
        | JObj oo => _offers_from_offer_obj L oo title0 base_url
        | JArr l =>
            for_each (fun oo => match oo with
                                | JObj m => _offers_from_offer_obj L m title0 base_url
                                | _ => Ok []
                                end) l
        | _ => Ok []
        end
      else if is_str t (lit "Offer") || is_str t (lit "AggregateOffer") then
        title0 <- normalize_space_of (py_or (dict_get members (lit "name")) (JStr [])) ;;
        _offers_from_offer_obj L members title0 base_url
      else Ok []
  | _ => Ok []
  end.

(** [_extract_offers_from_jsonld_node] (app.py, line 96). *)
Definition _extract_offers_from_jsonld_node (L : Lib) (node : json)
    (base_url : str) : Result (list FoundOffer) :=
  for_each (offers_of_walked L base_url) (walk node).

(** The nodes of one parsed block: [data if isinstance(data, list) else
    [data]]. *)
Definition top_nodes (data : json) : list json :=
  match data with
  | JArr l => l
  | _ => [data]
  end.

(** The body of the loop over the script elements. *)
Definition offers_of_script (L : Lib) (base_url : str) (sc : Tag)
  : Result (list FoundOffer) :=
  parsed <- try_except (data <- json_loads L (get_text sc []) ;; Ok (Some data))
                       (fun _ => Ok None) ;;
  match parsed with
  | None => Ok []
  | Some data =>
      for_each (fun node =>
                  try_except (_extract_offers_from_jsonld_node L node base_url)
                             (fun _ => Ok []))
               (top_nodes data)
  end.

(** [extract_jsonld_offers] (app.py, line 79). *)
Definition extract_jsonld_offers (L : Lib) (soup : Soup) (base_url : str)
  : Result (list FoundOffer) :=
  for_each (offers_of_script L base_url) (select_ld_json soup).


(* ================================================================== *)
(** * [urllib.parse.quote_plus] *)
(* ================================================================== *)

Module UrlLib.

(** Letters, digits and [_.-~] are never quoted. *)
Definition always_safe (c : ascii) : bool :=
  let n := N_of_ascii c in
  (((65 <=? n) && (n <=? 90)) || ((97 <=? n) && (n <=? 122))
   || ((48 <=? n) && (n <=? 57))
   || (n =? 95) || (n =? 46) || (n =? 45) || (n =? 126))%N.

Definition hex_digit (n : N) : ascii :=
  nth (N.to_nat n) (lit "0123456789ABCDEF") "0"%char.

(** ["%XX"] for one byte. *)
Definition percent (b : N) : str :=
  [ "%"%char; hex_digit (b / 16); hex_digit (b mod 16) ].

(** The UTF-8 bytes of one character. *)
Definition utf8 (c : ascii) : list N :=
  let n := N_of_ascii c in
  if (n <? 128)%N then [n] else [192 + n / 64; 128 + n mod 64]%N.

(** [quote(s, safe)] *)
Definition quote (safe s : str) : str :=
  flat_map (fun c =>
              if (N_of_ascii c <? 128)%N
                 && (always_safe c || existsb (chr_eqb c) safe)
              then [c] else flat_map percent (utf8 c)) s.

(** [quote_plus(s)] *)
Definition quote_plus (s : str) : str :=
  if contains s (lit " ")
  then replace (quote (lit " ") s) (lit " ") (lit "+")
  else quote [] s.

End UrlLib.
Import UrlLib.

(** The encoding as the specification words it: percent-encoding, with
    each space written [+]. *)
Definition spec_encode_char (c : ascii) : str :=
  if chr_eqb c " "%char then lit "+"
  else if (N_of_ascii c <? 128)%N && always_safe c then [c]
  else flat_map percent (utf8 c).

Definition spec_encode (s : str) : str := flat_map spec_encode_char s.

(** [sep.join(parts)] *)
Fixpoint join (sep : str) (parts : list str) : str :=
  match parts with
  | [] => []
  | [p] => p
  | p :: r => p ++ sep ++ join sep r
  end.

(** The string has no opening brace. *)
Definition brace_free (p : str) : Prop :=
  forall c, In c p -> chr_eqb c "{"%char = false.

(* ================================================================== *)
(** * [scrape_site] *)
(* ================================================================== *)

Definition PLACEHOLDER : str := lit "{query}".

(** Lines 153-157 of [scrape_site]: the check of the template and the
    search URL. *)
Definition build_search_url (cfg : SiteConfig) (query : str) : Result str :=
  if negb (contains (search_url_template cfg) PLACEHOLDER)
  then Raise (Exc (lit "ValueError")
                  (name cfg ++ lit ": search_url_template must include {query}"))
  else
    let encoded_q := quote_plus (strip query) in
    Ok (replace (search_url_template cfg) PLACEHOLDER encoded_q).

(** [l[:n]] *)
Definition slice_to {A : Type} (l : list A) (n : Z) : list A :=
  if (0 <=? n)%Z then firstn (Z.to_nat n) l
  else firstn (List.length l - Z.to_nat (- n)) l.

(** The text of the first match of a configured selector inside a card,
    normalised; empty when the selector is not configured or matches
    nothing. *)
Definition select_text (c : Tag) (sel : str) : Result str :=
  match sel with
  | [] => Ok []
  | _ :: _ =>
      t <- select_one c sel ;;
      match t with
      | Some t => Ok (normalize_space (get_text t (lit " ")))
      | None => Ok []
      end
  end.

(** The link of a card. *)
Definition select_link (L : Lib) (base_url : str) (c : Tag) (sel : str)
  : Result json :=
  match sel with
  | [] => Ok (JStr [])
  | _ :: _ =>
      a <- select_one c sel ;;
      match a with
      | Some a =>
          match get_href a with
          | Some (h0 :: h) => absolutize_url L base_url (JStr (h0 :: h))
          | _ => Ok (JStr [])
          end
      | None => Ok (JStr [])
      end
  end.

(** The body of the loop over the cards (lines 172-205): the offer of a
    card, or none when its price text gives no amount. *)
Definition card_offer (L : Lib) (query : str) (cfg : SiteConfig)
    (search_url : str) (c : Tag) : Result (option FoundOffer) :=
  title0 <- select_text c (title_selector cfg) ;;
  price_text <- select_text c (price_selector cfg) ;;
  link <- select_link L search_url c (link_selector cfg) ;;
  parsed <- parse_price L price_text ;;
  match fst parsed with
  | None => Ok None
  | Some a =>
      let m := match title0 with
               | [] => true
               | _ :: _ => wildcard_match query title0
               end in
      let cur := match snd parsed with Some s => s | None => [] end in
      Ok (Some {| site := name cfg;
                  title := str_or title0 (lit "(no title found)");
                  price := Fl a;
                  currency := JStr (str_or cur (str_or (currency_hint cfg) []));
                  url := py_or link (JStr search_url);
                  matched := m |})
  end.

Definition selector_offers (L : Lib) (query : str) (cfg : SiteConfig)
    (search_url : str) (cards : list Tag) : Result (list FoundOffer) :=
  for_each (fun c => o <- card_offer L query cfg search_url c ;;
                     Ok (match o with Some x => [x] | None => [] end))
           cards.

(** The body of the loop over the JSON-LD offers (lines 209-212). *)
Definition tag_jsonld_offer (query : str) (cfg : SiteConfig) (o : FoundOffer)
  : FoundOffer :=
  {| site := name cfg;
     title := title o;
     price := price o;
     currency := match currency_hint cfg with
                 | [] => currency o
                 | _ :: _ => if negb (truthy (currency o))
                             then JStr (currency_hint cfg) else currency o
                 end;
     url := url o;
     matched := match title o with
                | [] => true
                | _ :: _ => wildcard_match query (title o)
                end |}.

(** The condition of the filter (line 216). *)
Definition retained (x : FoundOffer) : bool :=
  matched x || str_eqb (title x) (lit "(no title found)")
  || str_eqb (title x) (lit "(JSON-LD Product)").

Definition key : Type := atom * atom * atom.

(** [(x.url, x.price, x.currency)] as a dictionary key; hashing it raises
    on an unhashable component. *)
Definition offer_key (x : FoundOffer) : Result key :=
  u <- atom_of (url x) ;;
  c <- atom_of (currency x) ;;
  Ok (u, atom_of_pyfloat (price x), c).

Definition key_eqb (k1 k2 : key) : bool :=
  let '(u1, p1, c1) := k1 in
  let '(u2, p2, c2) := k2 in
  atom_eqb u1 u2 && atom_eqb p1 p2 && atom_eqb c1 c2.

(** [key in dedup] *)
Definition has_key (d : list (key * FoundOffer)) (k : key) : bool :=
  existsb (fun e => key_eqb (fst e) k) d.

(** The loop that fills [dedup], a dictionary in insertion order. *)
Fixpoint dedup_loop (d : list (key * FoundOffer)) (xs : list FoundOffer)
  : Result (list (key * FoundOffer)) :=
  match xs with
  | [] => Ok d
  | x :: r =>
      k <- offer_key x ;;
      if has_key d k then dedup_loop d r else dedup_loop (d ++ [(k, x)]) r
  end.

(** Lines 159-213 of [scrape_site]: the page at the search URL is
    fetched and parsed; the offers found by the selectors, then those of
    the JSON-LD blocks, before the filter. [time.sleep] changes nothing
    that the function returns. *)
Definition page_offers (L : Lib) (query : str) (cfg : SiteConfig)
    (search_url : str) (timeout_s : Z) : Result (list FoundOffer) :=
  html <- fetch_html L search_url timeout_s ;;
  let soup := BeautifulSoup L html in
  let base_url := search_url in
  cards <- match card_selector cfg with
           | [] => Ok []
           | _ :: _ => select soup (card_selector cfg)
           end ;;
  found1 <- selector_offers L query cfg search_url
              (slice_to cards (max_results cfg)) ;;
  ld <- extract_jsonld_offers L soup base_url ;;
  Ok (found1 ++ map (tag_jsonld_offer query cfg) ld).

(** Lines 153-213 of [scrape_site]. *)
Definition found_offers (L : Lib) (query : str) (cfg : SiteConfig)
    (timeout_s : Z) (sleep_s : float) : Result (list FoundOffer) :=
  search_url <- build_search_url cfg query ;;
  page_offers L query cfg search_url timeout_s.

(** [scrape_site] (app.py, line 152). *)
Definition scrape_site (L : Lib) (query : str) (cfg : SiteConfig)
    (timeout_s : Z) (sleep_s : float) : Result (list FoundOffer) :=
  found <- found_offers L query cfg timeout_s sleep_s ;;
  let filtered := filter retained found in
  d <- dedup_loop [] filtered ;;
  Ok (map snd d).

(** ** The wording of the specification, for comparison *)

(** "strip every character except digits, [.] and [,], remove the [,]
    characters". *)
Definition spec_cleaned (s : str) : str :=
  filter (fun c => negb (chr_eqb c ","%char))
         (filter (fun c => isdigit c || chr_eqb c "."%char || chr_eqb c ","%char) s).

(** [float("")] raises. *)
Definition float_rejects_empty (L : Lib) : Prop :=
  exists e, float_of_str L [] = Raise e.

(** The offers of one script element when failures are skipped: none for
    a block that does not parse, none for a node whose extraction raises. *)
Definition script_offers (L : Lib) (base_url : str) (sc : Tag) : list FoundOffer :=
  match json_loads L (get_text sc []) with
  | Raise _ => []
  | Ok data =>
      flat_map (fun node =>
                  match _extract_offers_from_jsonld_node L node base_url with
                  | Ok l => l
                  | Raise _ => []
                  end)
               (top_nodes data)
  end.

(** The value an offer object gives as its price: [price], or [lowPrice]
    when [price] is absent. *)
Definition price_field (offer : list (str * json)) : json :=
  match dict_get offer (lit "price") with
  | JNull => dict_get offer (lit "lowPrice")
  | v => v
  end.

(** The value does not convert to an amount. *)
Definition unparseable (L : Lib) (v : json) : Prop :=
  v = JNull \/ exists e, py_float L v = Raise e.

(** The dictionary finds the keys of two offers equal: each key is
    hashed, then the keys are compared. *)
Definition same_triple (x y : FoundOffer) : bool :=
  match offer_key x, offer_key y with
  | Ok k1, Ok k2 => key_eqb k1 k2
  | _, _ => false
  end.

(** What the loop over the filtered offers keeps: an offer is kept
    exactly when the dictionary finds its key equal to that of no offer
    before it. [earlier] are the offers already passed. *)
Fixpoint keep_first (earlier l : list FoundOffer) : list FoundOffer :=
  match l with
  | [] => []
  | x :: r =>
      (if existsb (fun y => same_triple y x) earlier then [] else [x])
      ++ keep_first (earlier ++ [x]) r
  end.

(** Every entry of the dictionary is filed under the key of its offer. *)
Definition Keyed (d : list (key * FoundOffer)) : Prop :=
  Forall (fun e => offer_key (snd e) = Ok (fst e)) d.

(** [l] is [l'] with some elements left out. *)
Inductive Subseq {A : Type} : list A -> list A -> Prop :=
| subseq_nil : Subseq [] []
| subseq_keep x l l' : Subseq l l' -> Subseq (x :: l) (x :: l')
| subseq_drop x l l' : Subseq l l' -> Subseq l (x :: l').

(* ================================================================== *)
(** * The run block (app.py, lines 276-324) *)
(* ================================================================== *)

(** One row of the table of sites after [fillna("")]: the text of its
    cells, and the number in the [max_results] cell if there is one. *)
Record Row : Type := mkRow {
  row_name : str;
  row_search_url_template : str;
  row_card_selector : str;
  row_title_selector : str;
  row_price_selector : str;
  row_link_selector : str;
  row_currency_hint : str;
  row_max_results : option Z
}.

(** The [SiteConfig] built from a row (lines 286-295). *)
Definition config_of_row (row : Row) : SiteConfig :=
  {| name := str_or (strip (row_name row)) (lit "Unnamed site");
     search_url_template := strip (row_search_url_template row);
     card_selector := strip (row_card_selector row);
     title_selector := strip (row_title_selector row);
     price_selector := strip (row_price_selector row);
     link_selector := strip (row_link_selector row);
     currency_hint := strip (row_currency_hint row);
     max_results := match row_max_results row with
                    | Some n => n
                    | None => 10%Z
                    end |}.

(** The body of the [try] in the loop over the sites: the offers to add
    to [results]; [continue] adds none. *)
Definition scrape_row (L : Lib) (query : str) (timeout : Z) (delay : float)
    (row : Row) : Result (list FoundOffer) :=
  let cfg := config_of_row row in
  match search_url_template cfg with
  | [] => Ok []
  | _ :: _ => scrape_site L query cfg timeout delay
  end.

(** [f"{row.get('name', 'site')}: {e}"] *)
Definition error_entry (row : Row) (e : exn) : str :=
  row_name row ++ lit ": " ++ exn_text e.

(** The loop over the sites, from given [results] and [errors]. *)
Fixpoint site_loop (L : Lib) (query : str) (timeout : Z) (delay : float)
    (rows : list Row) (results : list FoundOffer) (errors : list str)
  : list FoundOffer * list str :=
  match rows with
  | [] => (results, errors)
  | row :: rest =>
      match scrape_row L query timeout delay row with
      | Ok site_offers =>
          site_loop L query timeout delay rest (results ++ site_offers) errors
      | Raise e =>
          site_loop L query timeout delay rest results
                    (errors ++ [error_entry row e])
      end
  end.

(** ** [df.sort_values(["price"], ascending=True)] *)

Definition price_leb (x y : FoundOffer) : bool :=
  PrimFloat.leb (fval (price x)) (fval (price y)).

Definition price_is_nan (x : FoundOffer) : bool :=
  PrimFloat.is_nan (fval (price x)).

(** The price is a number. *)
Definition numeric (x : FoundOffer) : bool := negb (price_is_nan x).

Definition price_le (x y : FoundOffer) : Prop := price_leb x y = true.

(** Ascending by price: the offers with a number as price in ascending
    order, then the offers whose price is NaN. *)
Definition Ascending (l : list FoundOffer) : Prop :=
  exists nums nans,
    l = nums ++ nans
    /\ forallb numeric nums = true
    /\ forallb price_is_nan nans = true
    /\ StronglySorted price_le nums.

(** What pandas promises of [sort_values] with its default algorithm
    ([kind="quicksort"]): the rows reordered, ascending by the column,
    NaN last. The order of rows with equal prices is not part of it. *)
Record SortValues : Type := mkSortValues {
  sort_values : list FoundOffer -> list FoundOffer;
  sort_values_perm : forall l, Permutation l (sort_values l);
  sort_values_ascending : forall l, Ascending (sort_values l)
}.

(** What the run block shows. *)
Inductive Outcome : Type :=
| BlankQuery
| NoPrices (errors : list str)
| Shown (table : list FoundOffer) (errors : list str).

Definition run (L : Lib) (S : SortValues) (query : str) (rows : list Row)
    (timeout : Z) (delay : float) : Outcome :=
  match strip query with
  | [] => BlankQuery
  | _ :: _ =>
      let '(results, errors) := site_loop L query timeout delay rows [] [] in
      match results with
      | [] => NoPrices errors
      | _ :: _ => Shown (sort_values S results) errors
      end
  end.

(** The offers of [l] whose price equals that of [x], in the order of [l]. *)
Definition same_price (x : FoundOffer) (l : list FoundOffer) : list FoundOffer :=
  filter (fun y => PrimFloat.eqb (fval (price y)) (fval (price x))) l.

(** A stable sort keeps offers of equal price in their order of
    insertion. *)
Definition Stable (input output : list FoundOffer) : Prop :=
  forall x, same_price x output = same_price x input.


(* ================================================================== *)
(** * Concrete libraries and inputs for the examples *)
(* ================================================================== *)

Module Demo.

(** The double quote character. *)
Definition dq : ascii := "034"%char.

Definition quoted (s : string) : str := dq :: lit s ++ [dq].

(** The value of a string of decimal digits. *)
Fixpoint digits_value (acc : Z) (s : str) : option Z :=
  match s with
  | [] => Some acc
  | c :: r =>
      if isdigit c
      then digits_value (10 * acc + Z.of_N (N_of_ascii c) - 48)%Z r
      else None
  end.

(** [float(s)], restricted to what the examples need: a non-empty string
    of digits converts to its value, the empty string and strings without
    a digit raise. *)
Definition float_of_digits (s : str) : Result float :=
  match s with
  | [] => Raise (ValueError "could not convert string to float")
  | _ :: _ =>
      match digits_value 0 s with
      | Some z => float_of_int z
      | None => Raise (ValueError "could not convert string to float")
      end
  end.

(** [Price.fromstring], restricted to what the examples need: no amount
    and no currency for a text without digits, the number for a text of
    digits. *)
Definition price_of_digits (s : str) : Price :=
  match s with
  | [] => mkPrice None None
  | _ :: _ =>
      match digits_value 0 s with
      | Some z => match float_of_int z with
                  | Ok f => mkPrice (Some f) None
                  | Raise _ => mkPrice None None
                  end
      | None => mkPrice None None
      end
  end.

(** A JSON-LD block with one offer of price -5:
    an object with @type Offer and price -5. *)
Definition ld_negative : str :=
  lit "{" ++ quoted "@type" ++ lit ": " ++ quoted "Offer" ++ lit ", "
  ++ quoted "price" ++ lit ": -5}".

Definition ld_negative_value : json :=
  JObj [ (lit "@type", JStr (lit "Offer")); (lit "price", JInt (-5)) ].

(** A JSON-LD block with two offers of the same price 5, named one and
    two, in pounds and in dollars. *)
Definition ld_pair : str :=
  lit "[{" ++ quoted "@type" ++ lit ": " ++ quoted "Offer" ++ lit ", "
  ++ quoted "name" ++ lit ": " ++ quoted "one" ++ lit ", "
  ++ quoted "price" ++ lit ": 5, "
  ++ quoted "priceCurrency" ++ lit ": " ++ quoted "GBP" ++ lit "}, {"
  ++ quoted "@type" ++ lit ": " ++ quoted "Offer" ++ lit ", "
  ++ quoted "name" ++ lit ": " ++ quoted "two" ++ lit ", "
  ++ quoted "price" ++ lit ": 5, "
  ++ quoted "priceCurrency" ++ lit ": " ++ quoted "USD" ++ lit "}]".

Definition ld_pair_value : json :=
  JArr [ JObj [ (lit "@type", JStr (lit "Offer")); (lit "name", JStr (lit "one"));
                (lit "price", JInt 5); (lit "priceCurrency", JStr (lit "GBP")) ];
         JObj [ (lit "@type", JStr (lit "Offer")); (lit "name", JStr (lit "two"));
                (lit "price", JInt 5); (lit "priceCurrency", JStr (lit "USD")) ] ].

(** A JSON-LD block with a product named drill and its one offer of
    price 5. *)
Definition ld_product : str :=
  lit "{" ++ quoted "@type" ++ lit ": " ++ quoted "Product" ++ lit ", "
  ++ quoted "name" ++ lit ": " ++ quoted "drill" ++ lit ", "
  ++ quoted "offers" ++ lit ": {"
  ++ quoted "@type" ++ lit ": " ++ quoted "Offer" ++ lit ", "
  ++ quoted "price" ++ lit ": 5}}".

Definition ld_product_value : json :=
  JObj [ (lit "@type", JStr (lit "Product")); (lit "name", JStr (lit "drill"));
         (lit "offers",
          JObj [ (lit "@type", JStr (lit "Offer")); (lit "price", JInt 5) ]) ].

(** [json.loads] on the three blocks above; any other text is taken as
    malformed. *)
Definition loads (s : str) : Result json :=
  if str_eqb s ld_negative then Ok ld_negative_value
  else if str_eqb s ld_pair then Ok ld_pair_value
  else if str_eqb s ld_product then Ok ld_product_value
  else Raise (ValueError "Expecting value").

(** A script element with the given text. *)
Definition script (body : str) : Tag :=
  mkTag (fun _ => body) None (fun _ => Ok None).

(** A page that consists of one JSON-LD script element, whose text is the
    body of the response; no selector matches anything else. *)
Definition page (html : str) : Soup :=
  mkSoup (fun _ => Ok []) [script html].

(** A world in which every URL answers with the body [body]. *)
Definition lib (body : str) : Lib :=
  {| float_of_str := float_of_digits;
     Price_fromstring := price_of_digits;
     json_loads := loads;
     urljoin_str := fun _ u => Ok u;
     requests_get := fun _ _ _ => Ok (mkResponse (Ok tt) body);
     BeautifulSoup := page |}.

Definition site (template : string) : SiteConfig :=
  mkSiteConfig (lit "Shop") (lit template) [] [] [] [] [] 10.

Definition row (nm template : string) : Row :=
  mkRow (lit nm) (lit template) [] [] [] [] [] None.

(** The sort that places an offer after the offers of the same price
    that follow it: ascending, NaN last, ties reversed. *)
Fixpoint insert_after_ties (x : FoundOffer) (l : list FoundOffer)
  : list FoundOffer :=
  match l with
  | [] => [x]
  | y :: r =>
      if PrimFloat.ltb (fval (price x)) (fval (price y))
      then x :: l else y :: insert_after_ties x r
  end.

Definition sort_ties_reversed (l : list FoundOffer) : list FoundOffer :=
  fold_right insert_after_ties [] (filter numeric l)
  ++ filter price_is_nan l.

(** The offers of a script element whose text is not JSON. *)
Definition script_offers_probe : list FoundOffer :=
  script_offers (lib []) [] (script (lit "not json")).

End Demo.


(* ================================================================== *)
(** * Further notions used to state properties of the code *)
(* ================================================================== *)

(** The character is not whitespace. *)
Definition visible (c : ascii) : bool := negb (isspace c).

(** [x] occurs in [v]: it is [v], or it occurs in an item of the list
    [v] or in a value of the dict [v]. *)
Inductive Nested : json -> json -> Prop :=
| nested_here v : Nested v v
| nested_item x v items : In v items -> Nested x v -> Nested x (JArr items)
| nested_member x k v members :
    In (k, v) members -> Nested x v -> Nested x (JObj members).

(** A dict whose [@type] is [Product], [Offer] or [AggregateOffer]. *)
Definition typed_offer_object (v : json) : bool :=
  match v with
  | JObj members => has_offer_type members
  | _ => false
  end.

(** [v] can be hashed: it is neither a list nor a dict. *)
Definition hashable (v : json) : bool :=
  match v with
  | JArr _ | JObj _ => false
  | _ => true
  end.

(** The offer was built from a card of the page (lines 196-205). *)
Definition from_card (L : Lib) (query : str) (cfg : SiteConfig)
    (o : FoundOffer) : Prop :=
  exists u c, card_offer L query cfg u c = Ok (Some o).

(** The offer was built by [_offers_from_offer_obj] from an offer object
    and a normalised title (lines 140-149). *)
Definition from_offer_obj (L : Lib) (o : FoundOffer) : Prop :=
  exists offer title0 base_url r,
    normalize_space title0 = title0
    /\ _offers_from_offer_obj L offer title0 base_url = Ok r
    /\ In o r.

(** The offer was built from an offer object of a JSON-LD block and then
    tagged (lines 209-212). *)
Definition from_jsonld (L : Lib) (query : str) (cfg : SiteConfig)
    (o : FoundOffer) : Prop :=
  exists o', o = tag_jsonld_offer query cfg o' /\ from_offer_obj L o'.

(** The offers of the JSON-LD blocks of a page, tagged: what
    [scrape_site] finds when the selectors give nothing. *)
Definition jsonld_found (L : Lib) (query : str) (cfg : SiteConfig)
    (search_url html : str) : list FoundOffer :=
  map (tag_jsonld_offer query cfg)
      (flat_map (script_offers L search_url)
                (select_ld_json (BeautifulSoup L html))).

(** The offers and the error entries one row adds. *)
Definition row_offers (L : Lib) (query : str) (timeout : Z) (delay : float)
    (row : Row) : list FoundOffer :=
  match scrape_row L query timeout delay row with
  | Ok l => l
  | Raise _ => []
  end.

Definition row_errors (L : Lib) (query : str) (timeout : Z) (delay : float)
    (row : Row) : list str :=
  match scrape_row L query timeout delay row with
  | Ok _ => []
  | Raise e => [error_entry row e]
  end.

(** [best = df.iloc[0]] (line 322): the first row of the table shown. *)
Definition best (o : Outcome) : option FoundOffer :=
  match o with
  | Shown (b :: _) _ => Some b
  | _ => None
  end.

(* ================================================================== *)
(** * The fields url, price and currency, compared one by one *)
(* ================================================================== *)

(** The value of a JSON number ([bool] is a number in Python), [None]
    for a NaN and for anything that is not a number. *)
Definition num_of (v : json) : option numval :=
  match v with
  | JBool b => Some (numval_of_Z (if b then 1 else 0))
  | JInt z => Some (numval_of_Z z)
  | JFloat f => numval_of_float f
  | _ => None
  end.

(** [a is b or a == b] for two values of a document that can be hashed:
    [None] equals [None], strings are equal when they have the same
    text, numbers when they have the same value (floats by the IEEE
    comparison, so a NaN equals nothing), and the decoder's NaN object is
    itself. Lists and dicts are never compared: hashing them raises. *)
Definition py_eq (a b : json) : bool :=
  match a, b with
  | JNull, JNull => true
  | JStr s, JStr t => str_eqb s t
  | JNaN, JNaN => true
  | JFloat f, JFloat g => PrimFloat.eqb f g
  | _, _ => match num_of a, num_of b with
            | Some x, Some y => numval_eqb x y
            | _, _ => false
            end
  end.

(** The same for the [price] field: two floats by the IEEE comparison,
    the decoder's NaN object equal to itself only. *)
Definition price_eq (p q : pyfloat) : bool :=
  match p, q with
  | Fl f, Fl g => PrimFloat.eqb f g
  | JsonNaN, JsonNaN => true
  | _, _ => false
  end.

(** Two offers share the triple (url, price, currency): the fields
    [url], [price] and [currency] of the one equal those of the other. *)
Definition same_fields (x y : FoundOffer) : bool :=
  py_eq (url x) (url y) && price_eq (price x) (price y)
  && py_eq (currency x) (currency y).

(** "First occurrence wins, order otherwise preserved", over the fields:
    an offer is kept exactly when no offer before it has an equal url, an
    equal price and an equal currency. [earlier] are the offers already
    passed. *)
Fixpoint first_seen (earlier l : list FoundOffer) : list FoundOffer :=
  match l with
  | [] => []
  | x :: r =>
      (if existsb (fun y => same_fields y x) earlier then [] else [x])
      ++ first_seen (earlier ++ [x]) r
  end.

(** The value is a float NaN other than the decoder's object. *)
Definition nan_json (v : json) : bool :=
  match v with
  | JFloat f => PrimFloat.is_nan f
  | _ => false
  end.

(** One of the three fields of the offer is a NaN other than the
    decoder's object; such a field is equal to nothing, itself included. *)
Definition nan_field (x : FoundOffer) : bool :=
  match price x with
  | Fl f => PrimFloat.is_nan f
  | JsonNaN => false
  end
  || nan_json (url x) || nan_json (currency x).

(* ================================================================== *)
(** * The prices on a page *)
(* ================================================================== *)

(** The offer objects [_extract_offers_from_jsonld_node] hands to
    [_offers_from_offer_obj] for one walked dict (lines 110-122): the
    dict itself when it is an Offer or an AggregateOffer, the dict or the
    dicts under [offers] when it is a Product. *)
Definition offer_objects (obj : json) : list (list (str * json)) :=
  match obj with
  | JObj members =>
      let t := dict_get members (lit "@type") in
      if is_str t (lit "Product") then
        match dict_get members (lit "offers") with
        | JObj oo => [oo]
        | JArr l => flat_map (fun oo => match oo with
                                        | JObj m => [m]
                                        | _ => []
                                        end) l
        | _ => []
        end
      else if is_str t (lit "Offer") || is_str t (lit "AggregateOffer")
      then [members]
      else []
  | _ => []
  end.

(** The offer objects of one script element: those of the dicts walked
    in the nodes of its text, none when the text is not JSON. *)
Definition script_offer_objects (L : Lib) (sc : Tag) : list (list (str * json)) :=
  match json_loads L (get_text sc []) with
  | Ok data =>
      flat_map (fun node => flat_map offer_objects (walk node)) (top_nodes data)
  | Raise _ => []
  end.

(** The offer objects of the JSON-LD blocks of a page. *)
Definition page_offer_objects (L : Lib) (soup : Soup) : list (list (str * json)) :=
  flat_map (script_offer_objects L) (select_ld_json soup).

(** The cards of the page that [scrape_site] looks at: those the card
    selector matches, up to [max_results]. *)
Definition page_cards (L : Lib) (cfg : SiteConfig) (html : str)
  : Result (list Tag) :=
  cards <- match card_selector cfg with
           | [] => Ok []
           | _ :: _ => select (BeautifulSoup L html) (card_selector cfg)
           end ;;
  Ok (slice_to cards (max_results cfg)).

(** The offer was built from one of the given cards, and its price is
    the amount [parse_price] read in the price text of that card. *)
Definition priced_by_card (L : Lib) (query : str) (cfg : SiteConfig)
    (search_url : str) (cards : list Tag) (o : FoundOffer) : Prop :=
  exists c price_text a cur,
    In c cards
    /\ select_text c (price_selector cfg) = Ok price_text
    /\ parse_price L price_text = Ok (Some a, cur)
    /\ card_offer L query cfg search_url c = Ok (Some o)
    /\ price o = Fl a.

(** The offer was built from one of the given offer objects, and its
    price is the float that the [price] (or [lowPrice]) value of that
    object converted to. *)
Definition priced_by_offer_object (L : Lib) (query : str) (cfg : SiteConfig)
    (search_url : str) (objects : list (list (str * json))) (o : FoundOffer)
  : Prop :=
  exists offer title0 o',
    In offer objects
    /\ _offers_from_offer_obj L offer title0 search_url = Ok [o']
    /\ o = tag_jsonld_offer query cfg o'
    /\ price_field offer <> JNull
    /\ py_float L (price_field offer) = Ok (price o).

(** The price text of the card gives no amount. *)
Definition card_unpriced (L : Lib) (cfg : SiteConfig) (c : Tag) : Prop :=
  exists price_text cur,
    select_text c (price_selector cfg) = Ok price_text
    /\ parse_price L price_text = Ok (None, cur).

(** [x] comes before [y] in [l]. *)
Definition Before (x y : FoundOffer) (l : list FoundOffer) : Prop :=
  exists l1 l2 l3, l = l1 ++ x :: l2 ++ y :: l3.

(** The price of [x] is below that of [y]. *)
Definition cheaper (x y : FoundOffer) : bool :=
  PrimFloat.ltb (fval (price x)) (fval (price y)).

(* ================================================================== *)
(** * More concrete pages for the examples *)
(* ================================================================== *)

(** A shop whose result page has four cards, and one JSON-LD block whose
    text is the body of the response. *)
Module DemoShop.

(** An element with the given text and nothing inside. *)
Definition text_tag (s : str) : Tag :=
  mkTag (fun _ => s) None (fun _ => Ok None).

(** A link to [h]. *)
Definition link_tag (h : str) : Tag :=
  mkTag (fun _ => []) (Some h) (fun _ => Ok None).

(** A card with a title element of class title, a price element of
    class price and a link. *)
Definition card (t p h : string) : Tag :=
  mkTag (fun _ => lit t ++ lit " " ++ lit p) None
        (fun sel =>
           if str_eqb sel (lit ".title") then Ok (Some (text_tag (lit t)))
           else if str_eqb sel (lit ".price") then Ok (Some (text_tag (lit p)))
           else if str_eqb sel (lit "a") then Ok (Some (link_tag (lit h)))
           else Ok None).

Definition cards : list Tag :=
  [ card "Bosch drill" "49" "https://example.com/p/1";
    card "Makita drill" "12" "https://example.com/p/2";
    card "Hand drill" "7" "https://example.com/p/3";
    card "Drill stand" "call us" "https://example.com/p/4" ].

Definition page (html : str) : Soup :=
  mkSoup (fun sel => if str_eqb sel (lit ".product-card") then Ok cards
                     else Ok [])
         [Demo.script html].

(** A world in which every URL answers with the body [body]. *)
Definition lib (body : str) : Lib :=
  {| float_of_str := Demo.float_of_digits;
     Price_fromstring := Demo.price_of_digits;
     json_loads := Demo.loads;
     urljoin_str := fun _ u => Ok u;
     requests_get := fun _ _ _ => Ok (mkResponse (Ok tt) body);
     BeautifulSoup := page |}.

(** The configuration of the default row of the table of sites, with
    the limit [n]. *)
Definition config (n : Z) : SiteConfig :=
  mkSiteConfig (lit "Shop") (lit "https://example.com/s?q={query}")
               (lit ".product-card") (lit ".title") (lit ".price") (lit "a")
               (lit "GBP") n.

(** The offer built from a card. *)
Definition found (t : string) (p : float) (h : string) : FoundOffer :=
  {| site := lit "Shop"; title := lit t; price := Fl p;
     currency := JStr (lit "GBP"); url := JStr (lit h); matched := true |}.

End DemoShop.

(** A page with four JSON-LD offers of the prices 10, 10, 5 and 5. *)
Module DemoTies.

(** The text of an offer object with a name, a price and a currency. *)
Definition offer_text (nm p cur : string) : str :=
  lit "{" ++ Demo.quoted "@type" ++ lit ": " ++ Demo.quoted "Offer" ++ lit ", "
  ++ Demo.quoted "name" ++ lit ": " ++ Demo.quoted nm ++ lit ", "
  ++ Demo.quoted "price" ++ lit ": " ++ lit p ++ lit ", "
  ++ Demo.quoted "priceCurrency" ++ lit ": " ++ Demo.quoted cur ++ lit "}".

Definition offer_value (nm : string) (p : Z) (cur : string) : json :=
  JObj [ (lit "@type", JStr (lit "Offer")); (lit "name", JStr (lit nm));
         (lit "price", JInt p); (lit "priceCurrency", JStr (lit cur)) ].

Definition ld_four : str :=
  lit "[" ++ offer_text "drill a" "10" "GBP" ++ lit ", "
  ++ offer_text "drill b" "10" "USD" ++ lit ", "
  ++ offer_text "drill c" "5" "GBP" ++ lit ", "
  ++ offer_text "drill d" "5" "USD" ++ lit "]".

Definition ld_four_value : json :=
  JArr [ offer_value "drill a" 10 "GBP"; offer_value "drill b" 10 "USD";
         offer_value "drill c" 5 "GBP"; offer_value "drill d" 5 "USD" ].

(** [json.loads] on the block above; any other text is taken as
    malformed. *)
Definition loads (s : str) : Result json :=
  if str_eqb s ld_four then Ok ld_four_value
  else Raise (ValueError "Expecting value").

(** A world in which every URL answers with the block above as the one
    JSON-LD script element of the page. *)
Definition lib : Lib :=
  {| float_of_str := Demo.float_of_digits;
     Price_fromstring := Demo.price_of_digits;
     json_loads := loads;
     urljoin_str := fun _ u => Ok u;
     requests_get := fun _ _ _ => Ok (mkResponse (Ok tt) ld_four);
     BeautifulSoup := Demo.page |}.

(** The offer found for one of the four objects, for the query drill. *)
Definition found (nm : string) (p : float) (cur : string) : FoundOffer :=
  {| site := lit "Shop"; title := lit nm; price := Fl p;
     currency := JStr (lit cur);
     url := JStr (lit "https://example.com/s?q=drill"); matched := true |}.

End DemoTies.

(** A page with two JSON-LD offers whose price is the string nan. *)
Module DemoNaN.

Definition offer_text : str :=
  lit "{" ++ Demo.quoted "@type" ++ lit ": " ++ Demo.quoted "Offer" ++ lit ", "
  ++ Demo.quoted "name" ++ lit ": " ++ Demo.quoted "drill" ++ lit ", "
  ++ Demo.quoted "price" ++ lit ": " ++ Demo.quoted "nan" ++ lit "}".

Definition offer_value : json :=
  JObj [ (lit "@type", JStr (lit "Offer")); (lit "name", JStr (lit "drill"));
         (lit "price", JStr (lit "nan")) ].

Definition ld_nan : str := lit "[" ++ offer_text ++ lit ", " ++ offer_text ++ lit "]".

Definition ld_nan_value : json := JArr [offer_value; offer_value].

Definition loads (s : str) : Result json :=
  if str_eqb s ld_nan then Ok ld_nan_value
  else Raise (ValueError "Expecting value").

(** [float(s)]: the string nan converts to a NaN, a fresh float object
    at every call; other strings as in [Demo]. *)
Definition float_of_text (s : str) : Result float :=
  if str_eqb s (lit "nan") then Ok nan else Demo.float_of_digits s.

Definition lib : Lib :=
  {| float_of_str := float_of_text;
     Price_fromstring := Demo.price_of_digits;
     json_loads := loads;
     urljoin_str := fun _ u => Ok u;
     requests_get := fun _ _ _ => Ok (mkResponse (Ok tt) ld_nan);
     BeautifulSoup := Demo.page |}.

End DemoNaN.

(* ================================================================== *)
(** * Facts about the string helpers *)
(* ================================================================== *)

Module PyStrFacts.

Lemma isspace_space : isspace " "%char = true.
Proof. reflexivity. Qed.

Lemma isspace_lower_char c : isspace (lower_char c) = isspace c.
Proof. destruct c as [[] [] [] [] [] [] [] []]; reflexivity. Qed.

Lemma chr_eqb_eq a b : chr_eqb a b = true <-> a = b.
Proof. apply Ascii.eqb_eq. Qed.

Lemma chr_eqb_refl a : chr_eqb a a = true.
Proof. apply chr_eqb_eq; reflexivity. Qed.

Lemma str_eqb_eq a : forall b, str_eqb a b = true <-> a = b.
Proof.
  induction a as [|x a IH]; intros [|y b]; simpl; split; try easy.
  - rewrite andb_true_iff, chr_eqb_eq, IH. now intros [-> ->].
  - intros H; injection H as -> ->.
    rewrite chr_eqb_refl. now apply IH.
Qed.

Lemma str_eqb_refl a : str_eqb a a = true.
Proof. now apply str_eqb_eq. Qed.

(** ** [lstrip], [rstrip] *)

Lemma lstrip_no_lead s : no_lead (lstrip s) = true.
Proof.
  induction s as [|c r IH]; simpl; auto.
  destruct (isspace c) eqn:E; simpl; auto. now rewrite E.
Qed.

Lemma no_lead_lstrip s : no_lead s = true -> lstrip s = s.
Proof. destruct s as [|c r]; simpl; auto. now destruct (isspace c). Qed.

Lemma rstrip_no_trail s : no_trail (rstrip s) = true.
Proof.
  induction s as [|c r IH]; simpl; auto.
  destruct (rstrip r) as [|d r'] eqn:E.
  - destruct (isspace c) eqn:Ec; simpl; auto. now rewrite Ec.
  - exact IH.
Qed.

Lemma no_trail_rstrip s : no_trail s = true -> rstrip s = s.
Proof.
  induction s as [|c r IH]; simpl; auto.
  destruct r as [|d r'].
  - simpl. now destruct (isspace c).
  - intros H. rewrite (IH H). reflexivity.
Qed.

Lemma rstrip_nil_iff s : rstrip s = [] <-> all_space s = true.
Proof.
  induction s as [|c r IH]; simpl; [easy|].
  destruct (rstrip r) as [|d r'] eqn:E.
  - destruct (isspace c); simpl; split; try easy. now apply IH.
  - split; [easy|]. rewrite andb_true_iff. intros [_ H].
    apply IH in H. discriminate.
Qed.

Lemma rstrip_no_lead s : no_lead s = true -> no_lead (rstrip s) = true.
Proof.
  destruct s as [|c r]; simpl; auto.
  destruct (isspace c) eqn:E; [discriminate|]. intros _.
  destruct (rstrip r); simpl; now rewrite E.
Qed.

Lemma strip_no_lead s : no_lead (strip s) = true.
Proof. apply rstrip_no_lead, lstrip_no_lead. Qed.

Lemma strip_no_trail s : no_trail (strip s) = true.
Proof. apply rstrip_no_trail. Qed.

Lemma strip_fixed s :
  no_lead s = true -> no_trail s = true -> strip s = s.
Proof.
  intros H1 H2. unfold strip. rewrite (no_lead_lstrip _ H1).
  now apply no_trail_rstrip.
Qed.

Lemma lstrip_all_space_app w s : all_space w = true -> lstrip (w ++ s) = lstrip s.
Proof.
  induction w as [|c w IH]; simpl; auto.
  rewrite andb_true_iff. intros [-> H]. auto.
Qed.

Lemma rstrip_app_all_space s w : all_space w = true -> rstrip (s ++ w) = rstrip s.
Proof.
  intros Hw. induction s as [|c r IH]; simpl.
  - now apply rstrip_nil_iff.
  - now rewrite IH.
Qed.

Lemma lstrip_app_keep s t : all_space s = false -> lstrip (s ++ t) = lstrip s ++ t.
Proof.
  induction s as [|c r IH]; simpl; [easy|].
  destruct (isspace c); simpl; auto.
Qed.

(** ** [sub_ws] *)

Lemma sub_ws_true_lstrip s : sub_ws true s = sub_ws false (lstrip s).
Proof.
  induction s as [|c r IH]; simpl; auto.
  destruct (isspace c) eqn:E; auto. simpl. now rewrite E.
Qed.

Lemma sub_ws_idem s :
  (forall b, sub_ws false (sub_ws b s) = sub_ws b s)
  /\ sub_ws true (sub_ws true s) = sub_ws true s.
Proof.
  induction s as [|c r [IH1 IH2]]; simpl; [now split|].
  destruct (isspace c) eqn:E; split; try intros []; simpl;
    rewrite ?isspace_space, ?E, ?IH1, ?IH2; auto.
Qed.

Lemma sub_ws_keeps_no_lead s :
  no_lead s = true -> no_lead (sub_ws false s) = true.
Proof.
  destruct s as [|c r]; simpl; auto.
  destruct (isspace c) eqn:E; simpl; [easy|]. now rewrite E.
Qed.

Lemma sub_ws_nonempty b s :
  s <> [] -> no_trail s = true -> sub_ws b s <> [].
Proof.
  revert b; induction s as [|c r IH]; intros b Hne Ht; [easy|].
  simpl in *. destruct r as [|d r'].
  - destruct (isspace c); [discriminate|]. simpl. discriminate.
  - destruct (isspace c); [destruct b|]; try discriminate.
    apply IH; [discriminate|assumption].
Qed.

Lemma sub_ws_keeps_no_trail s :
  forall b, no_trail s = true -> no_trail (sub_ws b s) = true.
Proof.
  induction s as [|c r IH]; intros b Ht; simpl; auto.
  destruct r as [|d r'].
  - simpl in Ht. destruct (isspace c) eqn:E; [discriminate|].
    simpl. now rewrite E.
  - assert (Hne : forall b', sub_ws b' (d :: r') <> [])
      by (intros b'; apply sub_ws_nonempty; [discriminate|exact Ht]).
    destruct (isspace c); [destruct b|].
    + now apply IH.
    + specialize (IH true Ht). specialize (Hne true).
      change (no_trail (" "%char :: sub_ws true (d :: r')) = true).
      destruct (sub_ws true (d :: r')); [easy|exact IH].
    + specialize (IH false Ht). specialize (Hne false).
      change (no_trail (c :: sub_ws false (d :: r')) = true).
      destruct (sub_ws false (d :: r')); [easy|exact IH].
Qed.

Lemma sub_ws_no_double s : forall b, no_double b (sub_ws b s) = true.
Proof.
  induction s as [|c r IH]; intros b; simpl; auto.
  destruct (isspace c) eqn:E; [destruct b|]; simpl;
    rewrite ?isspace_space, ?E; simpl; auto.
Qed.

Lemma no_double_split prev s a c1 c2 b :
  no_double prev s = true -> s = a ++ c1 :: c2 :: b ->
  isspace c1 = true -> isspace c2 = false.
Proof.
  revert prev s. induction a as [|x a IH]; intros prev s H -> Hc1; simpl in H.
  - rewrite Hc1 in H. apply andb_true_iff in H as [_ H].
    destruct (isspace c2); [discriminate|reflexivity].
  - destruct (isspace x).
    + apply andb_true_iff in H as [_ H]. eapply IH; eauto.
    + eapply IH; eauto.
Qed.

Lemma no_trail_last s r c : no_trail s = true -> s = r ++ [c] -> isspace c = false.
Proof.
  revert s. induction r as [|x r IH]; intros s H ->; simpl in H.
  - now apply negb_true_iff.
  - destruct (r ++ [c]) eqn:E; [now destruct r|]. rewrite <- E in H.
    eapply IH; eauto.
Qed.

(** ** [normalize_space] *)

Lemma normalize_space_no_lead s : no_lead (normalize_space s) = true.
Proof. apply sub_ws_keeps_no_lead, strip_no_lead. Qed.

Lemma normalize_space_no_trail s : no_trail (normalize_space s) = true.
Proof. apply sub_ws_keeps_no_trail, strip_no_trail. Qed.

Lemma normalize_space_idem s :
  normalize_space (normalize_space s) = normalize_space s.
Proof.
  unfold normalize_space at 1.
  rewrite strip_fixed
    by (apply normalize_space_no_lead || apply normalize_space_no_trail).
  unfold normalize_space, re_sub_ws_space. apply sub_ws_idem.
Qed.

End PyStrFacts.
Import PyStrFacts.

(* ================================================================== *)
(** * [normalize_space] and [wildcard_match] *)
(* ================================================================== *)

Section Normalisation.

Lemma startswith_iff s : forall p,
  startswith s p = true <-> exists b, s = p ++ b.
Proof.
  induction s as [|y s IH]; intros [|x p]; simpl.
  - split; [now exists []|easy].
  - split; [easy|]. now intros [b H].
  - split; [now exists (y :: s)|easy].
  - rewrite andb_true_iff, chr_eqb_eq, IH. split.
    + intros [-> [b ->]]. now exists b.
    + intros [b H]. injection H as -> ->. split; eauto.
Qed.

Lemma contains_iff s : forall p, contains s p = true <-> Substring p s.
Proof.
  unfold Substring.
  induction s as [|y s IH]; intros p; cbn [contains]; rewrite orb_true_iff.
  - rewrite startswith_iff. split.
    + intros [[b H]|H]; [|easy]. exists [], b. exact H.
    + intros (a & b & H). left.
      destruct a; [|easy]. simpl in H. eauto.
  - rewrite startswith_iff, IH. split.
    + intros [[b H]|(a & b & H)].
      * now exists [], b.
      * exists (y :: a), b. now rewrite H.
    + intros (a & b & H). destruct a as [|z a]; simpl in H.
      * left; eauto.
      * right. injection H as _ H. eauto.
Qed.

Lemma lower_lstrip s : lower (lstrip s) = lstrip (lower s).
Proof.
  induction s as [|c r IH]; simpl; auto.
  rewrite isspace_lower_char. now destruct (isspace c).
Qed.

Lemma lower_rstrip s : lower (rstrip s) = rstrip (lower s).
Proof.
  induction s as [|c r IH]; simpl; auto.
  rewrite <- IH, isspace_lower_char.
  destruct (rstrip r); simpl; auto. now destruct (isspace c).
Qed.

Lemma lower_sub_ws s : forall b, lower (sub_ws b s) = sub_ws b (lower s).
Proof.
  induction s as [|c r IH]; intros b; simpl; auto.
  rewrite isspace_lower_char.
  destruct (isspace c); [destruct b|]; simpl; now rewrite ?IH.
Qed.

Lemma lower_normalize_space s :
  lower (normalize_space s) = normalize_space (lower s).
Proof.
  unfold normalize_space, re_sub_ws_space, strip.
  now rewrite lower_sub_ws, lower_rstrip, lower_lstrip.
Qed.

Lemma lstrip_sub_ws s : lstrip (sub_ws false s) = sub_ws false (lstrip s).
Proof.
  destruct s as [|c r]; simpl; auto.
  destruct (isspace c) eqn:E; simpl; rewrite ?isspace_space, ?E; auto.
  rewrite sub_ws_true_lstrip. apply no_lead_lstrip.
  apply sub_ws_keeps_no_lead, lstrip_no_lead.
Qed.

Lemma rstrip_sub_ws s : forall b, rstrip (sub_ws b s) = sub_ws b (rstrip s).
Proof.
  induction s as [|c r IH]; intros b; simpl; auto.
  assert (Hne : forall b', rstrip r <> [] -> sub_ws b' (rstrip r) <> []).
  { intros b' H. apply sub_ws_nonempty; [exact H|apply rstrip_no_trail]. }
  destruct (isspace c) eqn:E; [destruct b|]; simpl; rewrite ?isspace_space, IH.
  - destruct (rstrip r) eqn:Er; simpl; rewrite ?E; auto.
  - destruct (rstrip r) as [|d r'] eqn:Er; simpl; rewrite ?E; auto.
    specialize (Hne true ltac:(discriminate)). simpl in Hne.
    destruct (isspace d); [|reflexivity].
    destruct (sub_ws true r'); [contradiction|reflexivity].
  - destruct (rstrip r) as [|d r'] eqn:Er; simpl; rewrite ?E; auto.
    specialize (Hne false ltac:(discriminate)). simpl in Hne.
    destruct (if isspace d then _ else _); [contradiction|reflexivity].
Qed.

(** Trimming and collapsing commute: the order "collapse, trim" of the
    specification gives what the order "trim, collapse" of the code gives. *)
Lemma strip_collapse_commute s :
  strip (re_sub_ws_space s) = normalize_space s.
Proof.
  unfold normalize_space, re_sub_ws_space, strip.
  now rewrite lstrip_sub_ws, rstrip_sub_ws.
Qed.

Lemma spec_normalize_eq s : spec_normalize s = lower (normalize_space s).
Proof. unfold spec_normalize. now rewrite strip_collapse_commute. Qed.

Lemma sub_ws_app a : forall b x,
  sub_ws b (a ++ x) = sub_ws b a ++ sub_ws (flag_after b a) x.
Proof.
  induction a as [|c r IH]; intros b x; simpl; auto.
  destruct (isspace c); [destruct b|]; simpl; now rewrite IH.
Qed.

Lemma sub_ws_run w : forall f x,
  w <> [] -> all_space w = true ->
  sub_ws f (w ++ x) = (if f then [] else [" "%char]) ++ sub_ws true x.
Proof.
  induction w as [|c w IH]; intros f x Hne Hw; [easy|].
  simpl in *. apply andb_true_iff in Hw as [-> Hw].
  destruct w as [|d w'].
  - now destruct f.
  - rewrite (IH true x) by easy. now destruct f.
Qed.

Lemma lstrip_all_space w : all_space w = true -> lstrip w = [].
Proof.
  induction w as [|c w IH]; simpl; auto.
  rewrite andb_true_iff. intros [-> H]. exact (IH H).
Qed.

Lemma strip_pad w w' s :
  all_space w = true -> all_space w' = true -> strip (w ++ s ++ w') = strip s.
Proof.
  intros Hw Hw'. unfold strip. rewrite lstrip_all_space_app by assumption.
  destruct (all_space s) eqn:Es.
  - rewrite (lstrip_all_space s Es), lstrip_all_space; auto.
    unfold all_space in *. rewrite forallb_app. now rewrite Es, Hw'.
  - rewrite lstrip_app_keep by assumption. now apply rstrip_app_all_space.
Qed.

Lemma Altered_normal s s' :
  Altered s s' -> lower (normalize_space s) = lower (normalize_space s').
Proof.
  induction 1 as [s|s s' H|a w w' b Hn Hn' Hw Hw'|w w' s Hw Hw'
                  |s s' _ IH|s1 s2 s3 _ IH1 _ IH2].
  - reflexivity.
  - now rewrite !lower_normalize_space, H.
  - rewrite <- !strip_collapse_commute. unfold re_sub_ws_space.
    rewrite (sub_ws_app a false (w ++ b)), (sub_ws_app a false (w' ++ b)).
    rewrite !sub_ws_run by assumption. reflexivity.
  - unfold normalize_space. now rewrite strip_pad.
  - now symmetry.
  - now transitivity (lower (normalize_space s2)).
Qed.

End Normalisation.

(** C10. [normalize_space] is idempotent; its result neither starts nor
    ends with whitespace and has no two neighbouring whitespace
    characters; [wildcard_match] gives the same answer when either of its
    arguments is normalised beforehand. *)
Theorem normalize_space_idempotent (s : str) :
  normalize_space (normalize_space s) = normalize_space s
  /\ (forall c r, normalize_space s = c :: r -> isspace c = false)
  /\ (forall r c, normalize_space s = r ++ [c] -> isspace c = false)
  /\ (forall a c1 c2 b, normalize_space s = a ++ c1 :: c2 :: b ->
        isspace c1 = true -> isspace c2 = false)
  /\ (forall t, wildcard_match (normalize_space s) t = wildcard_match s t)
  /\ (forall q, wildcard_match q (normalize_space s) = wildcard_match q s).
Proof.
  repeat split.
  - apply normalize_space_idem.
  - intros c r H. pose proof (normalize_space_no_lead s) as L.
    rewrite H in L. now apply negb_true_iff.
  - intros r c H. eapply no_trail_last; [apply normalize_space_no_trail|exact H].
  - intros a c1 c2 b H. eapply no_double_split; [|exact H].
    apply sub_ws_no_double.
  - intros t. unfold wildcard_match. now rewrite normalize_space_idem.
  - intros q. unfold wildcard_match. now rewrite normalize_space_idem.
Qed.

Lemma normalize_space_idempotent_witness :
  isspace "a"%char = false /\ isspace "b"%char = false.
Proof.
  pose proof (normalize_space_idempotent (lit "  a   b ")) as (_ & H1 & H2 & H3 & _).
  split.
  - exact (H1 "a"%char (lit " b") eq_refl).
  - exact (H3 [ "a"%char ] " "%char "b"%char [] eq_refl eq_refl).
Defined.

(** C6. [wildcard_match query text] holds exactly when the normalised
    query (whitespace collapsed, trimmed, lowercased) is a substring of
    the normalised text; so the answer does not change when letter case or
    whitespace runs are altered in either argument. The two examples of
    the specification are included. *)
Theorem wildcard_match_substring (query text : str) :
  (wildcard_match query text = true
   <-> Substring (spec_normalize query) (spec_normalize text))
  /\ (forall q' t', Altered query q' -> Altered text t' ->
        wildcard_match q' t' = wildcard_match query text)
  /\ wildcard_match (lit "drill") (lit "  BOSCH   Drill  18V") = true
  /\ wildcard_match (lit "saw") (lit "drill") = false.
Proof.
  repeat split.
  - unfold wildcard_match. rewrite !spec_normalize_eq. apply contains_iff.
  - unfold wildcard_match. rewrite !spec_normalize_eq. apply contains_iff.
  - intros q' t' Hq Ht. unfold wildcard_match.
    now rewrite (Altered_normal Hq), (Altered_normal Ht).
Qed.

Lemma wildcard_match_substring_witness :
  wildcard_match (lit "  dRILL ") (lit "BOSCH  drill")
  = wildcard_match (lit "drill") (lit "bosch drill").
Proof.
  apply (proj1 (proj2 (wildcard_match_substring (lit "drill") (lit "bosch drill")))).
  - apply alt_trans with (s2 := lit "dRILL").
    + apply alt_case. reflexivity.
    + apply (alt_pad (lit "  ") (lit " ") (lit "dRILL")); reflexivity.
  - apply alt_trans with (s2 := lit "BOSCH drill").
    + apply alt_case. reflexivity.
    + apply (alt_run (lit "BOSCH") (w := lit " ") (w' := lit "  ") (lit "drill"));
        (discriminate || reflexivity).
Defined.

(* ================================================================== *)
(** * [parse_price] *)
(* ================================================================== *)

Section ParsePrice.

Variable L : Lib.

Lemma startswith_nil (s : str) : startswith s [] = true.
Proof. now destruct s. Qed.

Lemma replace_char_filter (x : ascii) (s : str) :
  replace s [x] [] = filter (fun c => negb (chr_eqb c x)) s.
Proof.
  unfold replace. induction s as [|c r IH]; simpl; auto.
  rewrite startswith_nil, andb_true_r.
  replace (chr_eqb c x) with (chr_eqb x c)
    by (unfold chr_eqb; apply Ascii.eqb_sym).
  destruct (chr_eqb x c); simpl; now rewrite IH.
Qed.

Lemma re_sub_class_delete (cls : ascii -> bool) (s : str) :
  re_sub_class cls [] s = filter (fun c => negb (cls c)) s.
Proof.
  unfold re_sub_class. induction s as [|c r IH]; simpl; auto.
  destruct (cls c); simpl; now rewrite IH.
Qed.

Lemma cleaned_eq (s : str) :
  replace (re_sub_class PRICE_SANITIZE_RE [] s) (lit ",") [] = spec_cleaned s.
Proof.
  change (lit ",") with [","%char].
  rewrite replace_char_filter, re_sub_class_delete. unfold spec_cleaned.
  f_equal. apply filter_ext. intros c. unfold PRICE_SANITIZE_RE.
  apply negb_involutive.
Qed.

Lemma isspace_not_price_char c :
  isspace c = true ->
  (isdigit c || chr_eqb c "."%char || chr_eqb c ","%char) = false.
Proof. destruct c as [[] [] [] [] [] [] [] []]; simpl; intros H; easy. Qed.

Lemma spec_cleaned_blank (s : str) : all_space s = true -> spec_cleaned s = [].
Proof.
  unfold spec_cleaned. induction s as [|c r IH]; simpl; auto.
  rewrite andb_true_iff. intros [Hc Hr].
  rewrite (isspace_not_price_char _ Hc). auto.
Qed.

Lemma parse_price_unfold (text : str) :
  text <> [] ->
  parse_price L text =
  match amount (Price_fromstring L text) with
  | None =>
      match float_of_str L (spec_cleaned text) with
      | Ok f => Ok (Some f, None)
      | Raise _ => Ok (None, None)
      end
  | Some a => Ok (Some a, currency_of (Price_fromstring L text))
  end.
Proof.
  intros H. destruct text as [|c r]; [easy|].
  unfold parse_price. destruct (amount _); [reflexivity|].
  rewrite cleaned_eq. now destruct (float_of_str L _).
Qed.

End ParsePrice.

(** C7. [parse_price] returns [(None, None)] for the empty string and for
    every string of whitespace, and it raises for no input: it returns a
    pair, and a failure to parse shows as the pair [(None, None)]. For a
    non-empty string of whitespace the result rests on two facts about
    libraries: price_parser finds no amount in that string, and
    [float("")] raises. *)
Theorem parse_price_blank_and_total (L : Lib) (text : str) :
  parse_price L [] = Ok (None, None)
  /\ (all_space text = true ->
      amount (Price_fromstring L text) = None -> float_rejects_empty L ->
      parse_price L text = Ok (None, None))
  /\ (exists r, parse_price L text = Ok r
                /\ (fst r = None -> r = (None, None))).
Proof.
  split; [reflexivity|split].
  - intros Hs Hp [e He]. destruct text as [|c r] eqn:E; [reflexivity|].
    rewrite <- E in *. rewrite parse_price_unfold by (subst; discriminate).
    rewrite Hp, (spec_cleaned_blank _ Hs), He. reflexivity.
  - destruct text as [|c r] eqn:E; [now exists (None, None)|].
    rewrite <- E. rewrite parse_price_unfold by (subst; discriminate).
    destruct (amount _) as [a|].
    + eexists; split; [reflexivity|]. discriminate.
    + destruct (float_of_str L _) as [f|e].
      * eexists; split; [reflexivity|]. discriminate.
      * eexists; split; reflexivity.
Qed.

Lemma parse_price_blank_and_total_witness :
  parse_price (Demo.lib []) (lit "   ") = Ok (None, None).
Proof.
  apply (proj1 (proj2 (parse_price_blank_and_total (Demo.lib []) (lit "   ")))).
  - reflexivity.
  - reflexivity.
  - eexists. reflexivity.
Defined.

(** C8. When the locale-aware parse gives no amount for a non-empty
    text, [parse_price] returns the number read from the text stripped of
    every character but digits, [.] and [,] and then of its [,], with no
    currency; when that remainder is not a number it returns
    [(None, None)]. *)
Theorem parse_price_fallback (L : Lib) (text : str) :
  text <> [] ->
  amount (Price_fromstring L text) = None ->
  parse_price L text =
  match float_of_str L (spec_cleaned text) with
  | Ok f => Ok (Some f, None)
  | Raise _ => Ok (None, None)
  end.
Proof.
  intros Hne Ha. rewrite parse_price_unfold by assumption. now rewrite Ha.
Qed.

Lemma parse_price_fallback_witness :
  parse_price (Demo.lib []) (lit "call us") = Ok (None, None).
Proof.
  rewrite (parse_price_fallback (Demo.lib []) (text := lit "call us"));
    [reflexivity|discriminate|reflexivity].
Defined.

(* ================================================================== *)
(** * [extract_jsonld_offers] *)
(* ================================================================== *)

Section Loops.

Context {A B : Type}.

Lemma for_each_total (f : A -> Result (list B)) (g : A -> list B) (l : list A) :
  (forall a, In a l -> f a = Ok (g a)) -> for_each f l = Ok (flat_map g l).
Proof.
  induction l as [|a r IH]; intros H; simpl; auto.
  rewrite (H a (or_introl eq_refl)). simpl.
  rewrite IH by (intros; apply H; now right). reflexivity.
Qed.

Lemma for_each_In (f : A -> Result (list B)) (l : list A) (out : list B) (b : B) :
  for_each f l = Ok out -> In b out ->
  exists a r, In a l /\ f a = Ok r /\ In b r.
Proof.
  revert out. induction l as [|a r IH]; intros out H Hb; simpl in H.
  - injection H as <-. easy.
  - destruct (f a) as [x|e] eqn:Ef; simpl in H; [|discriminate].
    destruct (for_each f r) as [y|e] eqn:Er; simpl in H; [|discriminate].
    injection H as <-. apply in_app_or in Hb as [Hb|Hb].
    + exists a, x. auto with datatypes.
    + destruct (IH y eq_refl Hb) as (a' & r' & Ha & Hf & Hin).
      exists a', r'. auto with datatypes.
Qed.

End Loops.

Lemma offers_of_script_total (L : Lib) (base_url : str) (sc : Tag) :
  offers_of_script L base_url sc = Ok (script_offers L base_url sc).
Proof.
  unfold offers_of_script, script_offers.
  destruct (json_loads L (get_text sc [])) as [data|e]; simpl; auto.
  apply for_each_total. intros node _.
  now destruct (_extract_offers_from_jsonld_node L node base_url).
Qed.

Lemma extract_jsonld_offers_flat (L : Lib) (soup : Soup) (base_url : str) :
  extract_jsonld_offers L soup base_url
  = Ok (flat_map (script_offers L base_url) (select_ld_json soup)).
Proof.
  unfold extract_jsonld_offers. apply for_each_total.
  intros sc _. apply offers_of_script_total.
Qed.

(** C9. [extract_jsonld_offers] returns a list for every document and
    base URL and lets no exception through: its result is the offers of
    the script elements in order, where a block whose text does not parse
    gives none, and, inside a block, a top-level node whose extraction
    raises gives none, while the other blocks and nodes give theirs. *)
Theorem extract_jsonld_offers_total (L : Lib) (soup : Soup) (base_url : str) :
  (exists offers, extract_jsonld_offers L soup base_url = Ok offers)
  /\ extract_jsonld_offers L soup base_url
     = Ok (flat_map (script_offers L base_url) (select_ld_json soup))
  /\ (forall sc e, json_loads L (get_text sc []) = Raise e ->
        script_offers L base_url sc = [])
  /\ (forall sc data, json_loads L (get_text sc []) = Ok data ->
        script_offers L base_url sc
        = flat_map (fun node =>
                      match _extract_offers_from_jsonld_node L node base_url with
                      | Ok l => l
                      | Raise _ => []
                      end) (top_nodes data)).
Proof.
  pose proof (extract_jsonld_offers_flat L soup base_url) as E.
  repeat split.
  - eexists. exact E.
  - exact E.
  - intros sc e H. unfold script_offers. now rewrite H.
  - intros sc data H. unfold script_offers. now rewrite H.
Qed.

Lemma extract_jsonld_offers_total_witness :
  Demo.script_offers_probe = [].
Proof.
  exact (proj1 (proj2 (proj2 (extract_jsonld_offers_total
           (Demo.lib []) (Demo.page []) [])))
           (Demo.script (lit "not json")) _ eq_refl).
Defined.

(* ================================================================== *)
(** * The search URL *)
(* ================================================================== *)

Section SearchUrl.

Lemma flat_map_flat_map {A B C : Type} (f : A -> list B) (g : B -> list C) l :
  flat_map g (flat_map f l) = flat_map (fun a => flat_map g (f a)) l.
Proof.
  induction l as [|a r IH]; simpl; auto. now rewrite flat_map_app, IH.
Qed.

Lemma flat_map_ext_In {A B : Type} (f g : A -> list B) l :
  (forall a, In a l -> f a = g a) -> flat_map f l = flat_map g l.
Proof.
  induction l as [|a r IH]; intros H; simpl; auto.
  rewrite (H a) by now left. f_equal. apply IH. intros; apply H; now right.
Qed.

Lemma replace_char (x : ascii) (new s : str) :
  replace s [x] new = flat_map (fun c => if chr_eqb x c then new else [c]) s.
Proof.
  unfold replace. induction s as [|c r IH]; simpl; auto.
  rewrite startswith_nil, andb_true_r.
  destruct (chr_eqb x c); simpl; now rewrite IH.
Qed.

Lemma contains_char_false (x : ascii) (s : str) :
  contains s [x] = false -> forall c, In c s -> chr_eqb c x = false.
Proof.
  induction s as [|y r IH]; simpl; [easy|].
  rewrite startswith_nil, andb_true_r. intros H c [<-|Hc].
  - apply orb_false_iff in H as [H _].
    unfold chr_eqb in *. now rewrite Ascii.eqb_sym.
  - apply orb_false_iff in H as [_ H]. now apply IH.
Qed.

(** With the space kept safe and then replaced, one character gives what
    the specification's encoding gives. *)
Lemma quote_space_char (c : ascii) :
  flat_map (fun d => if chr_eqb " "%char d then lit "+" else [d])
           (if (N_of_ascii c <? 128)%N
               && (always_safe c || existsb (chr_eqb c) (lit " "))
            then [c] else flat_map percent (utf8 c))
  = spec_encode_char c.
Proof. destruct c as [[] [] [] [] [] [] [] []]; reflexivity. Qed.

Lemma quote_plain_char (c : ascii) :
  chr_eqb c " "%char = false ->
  (if (N_of_ascii c <? 128)%N && (always_safe c || existsb (chr_eqb c) [])
   then [c] else flat_map percent (utf8 c))
  = spec_encode_char c.
Proof. destruct c as [[] [] [] [] [] [] [] []]; intros H; easy. Qed.

(** [quote_plus] is the encoding of the specification. *)
Lemma quote_plus_spec (s : str) : quote_plus s = spec_encode s.
Proof.
  unfold quote_plus, spec_encode. change (lit " ") with [" "%char].
  destruct (contains s [" "%char]) eqn:E.
  - change (lit "+") with ["+"%char].
    rewrite replace_char. unfold quote. rewrite flat_map_flat_map.
    apply flat_map_ext. intros c. apply quote_space_char.
  - unfold quote. apply flat_map_ext_In. intros c Hc.
    apply quote_plain_char. eapply contains_char_false; eauto.
Qed.

Lemma replace_from_brace_free (new p rest : str) :
  brace_free p ->
  replace_from PLACEHOLDER new 0 (p ++ rest)
  = p ++ replace_from PLACEHOLDER new 0 rest.
Proof.
  induction p as [|c p IH]; intros H; [reflexivity|].
  assert (Hc : chr_eqb c "{"%char = false) by (apply H; now left).
  assert (Hs : startswith (c :: p ++ rest) PLACEHOLDER = false).
  { destruct (startswith (c :: p ++ rest) PLACEHOLDER) eqn:E; [|reflexivity].
    apply startswith_iff in E as [b Hb]. injection Hb as -> _.
    discriminate Hc. }
  cbn [app replace_from]. change (c :: p ++ rest) with ((c :: p) ++ rest) in Hs.
  cbn [app] in Hs. rewrite Hs. f_equal. apply IH. intros d Hd. apply H. now right.
Qed.

Lemma replace_from_placeholder (new rest : str) :
  replace_from PLACEHOLDER new 0 (PLACEHOLDER ++ rest)
  = new ++ replace_from PLACEHOLDER new 0 rest.
Proof.
  assert (Hs : startswith (PLACEHOLDER ++ rest) PLACEHOLDER = true).
  { apply startswith_iff. now exists rest. }
  change (PLACEHOLDER ++ rest) with ("{"%char :: lit "query}" ++ rest) in *.
  cbn [replace_from]. rewrite Hs. reflexivity.
Qed.

Lemma replace_join (new : str) (parts : list str) :
  Forall brace_free parts ->
  replace (join PLACEHOLDER parts) PLACEHOLDER new = join new parts.
Proof.
  change (replace (join PLACEHOLDER parts) PLACEHOLDER new)
    with (replace_from PLACEHOLDER new 0 (join PLACEHOLDER parts)).
  induction 1 as [|p r Hp Hr IH]; [reflexivity|].
  destruct r as [|q r].
  - simpl. rewrite <- (app_nil_r p) at 1.
    rewrite replace_from_brace_free by assumption. simpl. apply app_nil_r.
  - change (join PLACEHOLDER (p :: q :: r))
      with (p ++ PLACEHOLDER ++ join PLACEHOLDER (q :: r)).
    rewrite replace_from_brace_free by assumption.
    rewrite replace_from_placeholder, IH. reflexivity.
Qed.

End SearchUrl.

(** C4, as the code has it. For a template that contains [{query}], the
    search URL is the template with every [{query}] replaced by the
    percent-encoding, spaces as [+], of the query without its leading
    and trailing whitespace; it is the URL [scrape_site] fetches. For a
    template made of brace-free parts joined by [{query}], the URL is
    the parts joined by the encoded, trimmed query. *)
Theorem search_url_encodes_trimmed_query (cfg : SiteConfig) (query : str) :
  contains (search_url_template cfg) PLACEHOLDER = true ->
  build_search_url cfg query
  = Ok (replace (search_url_template cfg) PLACEHOLDER
                (spec_encode (strip query)))
  /\ (forall parts, search_url_template cfg = join PLACEHOLDER parts ->
        Forall brace_free parts ->
        build_search_url cfg query = Ok (join (spec_encode (strip query)) parts))
  /\ (forall L timeout_s sleep_s,
        found_offers L query cfg timeout_s sleep_s
        = page_offers L query cfg
            (replace (search_url_template cfg) PLACEHOLDER
                     (spec_encode (strip query))) timeout_s).
Proof.
  intros H.
  assert (E : build_search_url cfg query
              = Ok (replace (search_url_template cfg) PLACEHOLDER
                            (spec_encode (strip query)))).
  { unfold build_search_url. rewrite H. simpl. now rewrite quote_plus_spec. }
  repeat split.
  - exact E.
  - intros parts Hp Hf. rewrite E, Hp. now rewrite replace_join.
  - intros L t s. unfold found_offers. rewrite E. reflexivity.
Qed.

Lemma search_url_encodes_trimmed_query_witness :
  build_search_url (Demo.site "https://example.com/s?q={query}&n={query}")
                   (lit "  bosch 18v drill ")
  = Ok (lit "https://example.com/s?q=bosch+18v+drill&n=bosch+18v+drill").
Proof.
  apply (proj1 (proj2 (search_url_encodes_trimmed_query
           (Demo.site "https://example.com/s?q={query}&n={query}")
           (lit "  bosch 18v drill ") eq_refl))
         [lit "https://example.com/s?q="; lit "&n="; []]).
  - reflexivity.
  - repeat constructor; intros c Hc; simpl in Hc;
      repeat (destruct Hc as [<-|Hc]; [reflexivity|]); destruct Hc.
Defined.

(** C4, as stated, fails: a query with a leading space is trimmed before
    it is encoded, so the URL has [a] where the encoded query is [+a]. *)
Lemma search_url_query_itself_counterexample :
  build_search_url (Demo.site "https://example.com/s?q={query}") (lit " a")
  = Ok (lit "https://example.com/s?q=a")
  /\ replace (lit "https://example.com/s?q={query}") PLACEHOLDER
             (spec_encode (lit " a"))
     = lit "https://example.com/s?q=+a"
  /\ build_search_url (Demo.site "https://example.com/s?q={query}") (lit " a")
     <> Ok (replace (lit "https://example.com/s?q={query}") PLACEHOLDER
                    (spec_encode (lit " a"))).
Proof. repeat split; try reflexivity. vm_compute. discriminate. Qed.

(* ================================================================== *)
(** * The loop over the sites *)
(* ================================================================== *)

Section SiteLoop.

Variables (L : Lib) (query : str) (timeout : Z) (delay : float).

Lemma site_loop_acc (rows : list Row) : forall results errors,
  site_loop L query timeout delay rows results errors
  = (results ++ fst (site_loop L query timeout delay rows [] []),
     errors ++ snd (site_loop L query timeout delay rows [] [])).
Proof.
  induction rows as [|row rest IH]; intros results errors; simpl.
  - now rewrite !app_nil_r.
  - destruct (scrape_row L query timeout delay row) as [offers|e].
    + rewrite (IH (results ++ offers)), (IH offers). simpl.
      now rewrite List.app_assoc.
    + rewrite (IH results (errors ++ _)), (IH [] [_]). simpl.
      f_equal. now rewrite <- List.app_assoc.
Qed.

Lemma site_loop_app (rows1 rows2 : list Row) :
  site_loop L query timeout delay (rows1 ++ rows2) [] []
  = (fst (site_loop L query timeout delay rows1 [] [])
     ++ fst (site_loop L query timeout delay rows2 [] []),
     snd (site_loop L query timeout delay rows1 [] [])
     ++ snd (site_loop L query timeout delay rows2 [] [])).
Proof.
  induction rows1 as [|row rest IH]; simpl.
  - now destruct (site_loop L query timeout delay rows2 [] []).
  - destruct (scrape_row L query timeout delay row) as [offers|e].
    + rewrite (site_loop_acc (rest ++ rows2) offers),
              (site_loop_acc rest offers), IH. simpl.
      now rewrite List.app_assoc.
    + rewrite (site_loop_acc (rest ++ rows2) [] [_]),
              (site_loop_acc rest [] [_]), IH. reflexivity.
Qed.

End SiteLoop.

(** C3, as the code has it. Take a row whose template, once trimmed,
    lacks [{query}]. If the template is not blank, [scrape_site] raises
    the configuration error, and the loop records the entry made of the
    name cell of the row, a colon and the message (which starts with the
    name of the configuration), between the offers and errors of the
    rows before and those of the rows after. If the template is blank,
    the row is passed over: it adds no offer and no error. *)
Theorem missing_placeholder_reported (L : Lib) (query : str) (timeout : Z)
    (delay : float) (before after : list Row) (row : Row) :
  let cfg := config_of_row row in
  let done := site_loop L query timeout delay before [] [] in
  let rest := site_loop L query timeout delay after [] [] in
  contains (search_url_template cfg) PLACEHOLDER = false ->
  (search_url_template cfg <> [] ->
   scrape_site L query cfg timeout delay
   = Raise (Exc (lit "ValueError")
                (name cfg ++ lit ": search_url_template must include {query}"))
   /\ site_loop L query timeout delay (before ++ row :: after) [] []
      = (fst done ++ fst rest,
         snd done
         ++ [row_name row ++ lit ": " ++ name cfg
             ++ lit ": search_url_template must include {query}"]
         ++ snd rest))
  /\ (search_url_template cfg = [] ->
      site_loop L query timeout delay (before ++ row :: after) [] []
      = (fst done ++ fst rest, snd done ++ snd rest)).
Proof.
  intros cfg done rest H.
  assert (E : scrape_site L query cfg timeout delay
              = Raise (Exc (lit "ValueError")
                  (name cfg ++ lit ": search_url_template must include {query}"))).
  { unfold scrape_site, found_offers, build_search_url. now rewrite H. }
  split.
  - intros Hne. split; [exact E|].
    assert (Hrow : site_loop L query timeout delay (row :: after) [] []
                   = (fst rest, error_entry row (Exc (lit "ValueError")
                        (name cfg ++ lit ": search_url_template must include {query}"))
                                :: snd rest)).
    { cbn [site_loop]. unfold scrape_row. fold cfg.
      destruct (search_url_template cfg) eqn:Et; [easy|]. rewrite E.
      rewrite site_loop_acc. reflexivity. }
    rewrite site_loop_app, Hrow. reflexivity.
  - intros Hb.
    assert (Hrow : site_loop L query timeout delay (row :: after) [] [] = rest).
    { cbn [site_loop]. unfold scrape_row. fold cfg. rewrite Hb.
      now rewrite app_nil_r. }
    rewrite site_loop_app, Hrow. reflexivity.
Qed.

Lemma missing_placeholder_reported_witness :
  site_loop (Demo.lib []) (lit "drill") 20 0%float
            [Demo.row " Shop " "https://example.com/search"] [] []
  = ([], [lit " Shop : Shop: search_url_template must include {query}"]).
Proof.
  apply (proj2 (proj1 (missing_placeholder_reported (Demo.lib []) (lit "drill")
                  20 0%float [] []
                  (Demo.row " Shop " "https://example.com/search") eq_refl)
               ltac:(discriminate))).
Defined.

(** C3, as stated, fails: a blank template lacks [{query}], yet the row
    is passed over without any entry in the error list. *)
Lemma blank_template_counterexample :
  contains (search_url_template (config_of_row (Demo.row "Shop" " ")))
           PLACEHOLDER = false
  /\ site_loop (Demo.lib []) (lit "drill") 20 0%float
               [Demo.row "Shop" " "] [] [] = ([], []).
Proof. split; reflexivity. Qed.

(* ================================================================== *)
(** * De-duplication *)
(* ================================================================== *)

Section Dedup.

Lemma numval_eqb_eq a b : numval_eqb a b = true <-> a = b.
Proof.
  destruct a as [|s m e|s], b as [|s' m' e'|s']; simpl; split; try easy.
  - rewrite !andb_true_iff, Bool.eqb_true_iff, Pos.eqb_eq, Z.eqb_eq.
    now intros [[-> ->] ->].
  - intros H; injection H as -> -> ->.
    now rewrite Bool.eqb_reflx, Pos.eqb_refl, Z.eqb_refl.
  - rewrite Bool.eqb_true_iff. now intros ->.
  - intros H; injection H as ->. apply Bool.eqb_reflx.
Qed.

(** Equal atoms are the same and are not the object equal to nothing. *)
Lemma atom_eqb_iff a b : atom_eqb a b = true <-> a = b /\ a <> AUnique.
Proof.
  destruct a, b; simpl; split; try easy; try (intros [? ?]; easy).
  - rewrite str_eqb_eq. now intros ->.
  - intros [H _]. injection H as ->. apply str_eqb_refl.
  - rewrite numval_eqb_eq. now intros ->.
  - intros [H _]. injection H as ->. now apply numval_eqb_eq.
Qed.

Lemma key_eqb_iff (k1 k2 : key) :
  key_eqb k1 k2 = true
  <-> k1 = k2 /\ fst (fst k1) <> AUnique /\ snd (fst k1) <> AUnique
      /\ snd k1 <> AUnique.
Proof.
  destruct k1 as [[u1 p1] c1], k2 as [[u2 p2] c2]. simpl.
  rewrite !andb_true_iff, !atom_eqb_iff. split.
  - intros [[[-> ?] [-> ?]] [-> ?]]. auto.
  - intros [H [? [? ?]]]. injection H as -> -> ->. auto.
Qed.

Lemma key_eqb_sym k1 k2 : key_eqb k1 k2 = true -> key_eqb k2 k1 = true.
Proof. rewrite !key_eqb_iff. intros [-> ?]. auto. Qed.

Lemma key_eqb_trans k1 k2 k3 :
  key_eqb k1 k2 = true -> key_eqb k2 k3 = true -> key_eqb k1 k3 = true.
Proof. rewrite !key_eqb_iff. intros [-> ?] [-> _]. auto. Qed.

Lemma same_triple_keys x y :
  same_triple x y = true <->
  exists k1 k2, offer_key x = Ok k1 /\ offer_key y = Ok k2 /\ key_eqb k1 k2 = true.
Proof.
  unfold same_triple.
  destruct (offer_key x) as [k1|], (offer_key y) as [k2|]; split;
    try easy; try (intros (? & ? & ? & ? & ?); easy).
  - intros H. now exists k1, k2.
  - intros (a & b & Ha & Hb & H). injection Ha as ->. now injection Hb as ->.
Qed.

Lemma same_triple_sym x y : same_triple x y = true -> same_triple y x = true.
Proof.
  rewrite !same_triple_keys. intros (k1 & k2 & H1 & H2 & H).
  exists k2, k1. auto using key_eqb_sym.
Qed.

Lemma same_triple_trans x y z :
  same_triple x y = true -> same_triple y z = true -> same_triple x z = true.
Proof.
  rewrite !same_triple_keys.
  intros (k1 & k2 & H1 & H2 & H) (k2' & k3 & H2' & H3 & H').
  rewrite H2 in H2'. injection H2' as <-.
  exists k1, k3. eauto using key_eqb_trans.
Qed.

Lemma has_key_iff d k x :
  Keyed d -> offer_key x = Ok k ->
  has_key d k = true <-> exists z, In z (map snd d) /\ same_triple z x = true.
Proof.
  intros Hd Hk. unfold has_key. rewrite existsb_exists. split.
  - intros ([kz z] & Hin & H). exists z. split.
    + apply in_map_iff. now exists (kz, z).
    + apply same_triple_keys. exists kz, k. repeat split; auto.
      exact (proj1 (Forall_forall _ _) Hd (kz, z) Hin).
  - intros (z & Hin & H). apply in_map_iff in Hin as ([kz z'] & <- & Hin).
    exists (kz, z'). split; [exact Hin|]. simpl in *.
    apply same_triple_keys in H as (k1 & k2 & H1 & H2 & H).
    pose proof (proj1 (Forall_forall _ _) Hd (kz, z') Hin) as Hz.
    simpl in Hz. rewrite Hz in H1.
    rewrite Hk in H2. injection H1 as <-. now injection H2 as <-.
Qed.

Lemma dedup_loop_keep_first (xs : list FoundOffer) :
  forall pre d d',
    Keyed d ->
    (forall y, In y pre -> forall x, same_triple y x = true ->
       exists z, In z (map snd d) /\ same_triple z x = true) ->
    (forall z, In z (map snd d) -> In z pre) ->
    dedup_loop d xs = Ok d' ->
    map snd d' = map snd d ++ keep_first pre xs.
Proof.
  induction xs as [|x r IH]; intros pre d d' Hd Hcov Hsound H; simpl in H.
  - injection H as <-. simpl. now rewrite app_nil_r.
  - destruct (offer_key x) as [k|e] eqn:Hk; simpl in H; [|discriminate].
    assert (Hhas : has_key d k = existsb (fun y => same_triple y x) pre).
    { apply eq_true_iff_eq. rewrite (has_key_iff x Hd Hk), existsb_exists.
      split.
      - intros (z & Hz & Hs). exists z. auto.
      - intros (y & Hy & Hs). eauto. }
    simpl. rewrite <- Hhas. destruct (has_key d k) eqn:Ek.
    + simpl. apply (IH (pre ++ [x]) d d'); auto.
      * intros y Hy x' Hs. apply in_app_or in Hy as [Hy|[Heq|[]]]; eauto.
        subst y.
        apply (has_key_iff x Hd Hk) in Ek as (z & Hz & Hzx).
        exists z. split; [exact Hz|]. eapply same_triple_trans; eauto.
      * intros z Hz. apply in_or_app. auto.
    + rewrite (IH (pre ++ [x]) (d ++ [(k, x)]) d'); auto.
      * rewrite map_app. simpl. now rewrite <- List.app_assoc.
      * apply Forall_app. split; [exact Hd|]. now repeat constructor.
      * intros y Hy x' Hs. rewrite map_app. simpl.
        apply in_app_or in Hy as [Hy|[Heq|[]]].
        -- destruct (Hcov y Hy x' Hs) as (z & Hz & Hzx).
           exists z. split; [apply in_or_app; auto|exact Hzx].
        -- subst y. exists x. split; [apply in_or_app; simpl; auto|exact Hs].
      * intros z Hz. rewrite map_app in Hz. simpl in Hz.
        apply in_or_app. apply in_app_or in Hz as [Hz|Hz]; auto.
Qed.

Lemma keep_first_app (a : list FoundOffer) : forall e b,
  keep_first e (a ++ b) = keep_first e a ++ keep_first (e ++ a) b.
Proof.
  induction a as [|x a IH]; intros e b; simpl.
  - now rewrite app_nil_r.
  - rewrite IH, <- !List.app_assoc. reflexivity.
Qed.

Lemma keep_first_subseq (l : list FoundOffer) : forall e,
  Subseq (keep_first e l) l.
Proof.
  induction l as [|x r IH]; intros e; simpl; [constructor|].
  destruct (existsb _ e); simpl; constructor; apply IH.
Qed.

Lemma keep_first_fresh (l : list FoundOffer) : forall e x,
  In x (keep_first e l) -> forall y, In y e -> same_triple y x = false.
Proof.
  induction l as [|a r IH]; intros e x Hx y Hy; simpl in Hx; [easy|].
  apply in_app_or in Hx as [Hx|Hx].
  - destruct (existsb _ e) eqn:E; [easy|]. destruct Hx as [<-|[]].
    destruct (same_triple y a) eqn:Es; [|reflexivity].
    assert (existsb (fun y => same_triple y a) e = true)
      by (apply existsb_exists; eauto).
    congruence.
  - apply (IH (e ++ [a]) x Hx). apply in_or_app. auto.
Qed.

Lemma keep_first_distinct (l : list FoundOffer) : forall e,
  ForallOrdPairs (fun x y => same_triple x y = false
                             /\ same_triple y x = false) (keep_first e l).
Proof.
  induction l as [|a r IH]; intros e; simpl; [constructor|].
  destruct (existsb _ e); simpl; [apply IH|].
  constructor; [|apply IH].
  apply Forall_forall. intros x Hx.
  assert (H : same_triple a x = false).
  { apply (keep_first_fresh _ _ _ Hx). apply in_or_app. simpl. auto. }
  split; [exact H|].
  destruct (same_triple x a) eqn:E; [|reflexivity].
  apply same_triple_sym in E. congruence.
Qed.

Lemma subseq_In {A : Type} (l l' : list A) :
  Subseq l l' -> forall x, In x l -> In x l'.
Proof. induction 1; simpl; intuition. Qed.

Lemma scrape_site_unfold L query cfg timeout_s sleep_s offers :
  scrape_site L query cfg timeout_s sleep_s = Ok offers ->
  exists found,
    found_offers L query cfg timeout_s sleep_s = Ok found
    /\ offers = keep_first [] (filter retained found).
Proof.
  unfold scrape_site. intros H.
  destruct (found_offers L query cfg timeout_s sleep_s) as [found|e];
    simpl in H; [|discriminate].
  destruct (dedup_loop [] (filter retained found)) as [d|e] eqn:Ed;
    simpl in H; [|discriminate].
  injection H as <-. exists found. split; [reflexivity|].
  apply (@dedup_loop_keep_first (filter retained found) [] [] d);
    [constructor|easy|easy|exact Ed].
Qed.

End Dedup.

Example product_offer_found_twice :
  found_offers (Demo.lib Demo.ld_product) (lit "drill")
               (Demo.site "https://example.com/s?q={query}") 20 0%float
  = Ok [ {| site := lit "Shop"; title := lit "drill"; price := Fl 5%float;
            currency := JStr [];
            url := JStr (lit "https://example.com/s?q=drill");
            matched := true |};
         {| site := lit "Shop"; title := lit "(JSON-LD Product)";
            price := Fl 5%float; currency := JStr [];
            url := JStr (lit "https://example.com/s?q=drill");
            matched := false |} ].
Proof. vm_compute. reflexivity. Qed.

(* ================================================================== *)
(** * Where the price of an offer comes from *)
(* ================================================================== *)

Section Provenance.

Variable L : Lib.

Lemma offer_price_some offer p :
  offer_price L offer = Some p <->
  price_field offer <> JNull /\ py_float L (price_field offer) = Ok p.
Proof.
  unfold offer_price. fold (price_field offer).
  destruct (price_field offer) eqn:E; simpl;
    try (destruct (float_of_int z)); try (destruct (float_of_str L s));
    simpl; split; try easy; try (intros [? ?]; easy);
    try (intros [_ H]; congruence); try (intros H; split; [easy|congruence]).
Qed.

Lemma offer_price_none offer :
  offer_price L offer = None <-> unparseable L (price_field offer).
Proof.
  unfold offer_price, unparseable. fold (price_field offer).
  destruct (price_field offer) eqn:E; simpl;
    try (destruct (float_of_int z)); try (destruct (float_of_str L s));
    simpl; split; try easy; auto;
    try (intros [?|[? ?]]; easy); try (intros _; right; eexists; reflexivity).
Qed.

End Provenance.

(** C1, as stated, fails: a JSON-LD offer with price -5 comes out of
    [scrape_site] with the price -5.0, which is below zero. *)
Lemma negative_price_counterexample :
  scrape_site (Demo.lib Demo.ld_negative) (lit "drill")
              (Demo.site "https://example.com/s?q={query}") 20 0%float
  = Ok [ {| site := lit "Shop"; title := lit "(JSON-LD Product)";
            price := Fl (-5)%float; currency := JStr [];
            url := JStr (lit "https://example.com/s?q=drill");
            matched := false |} ]
  /\ PrimFloat.leb 0%float (fval (Fl (-5)%float)) = false.
Proof. split; vm_compute; reflexivity. Qed.

(* ================================================================== *)
(** * The order of floats *)
(* ================================================================== *)

Section FloatOrder.

Ltac compare_cases :=
  repeat match goal with
    | H : context [Z.compare ?a ?b] |- _ => destruct (Z.compare_spec a b)
    | |- context [Z.compare ?a ?b] => destruct (Z.compare_spec a b)
    | H : context [Pos.compare ?a ?b] |- _ => destruct (Pos.compare_spec a b)
    | |- context [Pos.compare ?a ?b] => destruct (Pos.compare_spec a b)
    end.

Lemma SFcompare_antisym a b c :
  SFcompare a b = Some c -> SFcompare b a = Some (CompOpp c).
Proof.
  destruct a as [s1|s1| |s1 m1 e1], b as [s2|s2| |s2 m2 e2]; simpl;
    try discriminate; try destruct s1; try destruct s2;
    intros [= <-]; try reflexivity;
    change (Pos.compare_cont Eq m1 m2) with (Pos.compare m1 m2);
    change (Pos.compare_cont Eq m2 m1) with (Pos.compare m2 m1);
    rewrite (Z.compare_antisym e1 e2), (Pos.compare_antisym m1 m2);
    destruct (e1 ?= e2)%Z; simpl; try reflexivity;
    destruct (m1 ?= m2)%positive; reflexivity.
Qed.

Lemma SFleb_trans a b c :
  SFleb a b = true -> SFleb b c = true -> SFleb a c = true.
Proof.
  unfold SFleb.
  destruct a as [s1|s1| |s1 m1 e1], b as [s2|s2| |s2 m2 e2],
           c as [s3|s3| |s3 m3 e3]; simpl;
    try discriminate; try reflexivity;
    try destruct s1; try destruct s2; try destruct s3;
    try discriminate; try reflexivity;
    change (Pos.compare_cont Eq m1 m2) with (Pos.compare m1 m2);
    change (Pos.compare_cont Eq m2 m3) with (Pos.compare m2 m3);
    change (Pos.compare_cont Eq m1 m3) with (Pos.compare m1 m3);
    intros H1 H2; compare_cases; subst; simpl in *;
    try discriminate; try reflexivity; try lia.
Qed.

Lemma is_nan_false (x : float) :
  PrimFloat.is_nan x = false -> Prim2SF x <> S754_nan.
Proof.
  unfold PrimFloat.is_nan. rewrite negb_false_iff, eqb_spec. intros H E.
  rewrite E in H. discriminate.
Qed.

Lemma leb_trans (x y z : float) :
  PrimFloat.leb x y = true -> PrimFloat.leb y z = true ->
  PrimFloat.leb x z = true.
Proof. rewrite !leb_spec. apply SFleb_trans. Qed.

Lemma ltb_leb (x y : float) :
  PrimFloat.ltb x y = true -> PrimFloat.leb x y = true.
Proof.
  rewrite ltb_spec, leb_spec. unfold SFltb, SFleb.
  now destruct (SFcompare _ _) as [[]|].
Qed.

Lemma not_ltb_leb (x y : float) :
  PrimFloat.is_nan x = false -> PrimFloat.is_nan y = false ->
  PrimFloat.ltb x y = false -> PrimFloat.leb y x = true.
Proof.
  intros Hx Hy. apply is_nan_false in Hx, Hy.
  rewrite ltb_spec, leb_spec. unfold SFltb, SFleb.
  destruct (SFcompare (Prim2SF x) (Prim2SF y)) as [c|] eqn:E.
  - rewrite (SFcompare_antisym _ _ E). now destruct c.
  - destruct (Prim2SF x) as [| | |? ? ?], (Prim2SF y) as [| | |? ? ?];
      simpl in E; congruence.
Qed.

End FloatOrder.

(* ================================================================== *)
(** * Sorting the table *)
(* ================================================================== *)

Section Sorting.

Lemma perm_filter_split {A : Type} (f : A -> bool) (l : list A) :
  Permutation l (filter f l ++ filter (fun x => negb (f x)) l).
Proof.
  induction l as [|x r IH]; simpl; [constructor|].
  destruct (f x); simpl.
  - now constructor.
  - now apply Permutation_cons_app.
Qed.

Lemma insert_after_ties_perm x l :
  Permutation (x :: l) (Demo.insert_after_ties x l).
Proof.
  induction l as [|y r IH]; simpl; [reflexivity|].
  destruct (PrimFloat.ltb _ _); [reflexivity|].
  rewrite perm_swap. now constructor.
Qed.

Lemma isort_perm l :
  Permutation l (fold_right Demo.insert_after_ties [] l).
Proof.
  induction l as [|x r IH]; simpl; [constructor|].
  rewrite <- insert_after_ties_perm. now constructor.
Qed.

Lemma sort_ties_reversed_perm l : Permutation l (Demo.sort_ties_reversed l).
Proof.
  unfold Demo.sort_ties_reversed.
  rewrite (perm_filter_split numeric l) at 1.
  apply Permutation_app.
  - apply isort_perm.
  - erewrite filter_ext; [reflexivity|]. intros x. apply negb_involutive.
Qed.

Lemma insert_after_ties_sorted x l :
  numeric x = true -> Forall (fun y => numeric y = true) l ->
  StronglySorted price_le l -> StronglySorted price_le (Demo.insert_after_ties x l).
Proof.
  intros Hx Hl Hs. induction Hs as [|y r Hs IH Hy]; simpl.
  - repeat constructor.
  - apply Forall_cons_iff in Hl as [Hny Hl].
    destruct (PrimFloat.ltb _ _) eqn:E.
    + constructor; [now constructor|]. constructor.
      * now apply ltb_leb.
      * apply Forall_forall. intros z Hz. unfold price_le, price_leb.
        eapply leb_trans; [apply ltb_leb; exact E|].
        exact (proj1 (Forall_forall _ _) Hy z Hz).
    + constructor; [now apply IH|].
      eapply Permutation_Forall; [apply insert_after_ties_perm|].
      constructor; [|exact Hy]. unfold price_le, price_leb.
      apply not_ltb_leb; auto; now apply negb_true_iff.
Qed.

Lemma isort_sorted l :
  Forall (fun y => numeric y = true) l ->
  StronglySorted price_le (fold_right Demo.insert_after_ties [] l).
Proof.
  induction 1 as [|x r Hx Hr IH]; simpl; [constructor|].
  apply insert_after_ties_sorted; auto.
  eapply Permutation_Forall; [apply isort_perm|exact Hr].
Qed.

Lemma filter_all {A : Type} (f : A -> bool) (l : list A) :
  forallb f (filter f l) = true.
Proof.
  induction l as [|x r IH]; simpl; auto.
  destruct (f x) eqn:E; simpl; now rewrite ?E.
Qed.

Lemma sort_ties_reversed_ascending l : Ascending (Demo.sort_ties_reversed l).
Proof.
  unfold Ascending, Demo.sort_ties_reversed.
  assert (Hn : Forall (fun y => numeric y = true) (filter numeric l)).
  { apply Forall_forall. intros x Hx. now apply filter_In in Hx. }
  exists (fold_right Demo.insert_after_ties [] (filter numeric l)),
         (filter price_is_nan l).
  repeat split.
  - apply forallb_forall. intros x Hx.
    apply (Permutation_in _ (Permutation_sym (isort_perm _))) in Hx.
    now apply filter_In in Hx.
  - apply filter_all.
  - now apply isort_sorted.
Qed.

(** Three offers with the prices 29.99, 9.5 and 100, sorted. *)
#[warnings="-inexact-float"]
Lemma sorted_three (S : SortValues) (a b c : FoundOffer) :
  price a = Fl 29.99%float -> price b = Fl 9.5%float ->
  price c = Fl 100%float -> sort_values S [a; b; c] = [b; a; c].
Proof.
  intros Ha Hb Hc.
  pose proof (sort_values_perm S [a; b; c]) as P.
  destruct (sort_values_ascending S [a; b; c]) as (nums & nans & E & _ & Hn & Hs).
  assert (Hnum : forall x, In x (sort_values S [a; b; c]) -> price_is_nan x = false).
  { intros x Hx. apply (Permutation_in _ (Permutation_sym P)) in Hx.
    unfold price_is_nan. destruct Hx as [<-|[<-|[<-|[]]]];
      rewrite ?Ha, ?Hb, ?Hc; reflexivity. }
  assert (nans = []) as ->.
  { destruct nans as [|x nans]; [reflexivity|]. simpl in Hn.
    rewrite (Hnum x) in Hn; [discriminate|].
    rewrite E. apply in_or_app. simpl. auto. }
  rewrite app_nil_r in E. rewrite E in *. clear E Hn Hnum.
  pose proof (Permutation_length P) as Hlen.
  destruct nums as [|x [|y [|z [|? ?]]]]; try discriminate.
  assert (Hin : forall o, In o [x; y; z] -> o = a \/ o = b \/ o = c).
  { intros o Ho. apply (Permutation_in _ (Permutation_sym P)) in Ho.
    simpl in Ho. intuition. }
  assert (Hback : forall o, In o [a; b; c] -> o = x \/ o = y \/ o = z).
  { intros o Ho. apply (Permutation_in _ P) in Ho. simpl in Ho. intuition. }
  inversion Hs as [|? ? Hs' Hx]; subst.
  inversion Hs' as [|? ? _ Hy]; subst.
  apply Forall_cons_iff in Hx as [Hxy Hx]. apply Forall_cons_iff in Hx as [Hxz _].
  apply Forall_cons_iff in Hy as [Hyz _].
  unfold price_le, price_leb in *.
  destruct (Hin x) as [ -> | [ -> | -> ] ]; [simpl; auto| | |];
    destruct (Hin y) as [ -> | [ -> | -> ] ]; try (simpl; auto; fail);
    destruct (Hin z) as [ -> | [ -> | -> ] ]; try (simpl; auto; fail);
    rewrite ?Ha, ?Hb, ?Hc in *; simpl in *;
    try discriminate; try reflexivity;
    exfalso;
    first [ destruct (Hback a) as [E|[E|E]]; [simpl; auto| | |];
            apply (f_equal price) in E; rewrite ?Ha, ?Hb, ?Hc in E; discriminate
          | destruct (Hback b) as [E|[E|E]]; [simpl; auto| | |];
            apply (f_equal price) in E; rewrite ?Ha, ?Hb, ?Hc in E; discriminate
          | destruct (Hback c) as [E|[E|E]]; [simpl; auto| | |];
            apply (f_equal price) in E; rewrite ?Ha, ?Hb, ?Hc in E; discriminate ].
Qed.

End Sorting.


(* ================================================================== *)
(** * More on [normalize_space] and [wildcard_match] *)
(* ================================================================== *)

Section MoreStrings.

Lemma lstrip_visible s : filter visible (lstrip s) = filter visible s.
Proof.
  induction s as [|c r IH]; simpl; auto. unfold visible at 2.
  destruct (isspace c) eqn:E; simpl; auto. unfold visible at 1. now rewrite E.
Qed.

Lemma rstrip_visible s : filter visible (rstrip s) = filter visible s.
Proof.
  induction s as [|c r IH]; simpl; auto. rewrite <- IH.
  destruct (rstrip r) as [|d r']; [|reflexivity]. simpl.
  unfold visible. destruct (isspace c) eqn:E; simpl; now rewrite ?E.
Qed.

Lemma sub_ws_visible s : forall b, filter visible (sub_ws b s) = filter visible s.
Proof.
  induction s as [|c r IH]; intros b; simpl; auto. unfold visible at 2.
  destruct (isspace c) eqn:E; [destruct b|]; simpl; rewrite ?IH; auto.
  unfold visible at 1. now rewrite E.
Qed.

Lemma sub_ws_only_spaces s : forall b c,
  In c (sub_ws b s) -> isspace c = true -> c = " "%char.
Proof.
  induction s as [|x r IH]; intros b c; simpl; [easy|].
  destruct (isspace x) eqn:E; [destruct b|]; simpl.
  - apply IH.
  - intros [<-|H]; [reflexivity|]. now apply (IH true).
  - intros [<-|H] Hc; [congruence|]. now apply (IH false).
Qed.

Lemma lstrip_length s : List.length (lstrip s) <= List.length s.
Proof. induction s as [|c r IH]; simpl; auto. destruct (isspace c); simpl; lia. Qed.

Lemma rstrip_length s : List.length (rstrip s) <= List.length s.
Proof.
  induction s as [|c r IH]; simpl; auto.
  destruct (rstrip r); [destruct (isspace c)|]; simpl in *; lia.
Qed.

Lemma sub_ws_length s : forall b, List.length (sub_ws b s) <= List.length s.
Proof.
  induction s as [|c r IH]; intros b; simpl; auto.
  pose proof (IH true). pose proof (IH false).
  destruct (isspace c); [destruct b|]; simpl; lia.
Qed.

Lemma sub_ws_nil s : sub_ws false s = [] -> s = [].
Proof. destruct s as [|c r]; simpl; auto. now destruct (isspace c). Qed.

Lemma strip_nil_iff s : strip s = [] <-> all_space s = true.
Proof.
  unfold strip. rewrite rstrip_nil_iff. split.
  - intros H. pose proof (lstrip_no_lead s) as Hl.
    destruct (lstrip s) as [|c r] eqn:E.
    + clear H Hl. induction s as [|x s IH]; simpl in *; auto.
      destruct (isspace x); [auto|discriminate].
    + simpl in H, Hl. apply andb_true_iff in H as [H _].
      rewrite H in Hl. discriminate.
  - intros H. now rewrite lstrip_all_space.
Qed.

Lemma substring_refl (s : str) : Substring s s.
Proof. exists [], []. now rewrite app_nil_r. Qed.

Lemma substring_trans (a b c : str) :
  Substring a b -> Substring b c -> Substring a c.
Proof.
  intros (x & y & ->) (u & v & ->). exists (u ++ x), (y ++ v).
  now rewrite <- !List.app_assoc.
Qed.

Lemma substring_antisym (a b : str) : Substring a b -> Substring b a -> a = b.
Proof.
  intros (x & y & Hb) (u & v & Ha).
  assert (Hl : List.length x = 0 /\ List.length y = 0).
  { apply (f_equal (@List.length ascii)) in Ha, Hb.
    rewrite !length_app in Ha, Hb. lia. }
  destruct Hl as [Hx Hy]. destruct x; [|discriminate]. destruct y; [|discriminate].
  simpl in Hb. now rewrite app_nil_r in Hb.
Qed.

End MoreStrings.

(** X1. [normalize_space] changes whitespace only: the characters that
    are not whitespace are kept, in order; every whitespace character of
    the result is the space; the result is never longer than the input,
    and it is empty exactly for an input of whitespace. *)
Theorem normalize_space_changes_whitespace_only (s : str) :
  filter (fun c => negb (isspace c)) (normalize_space s)
  = filter (fun c => negb (isspace c)) s
  /\ (forall c, In c (normalize_space s) -> isspace c = true -> c = " "%char)
  /\ List.length (normalize_space s) <= List.length s
  /\ (normalize_space s = [] <-> all_space s = true).
Proof.
  unfold normalize_space, re_sub_ws_space. repeat split.
  - unfold strip. now rewrite sub_ws_visible, rstrip_visible, lstrip_visible.
  - apply sub_ws_only_spaces.
  - unfold strip.
    pose proof (sub_ws_length (rstrip (lstrip s)) false).
    pose proof (rstrip_length (lstrip s)). pose proof (lstrip_length s). lia.
  - intros H. apply sub_ws_nil in H. now apply strip_nil_iff.
  - intros H. apply strip_nil_iff in H. now rewrite H.
Qed.

Lemma normalize_space_changes_whitespace_only_witness :
  " "%char = " "%char.
Proof.
  exact (proj1 (proj2 (normalize_space_changes_whitespace_only
                         ("a"%char :: "009"%char :: "010"%char :: lit "b")))
               " "%char (or_intror (or_introl eq_refl)) eq_refl).
Defined.

(** X2. [wildcard_match] is a preorder on texts: every text matches
    itself, and a query that matches a text matches every text that this
    text matches. Two texts that match each other have the same
    normalised lowercase form. A query of whitespace (or empty) matches
    every text. *)
Theorem wildcard_match_preorder (q t u : str) :
  wildcard_match q q = true
  /\ (wildcard_match q t = true -> wildcard_match t u = true ->
      wildcard_match q u = true)
  /\ (wildcard_match q t = true -> wildcard_match t q = true ->
      lower (normalize_space q) = lower (normalize_space t))
  /\ (all_space q = true -> wildcard_match q t = true).
Proof.
  unfold wildcard_match. rewrite !contains_iff. repeat split.
  - apply substring_refl.
  - apply substring_trans.
  - apply substring_antisym.
  - intros H.
    assert (E : normalize_space q = []).
    { unfold normalize_space. apply strip_nil_iff in H. now rewrite H. }
    rewrite E. exists [], (lower (normalize_space t)). reflexivity.
Qed.

Lemma wildcard_match_preorder_witness :
  wildcard_match (lit "drill") (lit "The Bosch  DRILL set") = true.
Proof.
  apply (proj1 (proj2 (wildcard_match_preorder
           (lit "drill") (lit "Bosch Drill") (lit "The Bosch  DRILL set"))));
    reflexivity.
Defined.

(* ================================================================== *)
(** * The walk over a JSON-LD value *)
(* ================================================================== *)

Section Walk.

(** Induction on a JSON value, with the hypothesis for every item of a
    list and every value of a dict. *)
Lemma json_induction (P : json -> Prop) :
  P JNull -> (forall b, P (JBool b)) -> (forall z, P (JInt z)) ->
  (forall f, P (JFloat f)) -> P JNaN -> (forall s, P (JStr s)) ->
  (forall items, Forall P items -> P (JArr items)) ->
  (forall members, Forall (fun kv => P (snd kv)) members -> P (JObj members)) ->
  forall v, P v.
Proof.
  intros HN HB HI HF HQ HS HA HO. fix IH 1. intros [| b | z | f | | s | items | members].
  - exact HN.
  - apply HB.
  - apply HI.
  - apply HF.
  - exact HQ.
  - apply HS.
  - apply HA. induction items as [|x r IHr]; constructor; [apply IH|exact IHr].
  - apply HO. induction members as [|[k x] r IHr]; constructor;
      [apply IH|exact IHr].
Qed.

Lemma walk_sound : forall node x,
  In x (walk node) -> Nested x node /\ typed_offer_object x = true.
Proof.
  intros node. induction node as [| | | | | |items IH|members IH]
    using json_induction; intros x Hx; simpl in Hx; try easy.
  - apply in_flat_map in Hx as (v & Hv & Hx).
    destruct (proj1 (Forall_forall _ _) IH v Hv x Hx) as [Hn Ht].
    split; [eapply nested_item; eauto|exact Ht].
  - apply in_app_or in Hx as [Hx|Hx].
    + destruct (has_offer_type members) eqn:E; [|easy].
      destruct Hx as [<-|[]]. split; [constructor|exact E].
    + apply in_flat_map in Hx as ([k v] & Hv & Hx).
      destruct (proj1 (Forall_forall _ _) IH (k, v) Hv x Hx) as [Hn Ht].
      split; [eapply nested_member; eauto|exact Ht].
Qed.

Lemma walk_complete x node :
  Nested x node -> typed_offer_object x = true -> In x (walk node).
Proof.
  induction 1 as [v|x v items Hv _ IH|x k v members Hv _ IH]; intros Ht.
  - destruct v; try discriminate. simpl in *. rewrite Ht. now left.
  - simpl. apply in_flat_map. exists v. auto.
  - simpl. apply in_or_app. right. apply in_flat_map. exists (k, v). auto.
Qed.

End Walk.

(** X3. The walk of [_extract_offers_from_jsonld_node] yields exactly the
    dicts typed [Product], [Offer] or [AggregateOffer] that occur in the
    node, at any depth below lists and dicts; a node that is neither a
    list nor a dict yields nothing. *)
Theorem walk_collects_typed_objects (node x : json) :
  (In x (walk node) <-> Nested x node /\ typed_offer_object x = true)
  /\ (hashable node = true -> walk node = []).
Proof.
  split; [split|].
  - apply walk_sound.
  - intros [Hn Ht]. now apply walk_complete.
  - now destruct node.
Qed.

Lemma walk_collects_typed_objects_witness :
  In (JObj [(lit "@type", JStr (lit "Offer")); (lit "price", JInt 5)])
     (walk Demo.ld_product_value).
Proof.
  apply (proj1 (walk_collects_typed_objects Demo.ld_product_value _)).
  split; [|reflexivity].
  eapply nested_member; [|apply nested_here].
  right. right. left. reflexivity.
Defined.

(* ================================================================== *)
(** * Where the offers of a page come from *)
(* ================================================================== *)

Section Origin.

Variable L : Lib.

Lemma normalize_space_of_normal v t :
  normalize_space_of v = Ok t -> normalize_space t = t.
Proof.
  unfold normalize_space_of.
  destruct (py_or v (JStr [])); try discriminate.
  intros [= <-]. apply normalize_space_idem.
Qed.

Lemma offers_of_walked_origin base_url obj r o :
  offers_of_walked L base_url obj = Ok r -> In o r -> from_offer_obj L o.
Proof.
  unfold offers_of_walked. intros H Ho.
  destruct obj as [| | | | | | |members]; try (injection H as <-; easy).
  destruct (is_str _ (lit "Product")).
  - destruct (normalize_space_of _) as [t|] eqn:Et; cbn [bind] in H;
      [|discriminate].
    apply normalize_space_of_normal in Et.
    destruct (dict_get members (lit "offers")) as [| | | | | |l|oo];
      try (injection H as <-; easy).
    + destruct (@for_each_In _ _ _ _ _ _ H Ho) as (node & rn & _ & Hn & Hin).
      destruct node as [| | | | | | |m]; try (injection Hn as <-; easy).
      exists m, t, base_url, rn. auto.
    + exists oo, t, base_url, r. auto.
  - destruct (_ || _).
    + destruct (normalize_space_of _) as [t|] eqn:Et; cbn [bind] in H;
        [|discriminate].
      apply normalize_space_of_normal in Et.
      exists members, t, base_url, r. auto.
    + injection H as <-. easy.
Qed.

Lemma script_offers_origin base_url sc o :
  In o (script_offers L base_url sc) -> from_offer_obj L o.
Proof.
  unfold script_offers. destruct (json_loads L _) as [data|]; [|easy].
  rewrite in_flat_map. intros (node & _ & Ho).
  destruct (_extract_offers_from_jsonld_node L node base_url) as [r|] eqn:E;
    [|easy].
  destruct (@for_each_In _ _ _ _ _ _ E Ho) as (obj & ro & _ & Hobj & Hin).
  eapply offers_of_walked_origin; eauto.
Qed.

Lemma selector_offers_origin query cfg u cards r o :
  selector_offers L query cfg u cards = Ok r -> In o r ->
  exists c, In c cards /\ card_offer L query cfg u c = Ok (Some o).
Proof.
  intros H Ho.
  destruct (@for_each_In _ _ _ _ _ _ H Ho) as (c & rc & Hc & Hf & Hin).
  exists c. split; [exact Hc|].
  destruct (card_offer L query cfg u c) as [[x|]|]; simpl in Hf;
    try discriminate; injection Hf as <-; [|easy].
  destruct Hin as [<-|[]]. reflexivity.
Qed.

(** What [page_offers] returns, step by step. *)
Lemma page_offers_steps query cfg u timeout_s found :
  page_offers L query cfg u timeout_s = Ok found ->
  exists html cards found1,
    fetch_html L u timeout_s = Ok html
    /\ match card_selector cfg with
       | [] => Ok []
       | _ :: _ => select (BeautifulSoup L html) (card_selector cfg)
       end = Ok cards
    /\ selector_offers L query cfg u (slice_to cards (max_results cfg))
       = Ok found1
    /\ found = found1 ++ jsonld_found L query cfg u html.
Proof.
  unfold page_offers. intros H.
  destruct (fetch_html L u timeout_s) as [html|]; simpl in H; [|discriminate].
  destruct (match card_selector cfg with [] => _ | _ => _ end) as [cards|] eqn:Ec;
    simpl in H; [|discriminate].
  destruct (selector_offers L query cfg u _) as [found1|] eqn:E1;
    simpl in H; [|discriminate].
  rewrite extract_jsonld_offers_flat in H. simpl in H. injection H as <-.
  exists html, cards, found1. repeat split; auto.
Qed.

Lemma found_offers_steps query cfg timeout_s sleep_s found :
  found_offers L query cfg timeout_s sleep_s = Ok found ->
  exists u, build_search_url cfg query = Ok u
            /\ page_offers L query cfg u timeout_s = Ok found.
Proof.
  unfold found_offers. intros H.
  destruct (build_search_url cfg query) as [u|]; simpl in H; [|discriminate].
  eauto.
Qed.

Lemma found_offers_origin query cfg timeout_s sleep_s found o :
  found_offers L query cfg timeout_s sleep_s = Ok found -> In o found ->
  from_card L query cfg o \/ from_jsonld L query cfg o.
Proof.
  intros H Ho. apply found_offers_steps in H as (u & _ & H).
  apply page_offers_steps in H as (html & cards & found1 & _ & _ & H1 & ->).
  apply in_app_or in Ho as [Ho|Ho].
  - left. destruct (@selector_offers_origin _ _ _ _ _ _ H1 Ho) as (c & _ & Hc).
    now exists u, c.
  - right. unfold jsonld_found in Ho.
    apply in_map_iff in Ho as (o' & <- & Ho').
    apply in_flat_map in Ho' as (sc & _ & Hsc).
    exists o'. split; [reflexivity|]. eapply script_offers_origin; eauto.
Qed.

Lemma returned_offer_found query cfg timeout_s sleep_s offers o :
  scrape_site L query cfg timeout_s sleep_s = Ok offers -> In o offers ->
  retained o = true
  /\ (from_card L query cfg o \/ from_jsonld L query cfg o).
Proof.
  intros H Ho. apply scrape_site_unfold in H as (found & Hf & ->).
  apply (subseq_In (keep_first_subseq _ _)) in Ho.
  apply filter_In in Ho as [Ho Hr]. split; [exact Hr|].
  eapply found_offers_origin; eauto.
Qed.

Lemma select_text_normal c sel t :
  select_text c sel = Ok t -> normalize_space t = t.
Proof.
  unfold select_text. destruct sel; [now intros [= <-]|].
  destruct (select_one c _) as [[x|]|]; simpl; try discriminate;
    intros [= <-]; [apply normalize_space_idem|reflexivity].
Qed.

(** The fields of an offer built from a card. *)
Lemma card_offer_fields query cfg u c o :
  card_offer L query cfg u c = Ok (Some o) ->
  exists title0 link a cur,
    normalize_space title0 = title0
    /\ select_link L u c (link_selector cfg) = Ok link
    /\ o = {| site := name cfg;
              title := str_or title0 (lit "(no title found)");
              price := Fl a;
              currency := JStr (str_or cur (str_or (currency_hint cfg) []));
              url := py_or link (JStr u);
              matched := match title0 with
                         | [] => true
                         | _ :: _ => wildcard_match query title0
                         end |}.
Proof.
  unfold card_offer. intros H.
  destruct (select_text c (title_selector cfg)) as [title0|] eqn:Et;
    simpl in H; [|discriminate].
  destruct (select_text c (price_selector cfg)) as [text|]; simpl in H;
    [|discriminate].
  destruct (select_link L u c _) as [link|]; simpl in H; [|discriminate].
  destruct (parse_price L text) as [[am cur]|]; simpl in H; [|discriminate].
  destruct am as [am|]; [|discriminate]. injection H as <-.
  exists title0, link, am, (match cur with Some s => s | None => [] end).
  split; [eapply select_text_normal; eauto|]. split; reflexivity.
Qed.

(** The fields of an offer built from an offer object. *)
Lemma offer_obj_fields offer title0 base_url r o :
  _offers_from_offer_obj L offer title0 base_url = Ok r -> In o r ->
  exists u p,
    absolutize_url L base_url (py_or (dict_get offer (lit "url")) (JStr [])) = Ok u
    /\ offer_price L offer = Some p
    /\ r = [o]
    /\ o = {| site := [];
              title := str_or title0 (lit "(JSON-LD Product)");
              price := p;
              currency := py_or (py_or (dict_get offer (lit "priceCurrency"))
                                       (JStr [])) (JStr []);
              url := py_or u (JStr base_url);
              matched := true |}.
Proof.
  unfold _offers_from_offer_obj. intros H Ho.
  destruct (absolutize_url L base_url _) as [u|]; simpl in H; [|discriminate].
  destruct (offer_price L offer) as [p|]; injection H as <-; [|easy].
  destruct Ho as [<-|[]]. exists u, p. auto.
Qed.

Lemma str_or_nonempty a b : b <> [] -> str_or a b <> [].
Proof. now destruct a. Qed.

End Origin.

(** X4. Every offer [scrape_site] returns carries the name of the site,
    has a title that is not empty and is whitespace-normalised, and either
    its title is one of the two placeholders for a missing title or the
    query matches its title. *)
Theorem returned_offers_match_query (L : Lib) (query : str) (cfg : SiteConfig)
    (timeout_s : Z) (sleep_s : float) (offers : list FoundOffer) (o : FoundOffer) :
  scrape_site L query cfg timeout_s sleep_s = Ok offers -> In o offers ->
  site o = name cfg
  /\ title o <> []
  /\ normalize_space (title o) = title o
  /\ (title o = lit "(no title found)" \/ title o = lit "(JSON-LD Product)"
      \/ wildcard_match query (title o) = true).
Proof.
  intros H Ho. destruct (@returned_offer_found _ _ _ _ _ _ _ H Ho) as [Hr Horigin].
  assert (Hkeep : matched o = wildcard_match query (title o)
                  \/ title o = lit "(no title found)" ->
                  title o = lit "(no title found)"
                  \/ title o = lit "(JSON-LD Product)"
                  \/ wildcard_match query (title o) = true).
  { intros [Hm|Ht]; [|auto]. unfold retained in Hr.
    apply orb_true_iff in Hr as [Hr|Hr];
      [apply orb_true_iff in Hr as [Hr|Hr]|].
    - right. right. congruence.
    - left. now apply str_eqb_eq.
    - right. left. now apply str_eqb_eq. }
  destruct Horigin as [(u & c & Hc)|(o' & -> & offer & t0 & b & r & Hn & Hobj & Hin)].
  - apply card_offer_fields in Hc as (t0 & link & a & cur & Hn & _ & ->).
    simpl in *. repeat split.
    + now apply str_or_nonempty.
    + destruct t0; [reflexivity|exact Hn].
    + apply Hkeep. destruct t0; [now right|now left].
  - destruct (@offer_obj_fields _ _ _ _ _ _ Hobj Hin) as (u & p & _ & _ & _ & ->).
    simpl in *.
    assert (Hne : str_or t0 (lit "(JSON-LD Product)") <> [])
      by now apply str_or_nonempty.
    repeat split.
    + exact Hne.
    + destruct t0; [reflexivity|exact Hn].
    + apply Hkeep. left. destruct t0; reflexivity.
Qed.

Lemma returned_offers_match_query_witness :
  wildcard_match (lit "drill") (lit "drill") = true.
Proof.
  destruct (@returned_offers_match_query (Demo.lib Demo.ld_product) (lit "drill")
              (Demo.site "https://example.com/s?q={query}") 20 0%float
              [ {| site := lit "Shop"; title := lit "drill"; price := Fl 5%float;
                   currency := JStr [];
                   url := JStr (lit "https://example.com/s?q=drill");
                   matched := true |} ]
              {| site := lit "Shop"; title := lit "drill"; price := Fl 5%float;
                 currency := JStr [];
                 url := JStr (lit "https://example.com/s?q=drill");
                 matched := true |})
    as (_ & _ & _ & [H|[H|H]]).
  - vm_compute. reflexivity.
  - left. reflexivity.
  - discriminate H.
  - discriminate H.
  - exact H.
Defined.

(** X5. With a currency hint configured, no offer [scrape_site] returns
    has an empty currency: where the extraction gave none, the hint
    stands. *)
Theorem currency_hint_fills_gaps (L : Lib) (query : str) (cfg : SiteConfig)
    (timeout_s : Z) (sleep_s : float) (offers : list FoundOffer) (o : FoundOffer) :
  currency_hint cfg <> [] ->
  scrape_site L query cfg timeout_s sleep_s = Ok offers -> In o offers ->
  truthy (currency o) = true
  /\ (forall o', truthy (currency o') = false ->
        currency (tag_jsonld_offer query cfg o') = JStr (currency_hint cfg)).
Proof.
  intros Hh H Ho. split.
  - destruct (@returned_offer_found _ _ _ _ _ _ _ H Ho) as [_ Horigin].
    destruct Horigin as [(u & c & Hc)|(o' & -> & _)].
    + apply card_offer_fields in Hc as (t0 & link & a & cur & _ & _ & ->).
      simpl. destruct cur; simpl; [|reflexivity].
      destruct (currency_hint cfg); [easy|reflexivity].
    + simpl. destruct (currency_hint cfg) eqn:E; [easy|].
      now destruct (truthy (currency o')) eqn:Et.
  - intros o' Ht. simpl. rewrite Ht.
    destruct (currency_hint cfg); [easy|reflexivity].
Qed.

Lemma currency_hint_fills_gaps_witness :
  truthy (JStr (lit "GBP")) = true.
Proof.
  refine (proj1 (@currency_hint_fills_gaps (Demo.lib Demo.ld_product) (lit "drill")
            (mkSiteConfig (lit "Shop") (lit "https://example.com/s?q={query}")
                          [] [] [] [] (lit "GBP") 10)
            20 0%float
            [ {| site := lit "Shop"; title := lit "drill"; price := Fl 5%float;
                 currency := JStr (lit "GBP");
                 url := JStr (lit "https://example.com/s?q=drill");
                 matched := true |} ]
            {| site := lit "Shop"; title := lit "drill"; price := Fl 5%float;
               currency := JStr (lit "GBP");
               url := JStr (lit "https://example.com/s?q=drill");
               matched := true |} _ _ _)).
  - discriminate.
  - vm_compute. reflexivity.
  - left. reflexivity.
Defined.

(* ================================================================== *)
(** * The selector path *)
(* ================================================================== *)

Section SelectorPath.

Variable L : Lib.





Lemma card_offer_no_price_selector query cfg u c r :
  price_selector cfg = [] ->
  card_offer L query cfg u c = Ok r -> r = None.
Proof.
  intros Hp. unfold card_offer. rewrite Hp.
  destruct (select_text c (title_selector cfg)); simpl; [|discriminate].
  destruct (select_link L u c _); simpl; [|discriminate].
  now intros [= <-].
Qed.

Lemma selector_offers_no_price_selector query cfg u cards r :
  price_selector cfg = [] ->
  selector_offers L query cfg u cards = Ok r -> r = [].
Proof.
  intros Hp H. destruct r as [|o r]; [reflexivity|].
  destruct (@selector_offers_origin L _ _ _ _ _ o H (or_introl eq_refl))
    as (c & _ & Hc).
  apply (card_offer_no_price_selector _ _ _ _ Hp) in Hc. discriminate.
Qed.

End SelectorPath.



(** X7. When no card selector or no price selector is configured, the
    selectors add nothing: what [scrape_site] finds on the page, before
    the filter, is exactly the tagged offers of its JSON-LD blocks.
    Without a card selector the page is not even queried for cards, so
    this holds whenever the page could be fetched. *)
Theorem only_jsonld_without_selectors (L : Lib) (query : str)
    (cfg : SiteConfig) (u : str) (timeout_s : Z) :
  (card_selector cfg = [] ->
   page_offers L query cfg u timeout_s
   = (html <- fetch_html L u timeout_s ;; Ok (jsonld_found L query cfg u html)))
  /\ (price_selector cfg = [] ->
      forall found, page_offers L query cfg u timeout_s = Ok found ->
      exists html, fetch_html L u timeout_s = Ok html
                   /\ found = jsonld_found L query cfg u html).
Proof.
  split.
  - intros Hc. unfold page_offers. rewrite Hc.
    destruct (fetch_html L u timeout_s) as [html|]; simpl; [|reflexivity].
    destruct (max_results cfg) as [|p|p]; unfold slice_to; simpl;
      rewrite ?firstn_nil; simpl; rewrite extract_jsonld_offers_flat;
      reflexivity.
  - intros Hp found H.
    apply page_offers_steps in H as (html & cards & found1 & Hf & _ & H1 & ->).
    apply (selector_offers_no_price_selector _ _ _ _ _ Hp) in H1. subst found1.
    exists html. auto.
Qed.

Lemma only_jsonld_without_selectors_witness :
  page_offers (Demo.lib Demo.ld_negative) (lit "drill")
              (Demo.site "https://example.com/s?q={query}")
              (lit "https://example.com/s?q=drill") 20
  = Ok (jsonld_found (Demo.lib Demo.ld_negative) (lit "drill")
          (Demo.site "https://example.com/s?q={query}")
          (lit "https://example.com/s?q=drill") Demo.ld_negative).
Proof.
  exact (proj1 (only_jsonld_without_selectors (Demo.lib Demo.ld_negative)
                  (lit "drill") (Demo.site "https://example.com/s?q={query}")
                  (lit "https://example.com/s?q=drill") 20) eq_refl).
Defined.

(* ================================================================== *)
(** * Links *)
(* ================================================================== *)

(** X8. An offer falls back to the URL it was found at. A JSON-LD offer
    object whose [url] is absent, null or empty gives an offer whose URL
    is the base URL; a card gives the search URL when no link selector is
    configured. [absolutize_url] returns the empty string for every
    empty value. Against a base that is not empty, a [url] that is not a
    string (and is not empty) makes the extraction of the offer object
    raise. *)
Theorem url_falls_back_to_page (L : Lib) :
  (forall offer title0 base_url r o,
     truthy (dict_get offer (lit "url")) = false ->
     _offers_from_offer_obj L offer title0 base_url = Ok r -> In o r ->
     url o = JStr base_url)
  /\ (forall query cfg u c o,
        link_selector cfg = [] ->
        card_offer L query cfg u c = Ok (Some o) -> url o = JStr u)
  /\ (forall base v, truthy v = false -> absolutize_url L base v = Ok (JStr []))
  /\ (forall offer title0 base_url,
        base_url <> [] ->
        truthy (dict_get offer (lit "url")) = true ->
        (forall s, dict_get offer (lit "url") <> JStr s) ->
        exists e, _offers_from_offer_obj L offer title0 base_url = Raise e).
Proof.
  repeat split.
  - intros offer t b r o Hu H Ho.
    destruct (@offer_obj_fields L _ _ _ _ _ H Ho) as (u & p & Ha & _ & _ & ->).
    simpl. unfold py_or in Ha. rewrite Hu in Ha.
    unfold absolutize_url in Ha. simpl in Ha. injection Ha as <-. reflexivity.
  - intros query cfg u c o Hl H.
    apply card_offer_fields in H as (t0 & link & a & cur & _ & Hs & ->).
    rewrite Hl in Hs. simpl in Hs. injection Hs as <-. reflexivity.
  - intros base v Hv. unfold absolutize_url. now rewrite Hv.
  - intros offer t b Hb Hu Hs. unfold _offers_from_offer_obj, py_or.
    rewrite Hu. unfold absolutize_url, urljoin. rewrite Hu.
    destruct b as [|b0 b]; [easy|].
    destruct (dict_get offer (lit "url")) as [|? |? |? | |s|? |?];
      try discriminate Hu; try (eexists; reflexivity).
    now destruct (Hs s).
Qed.

Lemma url_falls_back_to_page_witness :
  url {| site := []; title := lit "(JSON-LD Product)"; price := Fl (-5)%float;
         currency := JStr []; url := JStr (lit "https://example.com/");
         matched := true |}
  = JStr (lit "https://example.com/").
Proof.
  apply (proj1 (url_falls_back_to_page (Demo.lib []))
           [ (lit "@type", JStr (lit "Offer")); (lit "price", JInt (-5)) ]
           [] (lit "https://example.com/")
           [ {| site := []; title := lit "(JSON-LD Product)";
                price := Fl (-5)%float; currency := JStr [];
                url := JStr (lit "https://example.com/"); matched := true |} ]).
  - reflexivity.
  - vm_compute. reflexivity.
  - left. reflexivity.
Defined.

(* ================================================================== *)
(** * Hashing the keys *)
(* ================================================================== *)

Section Hashing.

Lemma atom_of_ok v : (exists a, atom_of v = Ok a) <-> hashable v = true.
Proof.
  destruct v; simpl; split; try easy; try (intros _; eexists; reflexivity);
    intros [a H]; discriminate.
Qed.

Lemma offer_key_ok x :
  (exists k, offer_key x = Ok k)
  <-> hashable (url x) = true /\ hashable (currency x) = true.
Proof.
  unfold offer_key. rewrite <- !atom_of_ok. split.
  - intros [k H].
    destruct (atom_of (url x)) as [u|]; simpl in H; [|discriminate].
    destruct (atom_of (currency x)) as [c|]; simpl in H; [|discriminate].
    eauto.
  - intros [[u ->] [c ->]]. simpl. eauto.
Qed.

Lemma dedup_loop_ok xs : forall d,
  (exists d', dedup_loop d xs = Ok d')
  <-> Forall (fun x => hashable (url x) = true /\ hashable (currency x) = true) xs.
Proof.
  induction xs as [|x r IH]; intros d; simpl.
  - split; [constructor|eauto].
  - rewrite Forall_cons_iff, <- offer_key_ok. split.
    + intros [d' H]. destruct (offer_key x) as [k|]; simpl in H; [|discriminate].
      split; [eauto|]. destruct (has_key d k); eapply IH; eauto.
    + intros [[k ->] Hr]. simpl. destruct (has_key d k); now apply IH.
Qed.

End Hashing.

(** X9. [scrape_site] returns a list exactly when the page gives its
    offers and every offer that passes the filter has a URL and a
    currency that can be hashed; an offer that passes the filter with a
    list or a dict as currency (or URL) makes the whole call raise. *)
Theorem scrape_site_needs_hashable_keys (L : Lib) (query : str)
    (cfg : SiteConfig) (timeout_s : Z) (sleep_s : float)
    (found : list FoundOffer) :
  found_offers L query cfg timeout_s sleep_s = Ok found ->
  ((exists offers, scrape_site L query cfg timeout_s sleep_s = Ok offers)
   <-> forall x, In x found -> retained x = true ->
                 hashable (url x) = true /\ hashable (currency x) = true).
Proof.
  intros Hf. unfold scrape_site. rewrite Hf. simpl.
  pose proof (dedup_loop_ok (filter retained found) []) as Hd.
  rewrite Forall_forall in Hd. split.
  - intros [offers H] x Hx Hr. apply (proj1 Hd).
    + destruct (dedup_loop [] (filter retained found)); [eauto|discriminate].
    + apply filter_In. auto.
  - intros H. destruct (proj2 Hd) as [d' Hd'].
    + intros x Hx. apply filter_In in Hx as [Hx Hr]. auto.
    + rewrite Hd'. simpl. eauto.
Qed.

Lemma scrape_site_needs_hashable_keys_witness :
  exists offers,
    scrape_site (Demo.lib Demo.ld_product) (lit "drill")
                (Demo.site "https://example.com/s?q={query}") 20 0%float
    = Ok offers.
Proof.
  refine (proj2 (@scrape_site_needs_hashable_keys (Demo.lib Demo.ld_product)
            (lit "drill") (Demo.site "https://example.com/s?q={query}")
            20 0%float _ _) _).
  - vm_compute. reflexivity.
  - intros x [<-|[<-|[]]] _; split; reflexivity.
Defined.

(* ================================================================== *)
(** * The loop over the sites and the run block *)
(* ================================================================== *)

Section Run.

Variables (L : Lib) (query : str) (timeout : Z) (delay : float).

Lemma site_loop_rows (rows : list Row) :
  site_loop L query timeout delay rows [] []
  = (flat_map (row_offers L query timeout delay) rows,
     flat_map (row_errors L query timeout delay) rows).
Proof.
  induction rows as [|row rest IH]; [reflexivity|].
  cbn [site_loop flat_map]. unfold row_offers at 1, row_errors at 1.
  destruct (scrape_row L query timeout delay row) as [offers|e];
    rewrite site_loop_acc, IH; simpl; now rewrite ?app_nil_r.
Qed.

Lemma row_errors_length row :
  List.length (row_errors L query timeout delay row) <= 1.
Proof.
  unfold row_errors. destruct (scrape_row L query timeout delay row); simpl; lia.
Qed.

Lemma flat_map_length_le {A B : Type} (f : A -> list B) (l : list A) :
  (forall a, List.length (f a) <= 1) ->
  List.length (flat_map f l) <= List.length l.
Proof.
  intros H. induction l as [|a l IH]; simpl; [lia|].
  rewrite length_app. specialize (H a). lia.
Qed.


Lemma leb_refl (x : float) :
  PrimFloat.is_nan x = false -> PrimFloat.leb x x = true.
Proof.
  unfold PrimFloat.is_nan. rewrite negb_false_iff, eqb_spec, leb_spec.
  unfold SFeqb, SFleb. now destruct (SFcompare _ _) as [[]|].
Qed.

End Run.

(** X10. The loop over the sites keeps the sites apart: the combined
    offers are the offers of the rows one after the other, in the order
    of the rows, and the errors are the entries of the rows that raised,
    in that order. So a row adds offers or one error entry, never both,
    there are at most as many errors as rows, and the offers of one site
    are never merged with, or dropped for, those of another. *)
Theorem site_loop_keeps_sites_apart (L : Lib) (query : str) (timeout : Z)
    (delay : float) (rows : list Row) :
  site_loop L query timeout delay rows [] []
  = (flat_map (row_offers L query timeout delay) rows,
     flat_map (row_errors L query timeout delay) rows)
  /\ List.length (snd (site_loop L query timeout delay rows [] []))
     <= List.length rows
  /\ (forall row, row_offers L query timeout delay row = []
                  \/ row_errors L query timeout delay row = [])
  /\ (forall row, fst (site_loop L query timeout delay [row; row] [] [])
                  = row_offers L query timeout delay row
                    ++ row_offers L query timeout delay row).
Proof.
  repeat split.
  - apply site_loop_rows.
  - rewrite site_loop_rows. simpl. apply flat_map_length_le.
    apply row_errors_length.
  - intros row. unfold row_offers, row_errors.
    destruct (scrape_row L query timeout delay row); auto.
  - intros row. rewrite site_loop_rows. simpl. now rewrite app_nil_r.
Qed.



(** X12. The run block stops at once, whatever the sites, exactly when
    the query is empty or made of whitespace; otherwise it reports that
    no price was found exactly when no site gave an offer, and else shows
    a table with as many rows as offers were collected. *)
Theorem run_outcomes (L : Lib) (S : SortValues) (query : str)
    (rows : list Row) (timeout : Z) (delay : float) :
  (run L S query rows timeout delay = BlankQuery <-> all_space query = true)
  /\ (all_space query = false ->
      (fst (site_loop L query timeout delay rows [] []) = []
       <-> run L S query rows timeout delay
           = NoPrices (snd (site_loop L query timeout delay rows [] []))))
  /\ (forall table errors,
        run L S query rows timeout delay = Shown table errors ->
        List.length table
        = List.length (fst (site_loop L query timeout delay rows [] []))
        /\ table <> []).
Proof.
  unfold run. split; [|split].
  - rewrite <- strip_nil_iff. destruct (strip query); [easy|].
    destruct (site_loop L query timeout delay rows [] []) as [results errs].
    destruct results; easy.
  - intros Hq. destruct (strip query) as [|c r] eqn:Eq.
    + apply strip_nil_iff in Eq. congruence.
    + destruct (site_loop L query timeout delay rows [] []) as [results errs].
      destruct results; simpl; easy.
  - intros table errors H. destruct (strip query); [discriminate|].
    destruct (site_loop L query timeout delay rows [] []) as [results errs].
    destruct results as [|x results]; [discriminate|].
    injection H as <- <-.
    pose proof (Permutation_length (sort_values_perm S (x :: results))) as Hl.
    simpl in *. split; [lia|]. intros E. rewrite E in Hl. discriminate.
Qed.

Lemma run_outcomes_witness :
  run (Demo.lib []) (mkSortValues Demo.sort_ties_reversed
                       sort_ties_reversed_perm sort_ties_reversed_ascending)
      (lit "  ") [Demo.row "Shop" "https://example.com/s?q={query}"] 20 0%float
  = BlankQuery.
Proof.
  apply (proj2 (proj1 (run_outcomes (Demo.lib [])
           (mkSortValues Demo.sort_ties_reversed
              sort_ties_reversed_perm sort_ties_reversed_ascending)
           (lit "  ") [Demo.row "Shop" "https://example.com/s?q={query}"]
           20 0%float))).
  reflexivity.
Defined.

(** X13. The best offer the run block announces, the first row of the
    sorted table, is a cheapest one: when the table has an offer whose
    price is a number, the price of the best offer is a number and is at
    most the price of every such offer. *)
Theorem best_offer_is_cheapest (L : Lib) (S : SortValues) (query : str)
    (rows : list Row) (timeout : Z) (delay : float)
    (table : list FoundOffer) (errors : list str) (x : FoundOffer) :
  run L S query rows timeout delay = Shown table errors ->
  In x table -> price_is_nan x = false ->
  exists b, best (run L S query rows timeout delay) = Some b
            /\ price_is_nan b = false
            /\ price_leb b x = true.
Proof.
  intros H Hx Hn. rewrite H.
  assert (Ha : Ascending table).
  { unfold run in H. destruct (strip query); [discriminate|].
    destruct (site_loop L query timeout delay rows [] []) as [results errs].
    destruct results; [discriminate|]. injection H as <- <-.
    apply sort_values_ascending. }
  destruct Ha as (nums & nans & -> & Hnum & Hnan & Hs).
  assert (Hin : In x nums).
  { apply in_app_or in Hx as [Hx|Hx]; [exact Hx|].
    rewrite forallb_forall in Hnan. rewrite (Hnan x Hx) in Hn. discriminate. }
  destruct nums as [|b nums]; [easy|].
  exists b. simpl. split; [reflexivity|].
  simpl in Hnum. apply andb_true_iff in Hnum as [Hb _].
  unfold numeric in Hb. apply negb_true_iff in Hb. split; [exact Hb|].
  destruct Hin as [<-|Hin].
  - unfold price_leb. now apply leb_refl.
  - inversion Hs as [|? ? _ Hall]; subst.
    exact (proj1 (Forall_forall _ _) Hall x Hin).
Qed.

Lemma best_offer_is_cheapest_witness :
  exists b,
    best (run (Demo.lib Demo.ld_pair)
              (mkSortValues Demo.sort_ties_reversed
                 sort_ties_reversed_perm sort_ties_reversed_ascending)
              (lit "o") [Demo.row "Shop" "https://example.com/s?q={query}"]
              20 0%float) = Some b
    /\ price_is_nan b = false
    /\ price_leb b {| site := lit "Shop"; title := lit "one";
                      price := Fl 5%float; currency := JStr (lit "GBP");
                      url := JStr (lit "https://example.com/s?q=o");
                      matched := true |} = true.
Proof.
  eapply (@best_offer_is_cheapest (Demo.lib Demo.ld_pair)
            (mkSortValues Demo.sort_ties_reversed
               sort_ties_reversed_perm sort_ties_reversed_ascending)
            (lit "o") [Demo.row "Shop" "https://example.com/s?q={query}"]
            20 0%float).
  - vm_compute. reflexivity.
  - right. left. reflexivity.
  - reflexivity.
Defined.

(* ================================================================== *)
(** * More on [parse_price], the configuration and the duplicates *)
(* ================================================================== *)

Section MoreFacts.

Lemma spec_cleaned_chars s c :
  In c (spec_cleaned s) -> isdigit c = true \/ c = "."%char.
Proof.
  unfold spec_cleaned. rewrite !filter_In. intros [[_ Hk] Hc].
  apply negb_true_iff in Hc. rewrite Hc, orb_false_r in Hk.
  apply orb_true_iff in Hk as [Hk|Hk]; [now left|right].
  now apply chr_eqb_eq.
Qed.

Lemma spec_cleaned_app a b :
  spec_cleaned (a ++ b) = spec_cleaned a ++ spec_cleaned b.
Proof. unfold spec_cleaned. now rewrite !filter_app. Qed.

Lemma spec_cleaned_drop c :
  isdigit c = false -> c <> "."%char -> spec_cleaned [c] = [].
Proof.
  intros Hd Hp. unfold spec_cleaned. simpl. rewrite Hd. simpl.
  destruct (chr_eqb c "."%char) eqn:E; [now apply chr_eqb_eq in E|]. simpl.
  destruct (chr_eqb c ","%char) eqn:E'; simpl; [|reflexivity]. now rewrite E'.
Qed.

Lemma for_each_raises {A B : Type} (f : A -> Result (list B)) (l : list A) a e :
  In a l -> f a = Raise e -> exists e', for_each f l = Raise e'.
Proof.
  induction l as [|x l IH]; intros Ha Hf; [easy|]. simpl.
  destruct Ha as [->|Ha].
  - rewrite Hf. simpl. eauto.
  - destruct (f x); simpl; [|eauto].
    destruct (IH Ha Hf) as [e' ->]. simpl. eauto.
Qed.

Lemma keep_first_covers (l : list FoundOffer) : forall e x,
  In x l ->
  In x (keep_first e l)
  \/ exists y, (In y e \/ In y (keep_first e l)) /\ same_triple y x = true.
Proof.
  induction l as [|a r IH]; intros e x Hx; [easy|]. simpl.
  destruct Hx as [->|Hx].
  - destruct (existsb (fun y => same_triple y x) e) eqn:E; simpl; [|auto].
    apply existsb_exists in E as (y & Hy & Hs). right. exists y. auto.
  - destruct (IH (e ++ [a]) x Hx) as [H|(y & [Hy|Hy] & Hs)].
    + left. apply in_or_app. auto.
    + apply in_app_or in Hy as [Hy|[<-|[]]].
      * right. exists y. auto.
      * destruct (existsb (fun z => same_triple z a) e) eqn:E; simpl.
        -- apply existsb_exists in E as (z & Hz & Hza).
           right. exists z. split; [auto|].
           eapply same_triple_trans; eauto.
        -- right. exists a. split; [right; now left|exact Hs].
    + right. exists y. split; [right; apply in_or_app; auto|exact Hs].
Qed.

Lemma keep_first_no_duplicates (l : list FoundOffer) : forall e,
  (forall y x, In y e -> In x l -> same_triple y x = false) ->
  ForallOrdPairs (fun x y => same_triple x y = false) l ->
  keep_first e l = l.
Proof.
  induction l as [|a r IH]; intros e He Hl; [reflexivity|]. simpl.
  inversion Hl as [|? ? Ha Hr]; subst.
  assert (E : existsb (fun y => same_triple y a) e = false).
  { destruct (existsb _ e) eqn:E; [|reflexivity].
    apply existsb_exists in E as (y & Hy & Hs).
    rewrite (He y a Hy (or_introl eq_refl)) in Hs. discriminate. }
  rewrite E. simpl. f_equal. apply IH; [|exact Hr].
  intros y x Hy Hx. apply in_app_or in Hy as [Hy|[<-|[]]].
  - apply He; [exact Hy|now right].
  - exact (proj1 (Forall_forall _ _) Ha x Hx).
Qed.

End MoreFacts.

(** X14. In the fallback of [parse_price] only digits and dots reach
    [float]: the cleaned text has no other character, so a sign, an
    exponent letter, a currency symbol or a comma never does; and
    dropping from the text a character that is neither a digit nor a dot
    changes nothing of what the fallback returns. *)
Theorem fallback_reads_digits_and_dots (L : Lib) (a b : str) (c : ascii) :
  (forall x, In x (replace (re_sub_class PRICE_SANITIZE_RE [] (a ++ c :: b))
                           (lit ",") []) ->
             isdigit x = true \/ x = "."%char)
  /\ (isdigit c = false -> c <> "."%char ->
      a ++ b <> [] ->
      amount (Price_fromstring L (a ++ c :: b)) = None ->
      amount (Price_fromstring L (a ++ b)) = None ->
      parse_price L (a ++ c :: b) = parse_price L (a ++ b)).
Proof.
  split.
  - intros x. rewrite cleaned_eq. apply spec_cleaned_chars.
  - intros Hd Hp Hne H1 H2.
    rewrite !parse_price_unfold by (try assumption; now destruct a).
    rewrite H1, H2.
    change (a ++ c :: b) with (a ++ [c] ++ b).
    now rewrite !spec_cleaned_app, (spec_cleaned_drop Hd Hp).
Qed.

Lemma fallback_reads_digits_and_dots_witness :
  parse_price (Demo.lib []) (lit "no" ++ "-"%char :: lit " price")
  = parse_price (Demo.lib []) (lit "no" ++ lit " price").
Proof.
  apply (proj2 (fallback_reads_digits_and_dots (Demo.lib [])
                  (lit "no") (lit " price") "-"%char));
    (reflexivity || discriminate).
Defined.

(** X15. The configuration built from a row always has a name, the
    default one when the name cell is blank, and none of its text fields
    starts or ends with whitespace; the limit is the number of the cell
    or 10. So every offer the loop collects carries a site name that is
    not empty. *)
Theorem config_of_row_is_tidy (row : Row) :
  name (config_of_row row) <> []
  /\ (all_space (row_name row) = true ->
      name (config_of_row row) = lit "Unnamed site")
  /\ strip (name (config_of_row row)) = name (config_of_row row)
  /\ strip (search_url_template (config_of_row row))
     = search_url_template (config_of_row row)
  /\ strip (card_selector (config_of_row row)) = card_selector (config_of_row row)
  /\ strip (title_selector (config_of_row row)) = title_selector (config_of_row row)
  /\ strip (price_selector (config_of_row row)) = price_selector (config_of_row row)
  /\ strip (link_selector (config_of_row row)) = link_selector (config_of_row row)
  /\ strip (currency_hint (config_of_row row)) = currency_hint (config_of_row row)
  /\ (row_max_results row = None -> max_results (config_of_row row) = 10%Z).
Proof.
  assert (Hs : forall s, strip (strip s) = strip s).
  { intros s. apply strip_fixed; [apply strip_no_lead|apply strip_no_trail]. }
  cbn [config_of_row name search_url_template card_selector title_selector
       price_selector link_selector currency_hint max_results].
  split; [now apply str_or_nonempty|].
  split; [intros H; apply strip_nil_iff in H; now rewrite H|].
  split.
  { pose proof (Hs (row_name row)) as Hn.
    destruct (strip (row_name row)); [reflexivity|exact Hn]. }
  repeat split; try apply Hs. now intros ->.
Qed.

Lemma config_of_row_is_tidy_witness :
  name (config_of_row (Demo.row "  " "https://example.com/s?q={query}"))
  = lit "Unnamed site".
Proof.
  apply (proj1 (proj2 (config_of_row_is_tidy
           (Demo.row "  " "https://example.com/s?q={query}")))).
  reflexivity.
Defined.

(** X17. One bad name silences a whole top-level node: when a node
    holds, at any depth, a dict typed [Product], [Offer] or
    [AggregateOffer] whose [name] is not empty and not a string, the
    extraction of the node raises, and the node gives no offer, not even
    those of its other objects. *)
Theorem bad_name_silences_node (L : Lib) (base_url : str) (node : json)
    (members : list (str * json)) :
  Nested (JObj members) node ->
  has_offer_type members = true ->
  truthy (dict_get members (lit "name")) = true ->
  (forall s, dict_get members (lit "name") <> JStr s) ->
  (exists e, _extract_offers_from_jsonld_node L node base_url = Raise e)
  /\ (forall sc data, json_loads L (get_text sc []) = Ok data ->
        top_nodes data = [node] ->
        script_offers L base_url sc = []).
Proof.
  intros Hn Ht Hname Hstr.
  assert (Hw : exists e, offers_of_walked L base_url (JObj members) = Raise e).
  { unfold offers_of_walked. unfold has_offer_type in Ht. cbv zeta in Ht.
    assert (En : exists e, normalize_space_of
                   (py_or (dict_get members (lit "name")) (JStr [])) = Raise e).
    { unfold normalize_space_of, py_or. rewrite Hname, Hname.
      destruct (dict_get members (lit "name")) as [|? |? |? | |s|? |?];
        try (eexists; reflexivity). now destruct (Hstr s). }
    destruct En as [e En]. rewrite En.
    destruct (is_str _ (lit "Product")) eqn:Ep; [simpl; eauto|].
    rewrite orb_false_l in Ht. rewrite Ht. simpl. eauto. }
  destruct Hw as [e Hw].
  assert (Hx : exists e', _extract_offers_from_jsonld_node L node base_url = Raise e').
  { unfold _extract_offers_from_jsonld_node.
    eapply for_each_raises; [|exact Hw]. now apply walk_complete. }
  split; [exact Hx|].
  intros sc data Hl Htop. unfold script_offers. rewrite Hl, Htop.
  destruct Hx as [e' Hx]. simpl. now rewrite Hx.
Qed.

Lemma bad_name_silences_node_witness :
  exists e,
    _extract_offers_from_jsonld_node (Demo.lib []) (JObj
      [ (lit "@type", JStr (lit "Product")); (lit "name", JInt 7);
        (lit "offers", JObj [ (lit "@type", JStr (lit "Offer"));
                              (lit "price", JInt 5) ]) ]) [] = Raise e.
Proof.
  apply (proj1 (@bad_name_silences_node (Demo.lib []) []
           (JObj [ (lit "@type", JStr (lit "Product")); (lit "name", JInt 7);
                   (lit "offers", JObj [ (lit "@type", JStr (lit "Offer"));
                                         (lit "price", JInt 5) ]) ])
           [ (lit "@type", JStr (lit "Product")); (lit "name", JInt 7);
             (lit "offers", JObj [ (lit "@type", JStr (lit "Offer"));
                                   (lit "price", JInt 5) ]) ]
           (nested_here _) eq_refl eq_refl ltac:(discriminate))).
Defined.

(** X18. The offers of a product carry the name of the product: for a
    dict typed [Product] whose [name] is a string, every offer built from
    its [offers] (one object, or the objects of a list) has as title the
    normalised name, or the placeholder when that is empty; and each
    offer object gives at most one offer. *)
Theorem product_offers_carry_its_name (L : Lib) (base_url : str)
    (members : list (str * json)) (s : str) (r : list FoundOffer) (o : FoundOffer) :
  is_str (dict_get members (lit "@type")) (lit "Product") = true ->
  dict_get members (lit "name") = JStr s ->
  offers_of_walked L base_url (JObj members) = Ok r -> In o r ->
  title o = str_or (normalize_space s) (lit "(JSON-LD Product)")
  /\ site o = [] /\ matched o = true
  /\ (forall oo, dict_get members (lit "offers") = JObj oo -> r = [o]).
Proof.
  intros Ht Hn H Ho. unfold offers_of_walked in H. rewrite Ht, Hn in H.
  assert (En : normalize_space_of (py_or (JStr s) (JStr []))
               = Ok (normalize_space s)).
  { unfold normalize_space_of, py_or. destruct s; reflexivity. }
  rewrite En in H. cbn [bind] in H.
  destruct (dict_get members (lit "offers")) as [|? |? |? | |? |l|oo];
    try (injection H as <-; easy).
  - destruct (@for_each_In _ _ _ _ _ _ H Ho) as (node & rn & _ & Hnode & Hin).
    destruct node as [|? |? |? | |? |? |m]; try (injection Hnode as <-; easy).
    destruct (@offer_obj_fields L _ _ _ _ _ Hnode Hin) as (u & p & _ & _ & _ & ->).
    repeat split. discriminate.
  - destruct (@offer_obj_fields L _ _ _ _ _ H Ho) as (u & p & _ & _ & Hr & ->).
    repeat split. intros oo' _. exact Hr.
Qed.

Lemma product_offers_carry_its_name_witness :
  title {| site := []; title := lit "drill"; price := Fl 5%float;
           currency := JStr []; url := JStr (lit "https://example.com/");
           matched := true |}
  = str_or (normalize_space (lit "drill")) (lit "(JSON-LD Product)").
Proof.
  apply (proj1 (@product_offers_carry_its_name (Demo.lib [])
           (lit "https://example.com/")
           [ (lit "@type", JStr (lit "Product")); (lit "name", JStr (lit "drill"));
             (lit "offers", JObj [ (lit "@type", JStr (lit "Offer"));
                                   (lit "price", JInt 5) ]) ]
           (lit "drill")
           [ {| site := []; title := lit "drill"; price := Fl 5%float;
                currency := JStr []; url := JStr (lit "https://example.com/");
                matched := true |} ]
           _ eq_refl eq_refl ltac:(vm_compute; reflexivity) (or_introl eq_refl))).
Defined.

(* ================================================================== *)
(** * Equality of floats and equality of keys *)
(* ================================================================== *)

Section FloatEquality.

Lemma odd_part_spec (p : positive) : forall o k,
  odd_part p = (o, k) ->
  (0 <= k)%Z
  /\ Zpos (digits2_pos p) = (Zpos (digits2_pos o) + k)%Z
  /\ Zpos p = (Zpos o * 2 ^ k)%Z.
Proof.
  induction p as [q IH|q IH|]; intros o k H; simpl in H.
  - injection H as <- <-. repeat split; lia.
  - destruct (odd_part q) as [m k'] eqn:E. injection H as <- <-.
    destruct (IH m k' eq_refl) as (H0 & Hd & Hv). repeat split.
    + lia.
    + cbn [digits2_pos]. rewrite Pos2Z.inj_succ. lia.
    + rewrite Z.pow_add_r, Z.pow_1_r, (Pos2Z.inj_xO q), Hv by lia. ring.
  - injection H as <- <-. repeat split; lia.
Qed.

(** Two valid finite floats with the same value have the same mantissa
    and exponent. *)
Lemma canonical_same (m1 m2 o : positive) (e1 e2 k1 k2 : Z) :
  canonical_mantissa prec emax m1 e1 = true ->
  canonical_mantissa prec emax m2 e2 = true ->
  odd_part m1 = (o, k1) -> odd_part m2 = (o, k2) ->
  (e1 + k1 = e2 + k2)%Z ->
  m1 = m2 /\ e1 = e2.
Proof.
  unfold canonical_mantissa. rewrite !Z.eqb_eq. intros C1 C2 O1 O2 E.
  apply odd_part_spec in O1 as (_ & D1 & V1).
  apply odd_part_spec in O2 as (_ & D2 & V2).
  rewrite D1 in C1. rewrite D2 in C2.
  replace (Z.pos (digits2_pos o) + k1 + e1)%Z
    with (Z.pos (digits2_pos o) + k2 + e2)%Z in C1 by lia.
  assert (e1 = e2) by congruence. subst e2.
  assert (k1 = k2) by lia. subst k2. split; [|reflexivity].
  apply Pos2Z.inj. congruence.
Qed.

Lemma finite_valid (s : bool) (m : positive) (e : Z) :
  valid_binary (S754_finite s m e) = true ->
  canonical_mantissa prec emax m e = true.
Proof. simpl. unfold bounded. now intros H%andb_true_iff. Qed.

(** Two floats are equal as dictionary keys exactly when [==] holds. *)
Lemma atom_of_float_eqb (f g : float) :
  atom_eqb (atom_of_float f) (atom_of_float g) = PrimFloat.eqb f g.
Proof.
  rewrite eqb_spec. unfold atom_of_float, numval_of_float, SFeqb.
  pose proof (Prim2SF_valid f) as Vf. pose proof (Prim2SF_valid g) as Vg.
  destruct (Prim2SF f) as [s1|s1| |s1 m1 e1], (Prim2SF g) as [s2|s2| |s2 m2 e2];
    try (destruct (odd_part m1) as [o1 k1] eqn:O1);
    try (destruct (odd_part m2) as [o2 k2] eqn:O2);
    simpl; try reflexivity;
    try (now destruct s1); try (now destruct s2); try (now destruct s1, s2).
  apply finite_valid in Vf, Vg.
  destruct (Bool.eqb s1 s2 && (o1 =? o2)%positive && (e1 + k1 =? e2 + k2)%Z)
    eqn:E.
  - apply andb_true_iff in E as [E E3]. apply andb_true_iff in E as [E1 E2].
    apply Bool.eqb_prop in E1. apply Pos.eqb_eq in E2. apply Z.eqb_eq in E3.
    subst s2 o2.
    destruct (canonical_same _ _ _ _ Vf Vg O1 O2 E3) as [-> ->].
    rewrite Z.compare_refl.
    change (Pos.compare_cont Eq m2 m2) with (Pos.compare m2 m2).
    rewrite Pos.compare_refl. now destruct s1.
  - destruct s1, s2; try reflexivity;
      destruct (Z.compare_spec e1 e2) as [He|He|He]; try reflexivity;
      change (Pos.compare_cont Eq m1 m2) with (Pos.compare m1 m2);
      destruct (Pos.compare_spec m1 m2) as [Hm|Hm|Hm]; try reflexivity;
      subst; rewrite O1 in O2; injection O2 as <- <-;
      rewrite Pos.eqb_refl, Z.eqb_refl in E; discriminate.
Qed.

(** A float that is not a NaN equals itself. *)
Lemma eqb_refl_number (f : float) :
  PrimFloat.is_nan f = false -> PrimFloat.eqb f f = true.
Proof. unfold PrimFloat.is_nan. now rewrite negb_false_iff. Qed.

(** [is_nan] holds of the NaNs only. *)
Lemma nan_spec (f : float) :
  PrimFloat.is_nan f = true -> Prim2SF f = S754_nan.
Proof.
  unfold PrimFloat.is_nan. rewrite negb_true_iff, eqb_spec. unfold SFeqb.
  destruct (Prim2SF f) as [s|s| |s m e]; simpl; try reflexivity;
    try (now destruct s).
  rewrite Z.compare_refl.
  change (Pos.compare_cont Eq m m) with (Pos.compare m m).
  rewrite Pos.compare_refl. now destruct s.
Qed.

(** A NaN is below nothing. *)
Lemma ltb_nan_l (f g : float) :
  PrimFloat.is_nan f = true -> PrimFloat.ltb f g = false.
Proof.
  intros H. rewrite ltb_spec, (nan_spec _ H). reflexivity.
Qed.

Lemma leb_not_ltb (f g : float) :
  PrimFloat.leb f g = true -> PrimFloat.ltb g f = false.
Proof.
  rewrite leb_spec, ltb_spec. unfold SFleb, SFltb.
  destruct (SFcompare (Prim2SF f) (Prim2SF g)) as [c|] eqn:E; [|discriminate].
  rewrite (SFcompare_antisym _ _ E). now destruct c.
Qed.

End FloatEquality.

(* ================================================================== *)
(** * Pairs of a list taken in order *)
(* ================================================================== *)

Section OrderedPairs.

Context {A : Type}.

Lemma ordpairs_impl (P Q : A -> A -> Prop) (l : list A) :
  (forall x y, P x y -> Q x y) -> ForallOrdPairs P l -> ForallOrdPairs Q l.
Proof.
  intros H. induction 1 as [|a l Ha _ IH]; constructor; [|exact IH].
  eapply Forall_impl; [|exact Ha]. intros y. apply H.
Qed.

Lemma ordpairs_impl_in (P Q : A -> A -> Prop) (l : list A) :
  (forall x y, In x l -> In y l -> P x y -> Q x y) ->
  ForallOrdPairs P l -> ForallOrdPairs Q l.
Proof.
  intros H Hl. induction Hl as [|a l Ha _ IH]; constructor.
  - apply Forall_forall. intros y Hy. apply H; simpl; auto.
    exact (proj1 (Forall_forall _ _) Ha y Hy).
  - apply IH. intros x y Hx Hy. apply H; simpl; auto.
Qed.

Lemma ordpairs_app (P : A -> A -> Prop) (l1 l2 : list A) :
  ForallOrdPairs P l1 -> ForallOrdPairs P l2 ->
  (forall x y, In x l1 -> In y l2 -> P x y) ->
  ForallOrdPairs P (l1 ++ l2).
Proof.
  intros H1 H2 H. induction H1 as [|a l Ha _ IH]; simpl; [exact H2|].
  constructor.
  - apply Forall_app. split; [exact Ha|].
    apply Forall_forall. intros y Hy. apply H; simpl; auto.
  - apply IH. intros x y Hx Hy. apply H; simpl; auto.
Qed.

Lemma sorted_ordpairs (P : A -> A -> Prop) (l : list A) :
  StronglySorted P l -> ForallOrdPairs P l.
Proof. induction 1; constructor; auto. Qed.

Lemma ordpairs_all (P : A -> A -> Prop) (l : list A) :
  (forall x y, In x l -> In y l -> P x y) -> ForallOrdPairs P l.
Proof.
  induction l as [|a l IH]; intros H; constructor.
  - apply Forall_forall. intros y Hy. apply H; simpl; auto.
  - apply IH. intros x y Hx Hy. apply H; simpl; auto.
Qed.

(** In a list whose ordered pairs satisfy [P], an element for which
    [P y x] fails comes before [y]. *)
Lemma ordpairs_before (P : A -> A -> Prop) (l : list A) (x y : A) :
  ForallOrdPairs P l -> In x l -> In y l -> x <> y -> ~ P y x ->
  exists l1 l2 l3, l = l1 ++ x :: l2 ++ y :: l3.
Proof.
  intros H Hx Hy Hne Hn. induction H as [|a l Ha Hl IH]; [easy|].
  destruct Hx as [->|Hx].
  - destruct Hy as [->|Hy]; [easy|].
    apply in_split in Hy as (l2 & l3 & ->). now exists [], l2, l3.
  - destruct Hy as [->|Hy].
    + exfalso. apply Hn. exact (proj1 (Forall_forall _ _) Ha x Hx).
    + destruct (IH Hx Hy) as (l1 & l2 & l3 & ->). now exists (a :: l1), l2, l3.
Qed.

End OrderedPairs.

(* ================================================================== *)
(** * The key of the dictionary and the three fields *)
(* ================================================================== *)

Section Fields.

(** Two values are equal as dictionary keys exactly when both can be
    hashed and [py_eq] holds. *)
Lemma py_eq_atoms (a b : json) :
  py_eq a b = match atom_of a, atom_of b with
              | Ok x, Ok y => atom_eqb x y
              | _, _ => false
              end.
Proof.
  destruct a as [|b1|z1|f1| |s1|l1|m1], b as [|b2|z2|f2| |s2|l2|m2];
    simpl; try reflexivity;
    try (symmetry; apply atom_of_float_eqb);
    unfold atom_of_float;
    try (destruct (numval_of_float f1)); try (destruct (numval_of_float f2));
    reflexivity.
Qed.

Lemma price_eq_atoms (p q : pyfloat) :
  price_eq p q = atom_eqb (atom_of_pyfloat p) (atom_of_pyfloat q).
Proof.
  destruct p as [f|], q as [g|]; simpl; try reflexivity.
  - symmetry. apply atom_of_float_eqb.
  - unfold atom_of_float. now destruct (numval_of_float f).
  - unfold atom_of_float. now destruct (numval_of_float g).
Qed.

(** The keys [(x.url, x.price, x.currency)] of two offers are equal
    exactly when the three fields are, one by one. *)
Lemma same_triple_fields (x y : FoundOffer) :
  same_triple x y = same_fields x y.
Proof.
  unfold same_triple, same_fields, offer_key.
  rewrite !py_eq_atoms, price_eq_atoms.
  destruct (atom_of (url x)) as [u1|]; simpl.
  - destruct (atom_of (currency x)) as [c1|]; simpl.
    + destruct (atom_of (url y)) as [u2|]; simpl; [|reflexivity].
      destruct (atom_of (currency y)) as [c2|]; simpl; [reflexivity|].
      now rewrite andb_false_r.
    + destruct (atom_of (url y)) as [u2|]; simpl; [|reflexivity].
      now rewrite andb_false_r.
  - reflexivity.
Qed.

Lemma existsb_pointwise {A : Type} (f g : A -> bool) (l : list A) :
  (forall x, f x = g x) -> existsb f l = existsb g l.
Proof.
  intros H. induction l as [|a l IH]; simpl; [reflexivity|].
  now rewrite H, IH.
Qed.

Lemma keep_first_first_seen (l : list FoundOffer) : forall e,
  keep_first e l = first_seen e l.
Proof.
  induction l as [|x r IH]; intros e; simpl; [reflexivity|].
  rewrite IH. f_equal.
  rewrite (existsb_pointwise (fun y => same_triple y x)
                             (fun y => same_fields y x)); [reflexivity|].
  intros y. apply same_triple_fields.
Qed.

Lemma py_eq_refl (v : json) :
  hashable v = true -> nan_json v = false -> py_eq v v = true.
Proof.
  destruct v as [|b|z|f| |s|l|m]; simpl; try easy; intros _ H.
  - now apply numval_eqb_eq.
  - now apply numval_eqb_eq.
  - now apply eqb_refl_number.
  - apply str_eqb_refl.
Qed.

(** An offer whose url and currency can be hashed has fields equal to
    themselves unless one of them is a NaN. *)
Lemma same_fields_refl (x : FoundOffer) :
  hashable (url x) = true -> hashable (currency x) = true ->
  nan_field x = false -> same_fields x x = true.
Proof.
  unfold nan_field, same_fields. intros Hu Hc H.
  apply orb_false_iff in H as [H Hnc]. apply orb_false_iff in H as [Hp Hnu].
  rewrite (py_eq_refl _ Hu Hnu), (py_eq_refl _ Hc Hnc). simpl.
  rewrite andb_true_r. destruct (price x) as [f|]; simpl; [|reflexivity].
  now apply eqb_refl_number.
Qed.

Lemma same_fields_eq (x y : FoundOffer) :
  url x = url y -> price x = price y -> currency x = currency y ->
  same_fields x y = same_fields x x.
Proof. unfold same_fields. now intros <- <- <-. Qed.

Lemma first_seen_app (a : list FoundOffer) : forall e b,
  first_seen e (a ++ b) = first_seen e a ++ first_seen (e ++ a) b.
Proof.
  intros e b. rewrite <- !keep_first_first_seen. apply keep_first_app.
Qed.

Lemma first_seen_distinct (l : list FoundOffer) : forall e,
  ForallOrdPairs (fun x y => same_fields x y = false
                             /\ same_fields y x = false) (first_seen e l).
Proof.
  intros e. rewrite <- keep_first_first_seen.
  refine (ordpairs_impl _ _ (keep_first_distinct l e)).
  intros x y. now rewrite !same_triple_fields.
Qed.

Lemma scrape_site_first_seen L query cfg timeout_s sleep_s offers :
  scrape_site L query cfg timeout_s sleep_s = Ok offers ->
  exists found,
    found_offers L query cfg timeout_s sleep_s = Ok found
    /\ offers = first_seen [] (filter retained found)
    /\ Forall (fun x => hashable (url x) = true /\ hashable (currency x) = true)
              (filter retained found).
Proof.
  intros H. destruct (scrape_site_unfold _ _ _ _ _ H) as (found & Hf & ->).
  exists found. split; [exact Hf|]. split; [apply keep_first_first_seen|].
  apply (proj1 (dedup_loop_ok (filter retained found) [])).
  unfold scrape_site in H. rewrite Hf in H. simpl in H.
  destruct (dedup_loop [] (filter retained found)) as [d|]; [eauto|discriminate].
Qed.

End Fields.

(** C5, as the code has it. When [scrape_site] returns, its list is the
    filtered offers with, for each triple (url, price, currency), only
    the first offer that has it: an offer is kept exactly when no
    filtered offer before it has an equal url, an equal price and an
    equal currency. So no two offers of the list have the three fields
    equal, each offer of the list is an offer of the filtered list,
    unchanged, and the offers come in the order they had before. Fields
    are equal as Python's [==] has it, under which a NaN is equal to
    nothing: two offers of the list whose url, price and currency are
    the same values hold a NaN in one of those fields. *)
Theorem dedup_first_occurrence (L : Lib) (query : str) (cfg : SiteConfig)
    (timeout_s : Z) (sleep_s : float) (offers : list FoundOffer) :
  scrape_site L query cfg timeout_s sleep_s = Ok offers ->
  exists found,
    found_offers L query cfg timeout_s sleep_s = Ok found
    /\ offers = first_seen [] (filter retained found)
    /\ (forall pre x post,
          filter retained found = pre ++ x :: post ->
          offers = first_seen [] pre
                   ++ (if existsb (fun y => same_fields y x) pre then [] else [x])
                   ++ first_seen (pre ++ [x]) post)
    /\ ForallOrdPairs (fun x y => same_fields x y = false
                                  /\ same_fields y x = false) offers
    /\ ForallOrdPairs (fun x y => url x = url y -> price x = price y ->
                                  currency x = currency y ->
                                  nan_field x = true) offers
    /\ Subseq offers (filter retained found).
Proof.
  intros H. apply scrape_site_first_seen in H as (found & Hf & -> & Hh).
  exists found. split; [exact Hf|]. split; [reflexivity|].
  split; [|split; [|split]].
  - intros pre x post E. rewrite E, first_seen_app. reflexivity.
  - apply first_seen_distinct.
  - refine (ordpairs_impl_in _ _ (first_seen_distinct _ [])).
    intros x y Hx _ [Hxy _] Eu Ep Ec.
    rewrite (same_fields_eq _ _ Eu Ep Ec) in Hxy.
    rewrite <- keep_first_first_seen in Hx.
    apply (subseq_In (keep_first_subseq _ _)) in Hx.
    destruct (proj1 (Forall_forall _ _) Hh x Hx) as [Hu Hc].
    destruct (nan_field x) eqn:En; [reflexivity|].
    rewrite (same_fields_refl _ Hu Hc En) in Hxy. discriminate.
  - rewrite <- keep_first_first_seen. apply keep_first_subseq.
Qed.

(** The page of the shop: three priced cards, then a JSON-LD product
    whose offer is found twice, once under the name of the product and
    once on its own; the second has the url, the price and the currency
    of the first and is dropped. *)
Lemma dedup_first_occurrence_witness :
  exists found,
    found_offers (DemoShop.lib Demo.ld_product) (lit "drill")
                 (DemoShop.config 10) 20 0%float = Ok found
    /\ [ DemoShop.found "Bosch drill" 49 "https://example.com/p/1";
         DemoShop.found "Makita drill" 12 "https://example.com/p/2";
         DemoShop.found "Hand drill" 7 "https://example.com/p/3";
         DemoShop.found "drill" 5 "https://example.com/s?q=drill" ]
       = first_seen [] (filter retained found)
    /\ (forall pre x post,
          filter retained found = pre ++ x :: post ->
          [ DemoShop.found "Bosch drill" 49 "https://example.com/p/1";
            DemoShop.found "Makita drill" 12 "https://example.com/p/2";
            DemoShop.found "Hand drill" 7 "https://example.com/p/3";
            DemoShop.found "drill" 5 "https://example.com/s?q=drill" ]
          = first_seen [] pre
            ++ (if existsb (fun y => same_fields y x) pre then [] else [x])
            ++ first_seen (pre ++ [x]) post)
    /\ ForallOrdPairs (fun x y => same_fields x y = false
                                  /\ same_fields y x = false)
         [ DemoShop.found "Bosch drill" 49 "https://example.com/p/1";
           DemoShop.found "Makita drill" 12 "https://example.com/p/2";
           DemoShop.found "Hand drill" 7 "https://example.com/p/3";
           DemoShop.found "drill" 5 "https://example.com/s?q=drill" ]
    /\ ForallOrdPairs (fun x y => url x = url y -> price x = price y ->
                                  currency x = currency y ->
                                  nan_field x = true)
         [ DemoShop.found "Bosch drill" 49 "https://example.com/p/1";
           DemoShop.found "Makita drill" 12 "https://example.com/p/2";
           DemoShop.found "Hand drill" 7 "https://example.com/p/3";
           DemoShop.found "drill" 5 "https://example.com/s?q=drill" ]
    /\ Subseq
         [ DemoShop.found "Bosch drill" 49 "https://example.com/p/1";
           DemoShop.found "Makita drill" 12 "https://example.com/p/2";
           DemoShop.found "Hand drill" 7 "https://example.com/p/3";
           DemoShop.found "drill" 5 "https://example.com/s?q=drill" ]
         (filter retained found).
Proof.
  apply (@dedup_first_occurrence (DemoShop.lib Demo.ld_product) (lit "drill")
           (DemoShop.config 10) 20 0%float).
  vm_compute. reflexivity.
Defined.

(** C5, as stated, fails for prices that are NaN: a page with two
    JSON-LD offers whose price is the string nan gives two offers with
    the same url, the same price and the same currency, and both are
    returned. [float] makes a new NaN object for each, the dictionary
    finds neither key equal to the other, and nothing else compares the
    offers. *)
Lemma nan_price_twice_counterexample :
  scrape_site DemoNaN.lib (lit "drill")
              (Demo.site "https://example.com/s?q={query}") 20 0%float
  = Ok [ {| site := lit "Shop"; title := lit "drill"; price := Fl nan;
            currency := JStr [];
            url := JStr (lit "https://example.com/s?q=drill");
            matched := true |};
         {| site := lit "Shop"; title := lit "drill"; price := Fl nan;
            currency := JStr [];
            url := JStr (lit "https://example.com/s?q=drill");
            matched := true |} ]
  /\ forall offers x y,
       scrape_site DemoNaN.lib (lit "drill")
                   (Demo.site "https://example.com/s?q={query}") 20 0%float
       = Ok offers ->
       nth_error offers 0 = Some x -> nth_error offers 1 = Some y ->
       url x = url y /\ price x = price y /\ currency x = currency y.
Proof.
  split; [vm_compute; reflexivity|].
  intros offers x y H. vm_compute in H. injection H as <-.
  simpl. intros [= <-] [= <-]. repeat split.
Qed.

(** X16. De-duplication loses nothing but duplicates: every offer that
    passed the filter is in the returned list or has the url, the price
    and the currency of an offer of the returned list; and when no two
    filtered offers have these three fields equal, the returned list is
    the filtered list. *)
Theorem dedup_loses_only_duplicates (L : Lib) (query : str) (cfg : SiteConfig)
    (timeout_s : Z) (sleep_s : float) (found offers : list FoundOffer) :
  found_offers L query cfg timeout_s sleep_s = Ok found ->
  scrape_site L query cfg timeout_s sleep_s = Ok offers ->
  (forall x, In x found -> retained x = true ->
     In x offers \/ exists y, In y offers /\ same_fields y x = true)
  /\ (ForallOrdPairs (fun x y => same_fields x y = false)
                     (filter retained found) ->
      offers = filter retained found).
Proof.
  intros Hf H. apply scrape_site_unfold in H as (found' & Hf' & ->).
  rewrite Hf in Hf'. injection Hf' as <-. split.
  - intros x Hx Hr.
    destruct (@keep_first_covers (filter retained found) [] x)
      as [H|(y & [[]|Hy] & Hs)]; auto.
    + apply filter_In. auto.
    + right. exists y. now rewrite <- same_triple_fields.
  - intros Hd. apply keep_first_no_duplicates; [easy|].
    refine (ordpairs_impl _ _ Hd). intros x y. now rewrite same_triple_fields.
Qed.

(** The offer of the product, found a second time on its own, is not
    returned: the first has its url, its price and its currency. *)
Lemma dedup_loses_only_duplicates_witness :
  In {| site := lit "Shop"; title := lit "(JSON-LD Product)";
        price := Fl 5%float; currency := JStr [];
        url := JStr (lit "https://example.com/s?q=drill");
        matched := false |}
     [ {| site := lit "Shop"; title := lit "drill"; price := Fl 5%float;
          currency := JStr [];
          url := JStr (lit "https://example.com/s?q=drill");
          matched := true |} ]
  \/ exists y,
       In y [ {| site := lit "Shop"; title := lit "drill"; price := Fl 5%float;
                 currency := JStr [];
                 url := JStr (lit "https://example.com/s?q=drill");
                 matched := true |} ]
       /\ same_fields y {| site := lit "Shop"; title := lit "(JSON-LD Product)";
                           price := Fl 5%float; currency := JStr [];
                           url := JStr (lit "https://example.com/s?q=drill");
                           matched := false |} = true.
Proof.
  apply (proj1 (@dedup_loses_only_duplicates (Demo.lib Demo.ld_product)
                  (lit "drill") (Demo.site "https://example.com/s?q={query}")
                  20 0%float
                  [ {| site := lit "Shop"; title := lit "drill";
                       price := Fl 5%float; currency := JStr [];
                       url := JStr (lit "https://example.com/s?q=drill");
                       matched := true |};
                    {| site := lit "Shop"; title := lit "(JSON-LD Product)";
                       price := Fl 5%float; currency := JStr [];
                       url := JStr (lit "https://example.com/s?q=drill");
                       matched := false |} ]
                  _ ltac:(vm_compute; reflexivity)
                  ltac:(vm_compute; reflexivity))).
  - simpl. auto.
  - reflexivity.
Defined.

(* ================================================================== *)
(** * Where the price of a returned offer comes from *)
(* ================================================================== *)

Section PagePrices.

Variable L : Lib.

Lemma for_each_each {A B : Type} (f : A -> Result (list B)) (l : list A) r :
  for_each f l = Ok r -> forall a, In a l -> exists ra, f a = Ok ra.
Proof.
  revert r. induction l as [|x l IH]; intros r H a Ha; [easy|].
  simpl in H. destruct (f x) as [rx|] eqn:Ex; simpl in H; [|discriminate].
  destruct (for_each f l) as [rl|]; simpl in H; [|discriminate].
  destruct Ha as [<-|Ha]; eauto.
Qed.

Lemma card_offer_priced query cfg u c o :
  card_offer L query cfg u c = Ok (Some o) ->
  exists price_text a cur,
    select_text c (price_selector cfg) = Ok price_text
    /\ parse_price L price_text = Ok (Some a, cur)
    /\ price o = Fl a.
Proof.
  unfold card_offer. intros H.
  destruct (select_text c (title_selector cfg)); simpl in H; [|discriminate].
  destruct (select_text c (price_selector cfg)) as [text|]; simpl in H;
    [|discriminate].
  destruct (select_link L u c _); simpl in H; [|discriminate].
  destruct (parse_price L text) as [[am cur]|] eqn:Ep; simpl in H; [|discriminate].
  destruct am as [am|]; [|discriminate]. injection H as <-.
  exists text, am, cur. auto.
Qed.

Lemma card_offer_unpriced query cfg u c r :
  card_unpriced L cfg c -> card_offer L query cfg u c = Ok r -> r = None.
Proof.
  intros (text & cur & Hs & Hp). unfold card_offer.
  destruct (select_text c (title_selector cfg)); simpl; [|discriminate].
  rewrite Hs. simpl.
  destruct (select_link L u c _); simpl; [|discriminate].
  rewrite Hp. simpl. now intros [= <-].
Qed.

Lemma offer_obj_priced offer title0 u r o :
  _offers_from_offer_obj L offer title0 u = Ok r -> In o r ->
  r = [o] /\ price_field offer <> JNull
  /\ py_float L (price_field offer) = Ok (price o).
Proof.
  intros H Ho.
  destruct (@offer_obj_fields L _ _ _ _ _ H Ho) as (u' & p & _ & Hp & -> & E).
  split; [reflexivity|]. apply offer_price_some. rewrite Hp, E. reflexivity.
Qed.

Lemma offer_obj_unpriced offer title0 u r :
  unparseable L (price_field offer) ->
  _offers_from_offer_obj L offer title0 u = Ok r -> r = [].
Proof.
  intros Hu. apply offer_price_none in Hu. unfold _offers_from_offer_obj.
  destruct (absolutize_url L u _); simpl; [|discriminate].
  rewrite Hu. now intros [= <-].
Qed.

Lemma offers_of_walked_objects u obj r o :
  offers_of_walked L u obj = Ok r -> In o r ->
  exists offer title0,
    In offer (offer_objects obj)
    /\ _offers_from_offer_obj L offer title0 u = Ok [o]
    /\ price_field offer <> JNull
    /\ py_float L (price_field offer) = Ok (price o).
Proof.
  unfold offers_of_walked, offer_objects. intros H Ho.
  destruct obj as [| | | | | | |members]; try (injection H as <-; easy).
  destruct (is_str _ (lit "Product")).
  - destruct (normalize_space_of _) as [t|]; cbn [bind] in H; [|discriminate].
    destruct (dict_get members (lit "offers")) as [| | | | | |l|oo];
      try (injection H as <-; easy).
    + destruct (@for_each_In _ _ _ _ _ _ H Ho) as (node & rn & Hnode & Hn & Hin).
      destruct node as [| | | | | | |m]; try (injection Hn as <-; easy).
      destruct (offer_obj_priced _ _ _ _ Hn Hin) as (-> & Hp).
      exists m, t. split; [|auto].
      apply in_flat_map. exists (JObj m). simpl. auto.
    + destruct (offer_obj_priced _ _ _ _ H Ho) as (-> & Hp).
      exists oo, t. simpl. auto.
  - destruct (_ || _).
    + destruct (normalize_space_of _) as [t|]; cbn [bind] in H; [|discriminate].
      destruct (offer_obj_priced _ _ _ _ H Ho) as (-> & Hp).
      exists members, t. simpl. auto.
    + injection H as <-. easy.
Qed.

Lemma script_offers_objects u sc o :
  In o (script_offers L u sc) ->
  exists offer title0,
    In offer (script_offer_objects L sc)
    /\ _offers_from_offer_obj L offer title0 u = Ok [o]
    /\ price_field offer <> JNull
    /\ py_float L (price_field offer) = Ok (price o).
Proof.
  unfold script_offers, script_offer_objects.
  destruct (json_loads L _) as [data|]; [|easy].
  rewrite in_flat_map. intros (node & Hnode & Ho).
  destruct (_extract_offers_from_jsonld_node L node u) as [r|] eqn:E; [|easy].
  destruct (@for_each_In _ _ _ _ _ _ E Ho) as (obj & ro & Hobj & Hw & Hin).
  destruct (@offers_of_walked_objects _ _ _ _ Hw Hin) as (offer & t & Hoff & Hrest).
  exists offer, t. split; [|exact Hrest].
  apply in_flat_map. exists node. split; [exact Hnode|].
  apply in_flat_map. exists obj. auto.
Qed.

(** The offers [scrape_site] finds on the page it fetched, each with the
    card or the offer object of that page that gave its price. *)
Lemma found_offers_priced query cfg timeout_s sleep_s found :
  found_offers L query cfg timeout_s sleep_s = Ok found ->
  exists search_url html cards,
    build_search_url cfg query = Ok search_url
    /\ fetch_html L search_url timeout_s = Ok html
    /\ page_cards L cfg html = Ok cards
    /\ (forall o, In o found ->
          priced_by_card L query cfg search_url cards o
          \/ priced_by_offer_object L query cfg search_url
               (page_offer_objects L (BeautifulSoup L html)) o)
    /\ (forall c, In c cards -> card_unpriced L cfg c ->
          card_offer L query cfg search_url c = Ok None).
Proof.
  intros H. apply found_offers_steps in H as (u & Hu & H).
  apply page_offers_steps in H as (html & cards & found1 & Hh & Hc & H1 & ->).
  exists u, html, (slice_to cards (max_results cfg)).
  split; [exact Hu|]. split; [exact Hh|].
  split; [unfold page_cards; rewrite Hc; reflexivity|]. split.
  - intros o Ho. apply in_app_or in Ho as [Ho|Ho].
    + left. destruct (@selector_offers_origin L _ _ _ _ _ _ H1 Ho) as (c & Hin & Hco).
      destruct (@card_offer_priced _ _ _ _ _ Hco) as (text & a & cur & Hs & Hp & Ha).
      exists c, text, a, cur. auto.
    + right. unfold jsonld_found in Ho.
      apply in_map_iff in Ho as (o' & <- & Ho').
      apply in_flat_map in Ho' as (sc & Hsc & Ho').
      destruct (@script_offers_objects _ _ _ Ho')
        as (offer & t & Hoff & Hb & Hn & Hp).
      exists offer, t, o'. split; [|auto].
      apply in_flat_map. exists sc. auto.
  - intros c Hin Hun.
    destruct (@for_each_each _ _ _ _ _ H1 c Hin) as (rc & Hrc).
    destruct (card_offer L query cfg u c) as [x|] eqn:Ec; simpl in Hrc;
      [|discriminate].
    now rewrite (@card_offer_unpriced _ _ _ _ _ Hun Ec).
Qed.

End PagePrices.

(** C1, as the code has it. Every offer of the list [scrape_site]
    returns has a price, a float (the field [price] holds one), and that
    price comes from the page fetched at the search URL: it is the
    amount [parse_price] read in the price text of one of the cards
    looked at, from which the offer was built, or the float that the
    [price] (or [lowPrice]) value of an offer object of one of the
    JSON-LD blocks converted to. Nothing bounds it from below. A card
    looked at whose price text gives no amount yields no offer, an offer
    object of the page whose price value is missing or does not convert
    yields none, and a page on which no card and no offer object has a
    price that parses gives the empty list. *)
Theorem scrape_site_prices_parsed (L : Lib) (query : str) (cfg : SiteConfig)
    (timeout_s : Z) (sleep_s : float) (offers : list FoundOffer) :
  scrape_site L query cfg timeout_s sleep_s = Ok offers ->
  exists search_url html cards,
    build_search_url cfg query = Ok search_url
    /\ fetch_html L search_url timeout_s = Ok html
    /\ page_cards L cfg html = Ok cards
    /\ (forall o, In o offers ->
          priced_by_card L query cfg search_url cards o
          \/ priced_by_offer_object L query cfg search_url
               (page_offer_objects L (BeautifulSoup L html)) o)
    /\ (forall c, In c cards -> card_unpriced L cfg c ->
          card_offer L query cfg search_url c = Ok None)
    /\ (forall offer title0 r,
          In offer (page_offer_objects L (BeautifulSoup L html)) ->
          unparseable L (price_field offer) ->
          _offers_from_offer_obj L offer title0 search_url = Ok r -> r = [])
    /\ ((forall c, In c cards -> card_unpriced L cfg c) ->
        (forall offer, In offer (page_offer_objects L (BeautifulSoup L html)) ->
                       unparseable L (price_field offer)) ->
        offers = []).
Proof.
  intros H. apply scrape_site_unfold in H as (found & Hf & ->).
  destruct (@found_offers_priced L _ _ _ _ _ Hf)
    as (u & html & cards & Hu & Hh & Hc & Hp & Hn).
  assert (Hoffers : forall o, In o (keep_first [] (filter retained found)) ->
            priced_by_card L query cfg u cards o
            \/ priced_by_offer_object L query cfg u
                 (page_offer_objects L (BeautifulSoup L html)) o).
  { intros o Ho. apply (subseq_In (keep_first_subseq _ _)) in Ho.
    apply filter_In in Ho as [Ho _]. auto. }
  exists u, html, cards. repeat split; auto.
  - intros offer t r _. apply offer_obj_unpriced.
  - intros Hcards Hobjs.
    destruct (keep_first [] (filter retained found)) as [|o rest]; [reflexivity|].
    exfalso. destruct (Hoffers o (or_introl eq_refl))
      as [(c & text & a & cur & Hin & Hs & Hpp & _)
         |(offer & t & o' & Hin & _ & _ & Hnn & Hpf)].
    + destruct (Hcards c Hin) as (text' & cur' & Hs' & Hp').
      rewrite Hs in Hs'. injection Hs' as <-. rewrite Hpp in Hp'. discriminate.
    + destruct (Hobjs offer Hin) as [E|[e E]]; [easy|].
      rewrite Hpf in E. discriminate.
Qed.

(** The page of the shop for the query drill: three cards with the
    price texts 49, 12 and 7, a card whose price text has no number, and
    a JSON-LD product with an offer of price 5. *)
Lemma scrape_site_prices_parsed_witness :
  exists search_url html cards,
    build_search_url (DemoShop.config 10) (lit "drill") = Ok search_url
    /\ fetch_html (DemoShop.lib Demo.ld_product) search_url 20 = Ok html
    /\ page_cards (DemoShop.lib Demo.ld_product) (DemoShop.config 10) html
       = Ok cards
    /\ (forall o,
          In o [ DemoShop.found "Bosch drill" 49 "https://example.com/p/1";
                 DemoShop.found "Makita drill" 12 "https://example.com/p/2";
                 DemoShop.found "Hand drill" 7 "https://example.com/p/3";
                 DemoShop.found "drill" 5 "https://example.com/s?q=drill" ] ->
          priced_by_card (DemoShop.lib Demo.ld_product) (lit "drill")
                         (DemoShop.config 10) search_url cards o
          \/ priced_by_offer_object (DemoShop.lib Demo.ld_product) (lit "drill")
               (DemoShop.config 10) search_url
               (page_offer_objects (DemoShop.lib Demo.ld_product)
                  (BeautifulSoup (DemoShop.lib Demo.ld_product) html)) o)
    /\ (forall c, In c cards ->
          card_unpriced (DemoShop.lib Demo.ld_product) (DemoShop.config 10) c ->
          card_offer (DemoShop.lib Demo.ld_product) (lit "drill")
                     (DemoShop.config 10) search_url c = Ok None)
    /\ (forall offer title0 r,
          In offer (page_offer_objects (DemoShop.lib Demo.ld_product)
                      (BeautifulSoup (DemoShop.lib Demo.ld_product) html)) ->
          unparseable (DemoShop.lib Demo.ld_product) (price_field offer) ->
          _offers_from_offer_obj (DemoShop.lib Demo.ld_product) offer title0
                                 search_url = Ok r -> r = [])
    /\ ((forall c, In c cards ->
           card_unpriced (DemoShop.lib Demo.ld_product) (DemoShop.config 10) c) ->
        (forall offer,
           In offer (page_offer_objects (DemoShop.lib Demo.ld_product)
                       (BeautifulSoup (DemoShop.lib Demo.ld_product) html)) ->
           unparseable (DemoShop.lib Demo.ld_product) (price_field offer)) ->
        [ DemoShop.found "Bosch drill" 49 "https://example.com/p/1";
          DemoShop.found "Makita drill" 12 "https://example.com/p/2";
          DemoShop.found "Hand drill" 7 "https://example.com/p/3";
          DemoShop.found "drill" 5 "https://example.com/s?q=drill" ] = []).
Proof.
  apply (@scrape_site_prices_parsed (DemoShop.lib Demo.ld_product) (lit "drill")
           (DemoShop.config 10) 20 0%float).
  vm_compute. reflexivity.
Defined.

(* ================================================================== *)
(** * The order of the table *)
(* ================================================================== *)

Section TableOrder.

Lemma cheaper_irrefl (x : FoundOffer) : cheaper x x = false.
Proof.
  unfold cheaper. destruct (PrimFloat.ltb _ _) eqn:E; [|reflexivity].
  rewrite <- E. apply leb_not_ltb. now apply ltb_leb.
Qed.

(** In an ascending list no offer comes before a cheaper one. *)
Lemma ascending_no_inversion (l : list FoundOffer) :
  Ascending l -> ForallOrdPairs (fun x y => cheaper y x = false) l.
Proof.
  intros (nums & nans & -> & _ & Hnan & Hs).
  assert (Hn : forall x y, In y nans -> cheaper y x = false).
  { intros x y Hy. apply ltb_nan_l.
    exact (proj1 (forallb_forall _ _) Hnan y Hy). }
  apply ordpairs_app.
  - refine (ordpairs_impl _ _ (sorted_ordpairs Hs)).
    intros x y. apply leb_not_ltb.
  - apply ordpairs_all. intros x y _ Hy. now apply Hn.
  - intros x y _ Hy. now apply Hn.
Qed.

(** A cheaper offer comes first. *)
Lemma cheaper_first (l : list FoundOffer) (x y : FoundOffer) :
  Ascending l -> In x l -> In y l -> cheaper x y = true -> Before x y l.
Proof.
  intros Ha Hx Hy Hc.
  apply (ordpairs_before (P := fun a b => cheaper b a = false));
    auto using ascending_no_inversion.
  - intros ->. rewrite cheaper_irrefl in Hc. discriminate.
  - rewrite Hc. discriminate.
Qed.

End TableOrder.

(** C2, as the code has it. The table the run block shows is the
    combined offers of the sites reordered so that prices ascend, the
    offers whose price is NaN last; the errors are those of the loop. No
    offer is shown before a cheaper one, and of two offers the cheaper
    one comes first. Offers with the prices 29.99, 9.50 and 100.0 come
    out in the order 9.50, 29.99, 100.0. The order of offers with equal
    prices is left to the default algorithm of [sort_values]. *)
#[warnings="-inexact-float"]
Theorem shown_table_ascending (L : Lib) (S : SortValues) (query : str)
    (rows : list Row) (timeout : Z) (delay : float)
    (table : list FoundOffer) (errors : list str) :
  run L S query rows timeout delay = Shown table errors ->
  Ascending table
  /\ Permutation (fst (site_loop L query timeout delay rows [] [])) table
  /\ errors = snd (site_loop L query timeout delay rows [] [])
  /\ ForallOrdPairs (fun x y => cheaper y x = false) table
  /\ (forall x y, In x table -> In y table -> cheaper x y = true ->
                  Before x y table)
  /\ (forall a b c,
        price a = Fl 29.99%float -> price b = Fl 9.5%float ->
        price c = Fl 100%float -> sort_values S [a; b; c] = [b; a; c]).
Proof.
  unfold run. intros H.
  destruct (strip query); [discriminate|].
  destruct (site_loop L query timeout delay rows [] []) as [results errs].
  destruct results as [|r0 results]; [discriminate|].
  injection H as <- <-.
  pose proof (sort_values_ascending S (r0 :: results)) as Ha.
  repeat split.
  - exact Ha.
  - apply sort_values_perm.
  - now apply ascending_no_inversion.
  - intros x y. now apply cheaper_first.
  - apply sorted_three.
Qed.

(** Four offers of the prices 10, 10, 5 and 5, found in this order on
    one page, sorted by the sort that reverses ties. *)
#[warnings="-inexact-float"]
Lemma shown_table_ascending_witness :
  Ascending [ DemoTies.found "drill d" 5 "USD"; DemoTies.found "drill c" 5 "GBP";
              DemoTies.found "drill b" 10 "USD"; DemoTies.found "drill a" 10 "GBP" ]
  /\ Permutation
       (fst (site_loop DemoTies.lib (lit "drill") 20 0%float
               [Demo.row "Shop" "https://example.com/s?q={query}"] [] []))
       [ DemoTies.found "drill d" 5 "USD"; DemoTies.found "drill c" 5 "GBP";
         DemoTies.found "drill b" 10 "USD"; DemoTies.found "drill a" 10 "GBP" ]
  /\ [] = snd (site_loop DemoTies.lib (lit "drill") 20 0%float
                 [Demo.row "Shop" "https://example.com/s?q={query}"] [] [])
  /\ ForallOrdPairs (fun x y => cheaper y x = false)
       [ DemoTies.found "drill d" 5 "USD"; DemoTies.found "drill c" 5 "GBP";
         DemoTies.found "drill b" 10 "USD"; DemoTies.found "drill a" 10 "GBP" ]
  /\ (forall x y,
        In x [ DemoTies.found "drill d" 5 "USD"; DemoTies.found "drill c" 5 "GBP";
               DemoTies.found "drill b" 10 "USD"; DemoTies.found "drill a" 10 "GBP" ] ->
        In y [ DemoTies.found "drill d" 5 "USD"; DemoTies.found "drill c" 5 "GBP";
               DemoTies.found "drill b" 10 "USD"; DemoTies.found "drill a" 10 "GBP" ] ->
        cheaper x y = true ->
        Before x y
          [ DemoTies.found "drill d" 5 "USD"; DemoTies.found "drill c" 5 "GBP";
            DemoTies.found "drill b" 10 "USD"; DemoTies.found "drill a" 10 "GBP" ])
  /\ (forall a b c,
        price a = Fl 29.99%float -> price b = Fl 9.5%float ->
        price c = Fl 100%float ->
        Demo.sort_ties_reversed [a; b; c] = [b; a; c]).
Proof.
  apply (@shown_table_ascending DemoTies.lib
           (mkSortValues Demo.sort_ties_reversed sort_ties_reversed_perm
                         sort_ties_reversed_ascending)
           (lit "drill") [Demo.row "Shop" "https://example.com/s?q={query}"]
           20 0%float).
  vm_compute. reflexivity.
Defined.

(** C2, as stated, fails in its part on ties: [sort_values] is called
    with the default algorithm, which promises the rows in ascending
    order and nothing on rows with equal prices. Four offers found in the
    order a, b, c, d with the prices 10, 10, 5 and 5 are shown in the
    order d, c, b, a by a sort that meets the promise: the two offers of
    price 5, and the two of price 10, come out in the order opposite to
    that of their insertion. *)
Lemma tie_order_counterexample :
  exists S : SortValues,
    run DemoTies.lib S (lit "drill")
        [Demo.row "Shop" "https://example.com/s?q={query}"] 20 0%float
    = Shown [ DemoTies.found "drill d" 5 "USD"; DemoTies.found "drill c" 5 "GBP";
              DemoTies.found "drill b" 10 "USD"; DemoTies.found "drill a" 10 "GBP" ]
            []
    /\ fst (site_loop DemoTies.lib (lit "drill") 20 0%float
              [Demo.row "Shop" "https://example.com/s?q={query}"] [] [])
       = [ DemoTies.found "drill a" 10 "GBP"; DemoTies.found "drill b" 10 "USD";
           DemoTies.found "drill c" 5 "GBP"; DemoTies.found "drill d" 5 "USD" ]
    /\ ~ Stable
         [ DemoTies.found "drill a" 10 "GBP"; DemoTies.found "drill b" 10 "USD";
           DemoTies.found "drill c" 5 "GBP"; DemoTies.found "drill d" 5 "USD" ]
         [ DemoTies.found "drill d" 5 "USD"; DemoTies.found "drill c" 5 "GBP";
           DemoTies.found "drill b" 10 "USD"; DemoTies.found "drill a" 10 "GBP" ].
Proof.
  exists (mkSortValues Demo.sort_ties_reversed sort_ties_reversed_perm
                       sort_ties_reversed_ascending).
  split; [vm_compute; reflexivity|]. split; [vm_compute; reflexivity|].
  intros H. specialize (H (DemoTies.found "drill a" 10 "GBP")).
  vm_compute in H. discriminate H.
Qed.
